(* ===== verification/_CoqProject ===== *)
-Q . S2P
Spec2Rocq.v
Async.v
JsMap.v
JsString.v
JsSort.v
Schema.v
Zod.v
Auth.v
Storage.v
StorageInv.v
StorageProps.v
StorageAsync.v
Gemini.v
Routes.v
GeminiProps.v
RoutesProps.v
Server.v
Races.v
Editor.v
Pages.v
Dashboard.v
Components.v
EditorPage.v
