(* ===== verification/Spec2Rocq.v ===== *)
(** * AI-PCKH knowledge hub: a Rocq model of its server and client

    The repository is a team knowledge-document manager written in
    TypeScript.  Its server keeps every record in process memory
    ([MemStorage], src/unnamed/part_004), exposes it through Express routes
    ([registerRoutes], src/unnamed/part_003) behind a bearer-token
    middleware (src/server/services/auth.ts), and sends document text to a
    generative-text service (src/server/services/gemini.ts).  The React
    client (src/client/src/App.tsx, pages/document-editor.tsx, search.tsx,
    qa.tsx, src/unnamed/part_001 the dashboard, part_002 the sidebar, the
    version modal and the document card) calls those routes.

    ** How the parts interact

    - [MemStorage] owns four [Map]s (users, documents, documentVersions,
      activities).  [createDocument] and [updateDocument] write the
      document, then [await] [createDocumentVersion] and [createActivity];
      [deleteDocument] removes the versions and activities, then the
      document.  Identifiers come from [randomUUID], times from
      [new Date()].
    - Every route handler is [async]: between two [await]s it runs alone,
      and at each [await] any other request may run.  The routes validate
      bodies with zod, check the token, and compare the author of a
      document with the token's user and role before PUT and DELETE.
    - The AI service builds prompts from the documents and post-processes
      the model's JSON; semantic search falls back to a literal filter
      when the call fails.
    - The client sends the editor's form (tags typed as one
      comma-separated string), guards its AI buttons and its search and
      question boxes, filters and sorts the dashboard, and decides from
      the user's role whether a card offers editing.

    ** Files (in dependency order) and what they model

    - [Spec2Rocq] (this file): the prelude: the scope [kh_scope] with
      JavaScript's [===] and [!==], the [Field] type of optional nullable
      properties, the state monad [ST] with stdpp's [MRet]/[MBind], the
      [khub] hint database, tactics and generic list lemmas.
    - [Async]: [async] functions as resumptions ([Res]: finished, or paused
      at an [await] with the rest of the function); [drain] runs one alone
      with fuel; [refines] (run alone it computes a sequential function),
      [safe]/[preserves] (an invariant kept at every [await] under any
      interleaving) and [yields]/[answers] (a property of every answer).
    - [JsMap], [JsString], [JsSort]: [Map] as an insertion-ordered
      association list, the [String] methods the code calls
      ([toLowerCase], [includes], [trim], [split], [join]) on Latin-1 code
      units, and [Array.prototype.sort] as a stable insertion sort.
    - [Schema] (shared/schema.ts): the row and insert types; [Zod]: JSON
      values, JavaScript truthiness, the zod combinators and the four
      schemas the routes parse with.
    - [Auth] (auth.ts): [generateToken], [verifyToken], [authenticateToken],
      [requireAdmin], [hashPassword], [comparePassword]; jsonwebtoken and
      bcrypt are the classes [Jwt] and [Hasher] with their laws, and
      reference instances ([hex_jwt], [prefix_hasher]) show the laws
      satisfiable.
    - [Storage] (MemStorage, sequential), [StorageInv] (the store
      invariant: contiguous version log, newest row equal to the
      normalised document, no orphan, fresh identifiers), [StorageProps]
      (the behaviour of each method), [StorageAsync] (each method cut at
      its [await]s, its refinement of [Storage] and the invariant kept at
      every [await]).
    - [Gemini] (gemini.ts) and [GeminiProps]: the prompts, the ranking and
      the fallback, the AI as an oracle record of possible outcomes.
    - [Routes] (part_003) and [RoutesProps]: every handler as an [async]
      computation on the store, dispatched by [handle] behind
      [authenticateToken]; the permission checks, login and registration.
    - [Server]: the event loop as a step relation on the store, the
      suspended requests and the answers sent (new request, resumption of
      any suspended one, time passing); [Races]: schedules of it.
    - [Editor] (document-editor.tsx: the form and the requests built
      from it), [Pages] (search.tsx, qa.tsx, App.tsx), [Dashboard]
      (part_001: filters, sort orders, statistics, [handleDelete], and the
      card's [canEdit] and date of part_002), [Components] (part_002: the
      Sidebar's initials, active link and activity feed; the
      VersionHistoryModal's rows read from the JSON the versions route
      sends; the DocumentCard's view and its AI requests), [EditorPage]
      (document-editor.tsx as a step relation [editor_step] over the form,
      the two generating flags, the three mutations in flight, the
      location and the toasts: one rule per handler or [onSuccess]/
      [onError]/[onSettled], guarded by the buttons' [disabled]).

    ** What the theorems show

    - The store: every reachable state keeps the invariant; each method's
      result and effect on every branch, errors included
      ([StorageProps]); the [async] methods, run alone, compute the
      sequential ones (the [*_refines] lemmas, used by the routes).
    - The server under concurrency: the invariant holds under every
      interleaving ([server_versions_contiguous]); concrete schedules
      exhibit the races the code allows ([Races]: duplicate e-mails, an
      activity for a deleted document, a 200 with an empty body), and the
      last two are reproduced in Node's own first-in first-out order
      ([fifo_step]: requests delivered by one callback, then the
      microtask queue from its head), which [fifo_reachable_sreachable]
      shows to be one of the interleavings.  In that order a GET and a PUT
      of one document do not tear the read ([fifo_get_consistent]).
      Termination is not a theorem: a computation of [Async] is a finite
      tree of resumptions, so every handler ends by construction.
    - The API: permissions, login on every path, registration followed
      by login, tokens accepted exactly while valid.
    - The AI service: the ranking, the off-by-one between the prompt's
      labels and the indices [rank] reads back ([semantic_labels_shifted]:
      a model answering with the label it was shown gets the next
      document), the crash of the results page on
      an index outside the list.
    - The client against the server: the editor's tags survive a save and
      a reload, its bodies pass the server's schemas, its AI, search and
      question requests never meet the server's 400 guards, the card's
      [canEdit] is the server's permission test, the dashboard's default
      order is the server's; a confirmed delete from the dashboard
      removes the document from the list ([dashboard_delete]); the Q&A
      chat's and the editor page's invariants by rule induction
      ([chat_invariant], [editor_invariant]: a spinner is on exactly while
      its request is in flight) and no spinner stays on
      ([editor_settles]).
    - Client defects: the version modal names every author "Unknown"
      ([version_modal_unknown_author]: it reads [createdBy.name] of a
      string id); the card's AI buttons meet the 400 the editor's guard
      avoids ([card_ai_requests]); a save submitted during tag generation
      loses the tags ([save_before_tags]).

    ** Bounds, fuel and representation

    Fuel appears in [drain], over which [refines] and [runs] quantify,
    and in [drain_queue], which computes the concrete FIFO runs of
    Races.v: 100 resumptions per turn, far more than the handlers there
    await, and [fifo_run] refuses a turn that would start before the
    queue is empty, so a too small bound shows as a failed evaluation,
    not as a wrong state.
    Timestamps are milliseconds in [Z] and versions are [Z]: a JavaScript
    number holds them exactly below 2^53, which a version counter and a
    clock in milliseconds do not reach, so no wrap-around is modelled.
    Strings are lists of 8-bit characters: [toLowerCase] and [trim] are
    exact on code units below 256, which covers every string the
    theorems use; [toUpperCase] (for initials) maps Latin-1 lower case to
    upper case and ß to SS, and leaves µ and ÿ, whose capitals lie outside
    Latin-1.  Identifiers are [N] (fresh numbers in place of UUIDs).
    The editor page lets the document query resolve at any time while
    the page is shown (a refetch), which covers every query
    configuration; [confirm()] is its boolean answer.

    ** Not modelled

    Rendering (JSX, toasts), the cryptography of jsonwebtoken and bcrypt
    (only their contracts), the generative model itself (an oracle), the
    HTTP layer below Express's parsed request, [highlightText]'s regular
    expressions, the support page (part_000: static contact text, no
    state) and the [useUser] hook (a query of [GET /api/auth/me], no
    logic), [apiRequest] and the query client (outside src/: a request
    answer is taken as success or failure with any message), the
    modal's open/close and the card's own generating flags, and
    [localeCompare] (a parameter). *)

From stdpp Require Export base list decidable option numbers sorting.

Declare Scope kh_scope.
Delimit Scope kh_scope with kh.
Open Scope kh_scope.

(** JavaScript's strict (in)equality on values with decidable equality. *)
Notation "x === y" := (bool_decide (x = y)) (at level 70, no associativity) : kh_scope.
Notation "x !== y" := (negb (bool_decide (x = y))) (at level 70, no associativity) : kh_scope.

(** ** Optional nullable properties

    A property of a TypeScript object typed [T | null] and marked optional
    can be absent ([undefined]), [null], or hold a value. *)
Inductive Field (A : Type) : Type :=
  | Absent
  | Null
  | Val (a : A).
Arguments Absent {A}.
Arguments Null {A}.
Arguments Val {A} a.

(** [x || null] on a nullable field: both [undefined] and [null] give
    [null]; a present value is kept when [truthy] says so. *)
Definition or_null {A} (truthy : A -> bool) (f : Field A) : option A :=
  match f with
  | Val a => if truthy a then Some a else None
  | _ => None
  end.

(** ** A state monad

    Stateful methods are functions from the state to a result and the new
    state; stdpp's [MRet]/[MBind] give them the notation [x ← m; k]. *)
Definition ST (S A : Type) : Type := S -> A * S.

#[export] Instance ST_ret {S} : MRet (ST S) := fun A a s => (a, s).
#[export] Instance ST_bind {S} : MBind (ST S) :=
  fun A B k m s => let '(a, s') := m s in k a s'.

Definition st_get {S} : ST S S := fun s => (s, s).
Definition st_put {S} (s : S) : ST S unit := fun _ => (tt, s).
Definition st_modify {S} (f : S -> S) : ST S unit := fun s => (tt, f s).

(** Running [m] and keeping the result or the final state. *)
Definition eval_st {S A} (m : ST S A) (s : S) : A := fst (m s).
Definition exec_st {S A} (m : ST S A) (s : S) : S := snd (m s).

Lemma st_bind_run {S A B} (m : ST S A) (k : A -> ST S B) (s : S) :
  (x ← m; k x) s = k (fst (m s)) (snd (m s)).
Proof. unfold mbind, ST_bind. by destruct (m s). Qed.

Lemma st_ret_run {S A} (a : A) (s : S) : (mret a : ST S A) s = (a, s).
Proof. reflexivity. Qed.

(** ** Tactics and hints *)
Create HintDb khub discriminated.

Ltac invc H := inversion H; subst; clear H.

(** Unfold one run of the state monad. *)
Ltac st_run := repeat (first [rewrite st_bind_run | rewrite st_ret_run]); cbn [fst snd].

(** ** Generic list lemmas *)
Section lists.
Context {A : Type}.

Lemma filter_none (P : A -> Prop) `{!forall x, Decision (P x)} (l : list A) :
  Forall (fun x => ~ P x) l -> filter P l = [].
Proof. induction 1; [done|]. rewrite filter_cons_False; auto. Qed.

Lemma filter_all (P : A -> Prop) `{!forall x, Decision (P x)} (l : list A) :
  Forall P l -> filter P l = l.
Proof. induction 1; [done|]. rewrite filter_cons_True; auto with f_equal. Qed.

Lemma filter_ext_elem (P1 P2 : A -> Prop) `{!forall x, Decision (P1 x)}
    `{!forall x, Decision (P2 x)} (l : list A) :
  (forall x, x ∈ l -> P1 x <-> P2 x) -> filter P1 l = filter P2 l.
Proof.
  induction l as [|x l IH]; intros Hext; [done|]. rewrite !filter_cons.
  rewrite IH by (intros; apply Hext; by right).
  assert (Hx : P1 x <-> P2 x) by (apply Hext; by left).
  do 2 case_decide; [done|tauto..|done].
Qed.

Lemma Forall_filter_l (P Q : A -> Prop) `{!forall x, Decision (Q x)} (l : list A) :
  Forall P l -> Forall P (filter Q l).
Proof. rewrite !list.Forall_forall. intros HP x [_ Hx]%list_elem_of_filter. by apply HP. Qed.

Lemma length_omap_le {B} (f : A -> option B) (l : list A) : length (omap f l) <= length l.
Proof. induction l as [|x l IH]; [done|]. cbn. destruct (f x); cbn; lia. Qed.

Lemma elem_of_take_l (x : A) (l : list A) n : x ∈ take n l -> x ∈ l.
Proof. intros H. rewrite <- (take_drop n l). apply elem_of_app. by left. Qed.
End lists.

(** Keeping a prefix or mapping partially keeps a list sorted. *)
Lemma StronglySorted_take {A} (R : A -> A -> Prop) (l : list A) n :
  StronglySorted R l -> StronglySorted R (take n l).
Proof.
  revert l. induction n as [|n IH]; intros [|x l] Hl; simpl; [constructor..|].
  apply StronglySorted_inv in Hl as [Hl Hx]. constructor; [by apply IH|].
  by apply Forall_take.
Qed.

Lemma StronglySorted_omap {A B} (R : A -> A -> Prop) (R' : B -> B -> Prop)
    (f : A -> option B) (g : B -> A) (l : list A) :
  (forall x y, f x = Some y -> g y = x) -> (forall a b, R (g a) (g b) -> R' a b) ->
  StronglySorted R l -> StronglySorted R' (omap f l).
Proof.
  intros Hg HR. induction 1 as [|x l Hl IH Hx]; simpl; [constructor|].
  destruct (f x) as [y|] eqn:Hfx; [|done]. constructor; [done|].
  apply list.Forall_forall. intros z Hz. apply list_elem_of_omap in Hz as (w & Hw & Hfw).
  apply HR. rewrite (Hg _ _ Hfx), (Hg _ _ Hfw). rewrite list.Forall_forall in Hx. by apply Hx.
Qed.

(** [Array.prototype.find] past a prefix with no match. *)
(** JavaScript's [a[i]] read through [nth_error] is stdpp's lookup. *)
Lemma nth_error_lookup {A} (l : list A) i : nth_error l i = l !! i.
Proof. revert i. induction l as [|x l IH]; intros [|i]; simpl; auto. Qed.

(** [mapM] fails exactly when one element fails. *)
Lemma mapM_None_iff {A B} (f : A -> option B) (l : list A) :
  mapM f l = None <-> exists x, x ∈ l /\ f x = None.
Proof.
  induction l as [|x l IH]; simpl.
  - split; [done|]. intros (y & Hy & _). by apply elem_of_nil in Hy.
  - destruct (f x) as [y|] eqn:Ex; simpl.
    + destruct (mapM f l) eqn:El; simpl.
      * split; [done|]. intros (z & [->|Hz]%elem_of_cons & Hf); [congruence|].
        assert (Some l0 = None) by (apply IH; by exists z). congruence.
      * split; [|done]. intros _. destruct IH as [IH _]. destruct IH as (z & ? & ?); [done|].
        exists z. split; [by apply elem_of_cons; right|done].
    + split; [|done]. intros _. exists x. split; [apply elem_of_cons; by left|done].
Qed.

Lemma find_app_none {A} (p : A -> bool) l l' :
  List.find p l = None -> List.find p (l ++ l') = List.find p l'.
Proof. induction l as [|x l IH]; simpl; [done|]. by destruct (p x). Qed.

(** The contiguous numbering [1, ..., n] grows by one at the end. *)
Lemma seqZ_snoc (n : Z) : (1 <= n)%Z -> seqZ 1 n = seqZ 1 (n - 1) ++ [n].
Proof.
  intros Hn. rewrite <- (Z.sub_add 1 n) at 1. rewrite seqZ_app by lia.
  rewrite (seqZ_cons (1 + (n - 1)) 1), (seqZ_nil _ (Z.pred 1)) by lia. do 2 f_equal. lia.
Qed.
