(* ===== verification/Async.v ===== *)
(** * [async] functions and their [await]s

    An [async] function of the server runs synchronously up to its first
    [await], then gives the event loop back; the rest of it runs later,
    after any number of other requests' pieces.  [Async S A] is such a
    function on a shared state [S]: run on the current state it either
    finishes ([Done a s]) or stops at an [await] ([Paused s k]) with the
    state [s] it leaves and the continuation [k] that runs, on whatever
    state it then finds, the code after the [await].

    - [lift m] is synchronous code (a state-monad computation);
    - [yield] is the suspension of one [await];
    - [await m] runs the [async] call [m] and suspends once more, as
      [await f()] does after [f]'s promise resolves.

    [drain n r] runs a paused computation to its end with nothing in
    between (at most [n] resumptions), and [refines m f] says that [m] run
    alone computes the sequential [f].  [safe P r] says that every piece
    of [r] leaves a state satisfying [P] and that every later piece, run
    in any state satisfying [P], does too: the invariant that survives
    every interleaving. *)

From S2P Require Import Spec2Rocq.

Section async.
Context {S : Type}.

Inductive Res (A : Type) : Type :=
  | Done (a : A) (s : S)
  | Paused (s : S) (k : S -> Res A).
Arguments Done {A}. Arguments Paused {A}.

Definition Async (A : Type) : Type := S -> Res A.

Fixpoint bindR {A B} (r : Res A) (f : A -> Async B) : Res B :=
  match r with
  | Done a s => f a s
  | Paused s k => Paused s (fun s' => bindR (k s') f)
  end.

#[export] Instance Async_ret : MRet Async := fun A a s => Done a s.
#[export] Instance Async_bind : MBind Async := fun A B f m s => bindR (m s) f.

(** Synchronous code. *)
Definition lift {A} (m : ST S A) : Async A := fun s => let '(a, s') := m s in Done a s'.

(** One suspension: the rest runs in a later turn of the event loop. *)
Definition yield : Async unit := fun s => Paused s (fun s' => Done tt s').

(** [await m]: the call [m], then the suspension of its [await]. *)
Definition await {A} (m : Async A) : Async A := x ← m; yield;; mret x.

(** Running to completion with no other request in between. *)
Fixpoint drain {A} (n : nat) (r : Res A) {struct r} : option (A * S) :=
  match r with
  | Done a s => Some (a, s)
  | Paused s k => match n with O => None | Datatypes.S n' => drain n' (k s) end
  end.

Definition refines {A} (m : Async A) (f : ST S A) : Prop :=
  forall s, exists n, drain n (m s) = Some (f s).

Inductive safe {A} (P : S -> Prop) : Res A -> Prop :=
  | safe_done a s : P s -> safe P (Done a s)
  | safe_paused s k : P s -> (forall s', P s' -> safe P (k s')) -> safe P (Paused s k).

(** [m] started in a state satisfying [P] is safe. *)
Definition preserves {A} (P : S -> Prop) (m : Async A) : Prop :=
  forall s, P s -> safe P (m s).

Lemma drain_mono {A} n n' (r : Res A) x : drain n r = Some x -> n <= n' -> drain n' r = Some x.
Proof.
  revert n n'. induction r as [a s|s k IH]; intros n n' Hd Hle; [by simpl in *|].
  destruct n as [|n]; [done|]. destruct n' as [|n']; [lia|]. simpl in *.
  eapply IH; [done|lia].
Qed.

Lemma drain_bindR {A B} n n' (r : Res A) (f : A -> Async B) a s y :
  drain n r = Some (a, s) -> drain n' (f a s) = Some y -> drain (n + n') (bindR r f) = Some y.
Proof.
  revert n. induction r as [a' s'|s' k IH]; intros n Hr Hf; simpl in *.
  - injection Hr as <- <-. eapply drain_mono; [done|lia].
  - destruct n as [|n]; [done|]. simpl. by eapply IH.
Qed.

Lemma refines_ret {A} (a : A) : refines (mret a) (mret a).
Proof. intros s. by exists 0. Qed.

Lemma refines_lift {A} (m : ST S A) : refines (lift m) m.
Proof. intros s. exists 0. unfold lift. by destruct (m s). Qed.

Lemma refines_bind {A B} (m : Async A) (f : A -> Async B) (m' : ST S A) (f' : A -> ST S B) :
  refines m m' -> (forall a, refines (f a) (f' a)) -> refines (m ≫= f) (m' ≫= f').
Proof.
  intros Hm Hf s. destruct (Hm s) as [n Hn]. unfold mbind, ST_bind.
  destruct (m' s) as [a s'] eqn:E. destruct (Hf a s') as [n' Hn'].
  exists (n + n'). by eapply drain_bindR.
Qed.

Lemma refines_yield : refines yield (mret tt).
Proof. intros s. by exists 1. Qed.

Lemma refines_await {A} (m : Async A) (m' : ST S A) : refines m m' -> refines (await m) m'.
Proof.
  intros Hm s. destruct (Hm s) as [n Hn]. exists (n + 1).
  destruct (m' s) as [a s'] eqn:E. by eapply drain_bindR.
Qed.

(** [m] started in [s], with nothing in between, returns [a] in [s']. *)
Definition runs {A} (m : Async A) (s : S) (a : A) (s' : S) : Prop :=
  exists n, drain n (m s) = Some (a, s').

Lemma runs_ret {A} (a : A) s : runs (mret a) s a s.
Proof. by exists 0. Qed.

Lemma runs_bind {A B} (m : Async A) (k : A -> Async B) s a s1 b s2 :
  runs m s a s1 -> runs (k a) s1 b s2 -> runs (m ≫= k) s b s2.
Proof. intros [n Hn] [n' Hn']. exists (n + n'). by eapply drain_bindR. Qed.

Lemma runs_refines {A} (m : Async A) (f : ST S A) s :
  refines m f -> runs m s (f s).1 (f s).2.
Proof. intros Hm. destruct (Hm s) as [n Hn]. exists n. by destruct (f s). Qed.

Lemma runs_yield s : runs yield s tt s.
Proof. by exists 1. Qed.

Lemma runs_await {A} (m : Async A) s a s' : runs m s a s' -> runs (await m) s a s'.
Proof.
  intros Hm. eapply runs_bind; [done|]. eapply runs_bind; [apply runs_yield|apply runs_ret].
Qed.

Lemma runs_lift {A} (m : ST S A) s : runs (lift m) s (m s).1 (m s).2.
Proof. apply runs_refines, refines_lift. Qed.

Lemma safe_bindR {A B} (P : S -> Prop) (r : Res A) (f : A -> Async B) :
  safe P r -> (forall a s, P s -> safe P (f a s)) -> safe P (bindR r f).
Proof. induction 1 as [a s Hs|s k Hs _ IH]; intros Hf; simpl; [auto|]. constructor; auto. Qed.

(** A safe computation started in a state satisfying [P] finishes when
    nothing runs in between. *)
Lemma safe_drain {A} (P : S -> Prop) (r : Res A) :
  safe P r -> exists n a s, drain n r = Some (a, s).
Proof.
  induction 1 as [a s _|s k Hs _ IH]; [by exists 0, a, s|].
  destruct (IH s Hs) as (n & a & s' & Hn). by exists (Datatypes.S n), a, s'.
Qed.

Lemma preserves_ret {A} P (a : A) : preserves P (mret a).
Proof. intros s Hs. by constructor. Qed.

Lemma preserves_bind {A B} P (m : Async A) (f : A -> Async B) :
  preserves P m -> (forall a, preserves P (f a)) -> preserves P (m ≫= f).
Proof. intros Hm Hf s Hs. apply safe_bindR; [by apply Hm|]. intros a s'. apply Hf. Qed.

Lemma preserves_lift {A} P (m : ST S A) : (forall s, P s -> P (exec_st m s)) -> preserves P (lift m).
Proof.
  intros Hm s Hs. unfold lift. specialize (Hm s Hs). unfold exec_st in Hm.
  destruct (m s). by constructor.
Qed.

Lemma preserves_yield P : preserves P yield.
Proof. intros s Hs. constructor; [done|]. intros s' Hs'. by constructor. Qed.

Lemma preserves_await {A} P (m : Async A) : preserves P m -> preserves P (await m).
Proof.
  intros Hm. apply preserves_bind; [done|]. intros a.
  apply preserves_bind; [apply preserves_yield|]. intros _. apply preserves_ret.
Qed.
(** Every answer [r] gives, whatever the states its pieces resume in,
    satisfies [Q]. *)
Inductive yields {A} (Q : A -> Prop) : Res A -> Prop :=
  | yields_done a s : Q a -> yields Q (Done a s)
  | yields_paused s k : (forall s', yields Q (k s')) -> yields Q (Paused s k).

Definition answers {A} (Q : A -> Prop) (m : Async A) : Prop := forall s, yields Q (m s).

Lemma yields_any {A} (r : Res A) : yields (fun _ => True) r.
Proof. induction r; by constructor. Qed.

Lemma answers_any {A} (m : Async A) : answers (fun _ => True) m.
Proof. intros s. apply yields_any. Qed.

Lemma yields_bindR {A B} (P : A -> Prop) (Q : B -> Prop) (r : Res A) (f : A -> Async B) :
  yields P r -> (forall a, P a -> answers Q (f a)) -> yields Q (bindR r f).
Proof. induction 1; intros Hf; simpl; [by apply Hf|]. constructor; auto. Qed.

Lemma answers_bind {A B} (P : A -> Prop) (Q : B -> Prop) (m : Async A) (f : A -> Async B) :
  answers P m -> (forall a, P a -> answers Q (f a)) -> answers Q (m ≫= f).
Proof. intros Hm Hf s. by apply (yields_bindR P). Qed.

Lemma answers_ret {A} (Q : A -> Prop) a : Q a -> answers Q (mret a).
Proof. intros Ha s. by constructor. Qed.

Lemma answers_await {A} (Q : A -> Prop) (m : Async A) : answers Q m -> answers Q (await m).
Proof.
  intros Hm. apply (answers_bind Q); [done|]. intros a Ha.
  apply (answers_bind (fun _ => True)); [apply answers_any|]. intros _ _. by apply answers_ret.
Qed.

(** What [yields] promises of a run that finishes. *)
Lemma yields_drain {A} (Q : A -> Prop) n (r : Res A) a s :
  yields Q r -> drain n r = Some (a, s) -> Q a.
Proof.
  intros Hr. revert n. induction Hr as [a' s' Ha|s' k _ IH]; intros n; simpl.
  - by intros [= <- _].
  - destruct n as [|n]; [done|]. apply IH.
Qed.
End async.

Arguments Res : clear implicits.
Arguments Async : clear implicits.
Arguments Done {S A}. Arguments Paused {S A}.

#[export] Hint Resolve preserves_ret preserves_yield preserves_await : khub.
