(* ===== verification/JsMap.v ===== *)
(** * The JavaScript [Map] used by [MemStorage]

    [MemStorage] (src/unnamed/part_004) keeps its four tables in
    JavaScript [Map]s.  A [Map] remembers the order in which keys were
    first inserted: [set] on a present key replaces the value in place,
    [set] on a new key appends, [delete] removes the entry, and
    [values()] / [entries()] iterate in insertion order.  That order is
    observable here, because [getDocuments], [getDocumentVersions] and
    [getRecentActivities] sort with a stable sort whose ties keep it.

    The model is an association list with at most one entry per key
    ([NoDup (keys m)], preserved by every operation).  The file proves the
    finite-map laws ([get] after [set] and [delete]) and that the
    snapshot-and-delete loop of [deleteDocument] removes exactly the
    entries its test selects. *)

From S2P Require Import Spec2Rocq.

Module Map.
Section map.
Context {K V : Type} `{EqDecision K}.

Definition empty : list (K * V) := [].

(** [m.get(k)] *)
Fixpoint get (k : K) (m : list (K * V)) : option V :=
  match m with
  | [] => None
  | (k', v) :: m' => if decide (k = k') then Some v else get k m'
  end.

(** [m.has(k)] *)
Definition has (k : K) (m : list (K * V)) : bool := bool_decide (is_Some (get k m)).

(** [m.set(k, v)]: in place when [k] is present, appended otherwise. *)
Fixpoint set (k : K) (v : V) (m : list (K * V)) : list (K * V) :=
  match m with
  | [] => [(k, v)]
  | (k', v') :: m' =>
      if decide (k = k') then (k, v) :: m' else (k', v') :: set k v m'
  end.

(** [m.delete(k)] *)
Definition delete (k : K) (m : list (K * V)) : list (K * V) := filter (fun e => e.1 <> k) m.

Definition keys (m : list (K * V)) : list K := fst <$> m.
Definition values (m : list (K * V)) : list V := snd <$> m.

(** The loop of [deleteDocument]:
    [for (const [k, v] of Array.from(m.entries())) if (p(v)) m.delete(k);]
    It iterates over a snapshot of the entries and deletes from the
    live map. *)
Definition delete_where (p : V -> bool) (m : list (K * V)) : list (K * V) :=
  fold_left (fun acc (e : K * V) => if p e.2 then delete e.1 acc else acc) m m.

(** Well-formedness: one entry per key. *)
Definition wf (m : list (K * V)) : Prop := NoDup (keys m).

(** ** The finite-map laws *)

Lemma get_empty k : get k empty = None.
Proof. reflexivity. Qed.

Lemma get_set_eq k v m : get k (set k v m) = Some v.
Proof.
  induction m as [|[k' v'] m IH]; simpl; [by rewrite decide_True|].
  case_decide as Hk; simpl; [by rewrite decide_True|].
  by rewrite decide_False.
Qed.

Lemma get_set_ne k k' v m : k <> k' -> get k' (set k v m) = get k' m.
Proof.
  intros Hne. induction m as [|[k0 v0] m IH]; simpl.
  - by rewrite decide_False.
  - case_decide; subst; simpl.
    + rewrite !decide_False by congruence. done.
    + by case_decide.
Qed.

Lemma get_delete_eq k m : get k (delete k m) = None.
Proof.
  induction m as [|[k' v'] m IH]; [done|]. unfold delete in *.
  rewrite filter_cons. simpl. case_decide as Hk; [|done]. simpl.
  by rewrite decide_False.
Qed.

Lemma get_delete_ne k k' m : k <> k' -> get k' (delete k m) = get k' m.
Proof.
  intros Hne. induction m as [|[k0 v0] m IH]; [done|]. unfold delete in *.
  rewrite filter_cons. simpl. case_decide as Hk; simpl; case_decide; subst; done.
Qed.

Lemma get_Some_In k v m : get k m = Some v -> (k, v) ∈ m.
Proof.
  induction m as [|[k' v'] m IH]; simpl; [done|].
  case_decide; [intros [= ->]; subst; left|]. intros; right; auto.
Qed.

Lemma In_get_Some k v m : wf m -> (k, v) ∈ m -> get k m = Some v.
Proof.
  unfold wf, keys. induction m as [|[k' v'] m IH]; simpl; [by intros _ ?%elem_of_nil|].
  intros [Hk Hnd]%list.NoDup_cons Hin. apply elem_of_cons in Hin as [[= -> ->]|Hin].
  - by rewrite decide_True.
  - rewrite decide_False; [auto|]. intros <-. apply Hk.
    apply list_elem_of_fmap. by exists (k, v).
Qed.

Lemma get_None_keys k m : get k m = None <-> k ∉ keys m.
Proof.
  unfold keys. induction m as [|[k' v'] m IH]; simpl.
  - split; [intros _; apply not_elem_of_nil|done].
  - rewrite not_elem_of_cons. case_decide; naive_solver.
Qed.

(** ** Keys and values after an update *)

Lemma set_new k v m : get k m = None -> set k v m = m ++ [(k, v)].
Proof.
  induction m as [|[k' v'] m IH]; simpl; [done|].
  case_decide; [done|]. intros H'. by rewrite IH.
Qed.

Lemma keys_set_new k v m : get k m = None -> keys (set k v m) = keys m ++ [k].
Proof. intros H'. unfold keys. by rewrite set_new, fmap_app. Qed.

Lemma values_set_new k v m : get k m = None -> values (set k v m) = values m ++ [v].
Proof. intros H'. unfold values. by rewrite set_new, fmap_app. Qed.

Lemma keys_set_old k v m : is_Some (get k m) -> keys (set k v m) = keys m.
Proof.
  unfold keys. induction m as [|[k' v'] m IH]; simpl; [by intros []|].
  case_decide; subst; [done|]. intros H'. rewrite !fmap_cons. simpl. by rewrite IH.
Qed.

Lemma set_wf k v m : wf m -> wf (set k v m).
Proof.
  unfold wf. intros Hnd. destruct (get k m) eqn:E.
  - rewrite keys_set_old; [done|by eexists].
  - rewrite keys_set_new by done. apply list.NoDup_app. split_and!; [done| |by apply NoDup_singleton].
    intros x Hx ->%list_elem_of_singleton. by apply get_None_keys in E.
Qed.

Lemma keys_delete k m : keys (delete k m) = filter (fun k' => k' <> k) (keys m).
Proof.
  unfold keys, delete. induction m as [|[k' v'] m IH]; [done|].
  rewrite fmap_cons, !filter_cons. cbn [fst].
  case_decide; [rewrite fmap_cons, IH|]; done.
Qed.

Lemma delete_wf k m : wf m -> wf (delete k m).
Proof. unfold wf. rewrite keys_delete. apply list.NoDup_filter. Qed.

Lemma delete_absent k m : get k m = None -> delete k m = m.
Proof.
  intros Hk%get_None_keys. apply filter_all, list.Forall_forall.
  intros [k' v'] Hin Heq. simpl in Heq; subst. apply Hk. unfold keys. apply list_elem_of_fmap.
  eexists (_, v'). split; [reflexivity|]. done.
Qed.

Lemma values_filter (P : V -> Prop) `{!forall v, Decision (P v)} m :
  values (filter (fun e => P e.2) m) = filter P (values m).
Proof.
  unfold values. induction m as [|[k v] m IH]; [done|].
  rewrite fmap_cons, !filter_cons. cbn [snd]. case_decide; [rewrite fmap_cons|]; by rewrite IH.
Qed.

Lemma keys_filter_sub (P : K * V -> Prop) `{!forall e, Decision (P e)} m k :
  k ∈ keys (filter P m) -> k ∈ keys m.
Proof.
  unfold keys. rewrite !list_elem_of_fmap. intros (e & -> & He).
  apply list_elem_of_filter in He as [_ He]. by exists e.
Qed.

Lemma keys_set_sub k v m k' : k' ∈ keys (set k v m) -> k' = k \/ k' ∈ keys m.
Proof.
  destruct (get k m) eqn:E.
  - rewrite keys_set_old by (by eexists). by right.
  - rewrite keys_set_new by done. rewrite elem_of_app, list_elem_of_singleton. tauto.
Qed.

Lemma get_set k k' v m : get k' (set k v m) = if decide (k' = k) then Some v else get k' m.
Proof. case_decide; subst; [apply get_set_eq|apply get_set_ne; congruence]. Qed.

Lemma get_delete k k' m : get k' (delete k m) = if decide (k' = k) then None else get k' m.
Proof. case_decide; subst; [apply get_delete_eq|apply get_delete_ne; congruence]. Qed.

Lemma get_Some_values k v m : get k m = Some v -> v ∈ values m.
Proof.
  intros ?%get_Some_In. unfold values. apply list_elem_of_fmap. by exists (k, v).
Qed.

(** ** The snapshot-and-delete loop *)

(** Deleting along any snapshot [l]: an entry survives when no entry of
    the snapshot with its key is selected. *)
Lemma delete_along (p : V -> bool) (l : list (K * V)) (m : list (K * V)) :
  fold_left (fun acc (e : K * V) => if p e.2 then delete e.1 acc else acc) l m =
  filter (fun e => Forall (fun e' => e'.1 = e.1 -> p e'.2 = false) l) m.
Proof.
  revert m. induction l as [|[k' v'] l IH]; intros m; simpl.
  - symmetry. apply filter_all, list.Forall_forall. intros. constructor.
  - rewrite IH. destruct (p v') eqn:Hp; unfold delete; [rewrite list_filter_filter|];
      apply list_filter_iff; intros [k v]; rewrite Forall_cons_iff; cbn [fst snd].
    + split.
      * intros [H1 H2]. split; [intros ->; congruence|done].
      * intros [H1 H2]. split; [done|]. intros ->. rewrite H1 in Hp by done. discriminate.
    + split; [intros H; split; [intros _; done|done]|intros [_ H]; done].
Qed.

Theorem delete_where_filter (p : V -> bool) (m : list (K * V)) :
  wf m -> delete_where p m = filter (fun e => p e.2 = false) m.
Proof.
  intros Hwf. unfold delete_where. rewrite delete_along.
  apply filter_ext_elem. intros [k v] Hin. rewrite list.Forall_forall. split.
  - intros Hall. by apply (Hall (k, v)).
  - intros Hp [k' v'] Hin' Heq. simpl in *. subst.
    apply (In_get_Some _ _ _ Hwf) in Hin, Hin'. congruence.
Qed.

Lemma values_delete_where (p : V -> bool) m :
  wf m -> values (delete_where p m) = filter (fun v => p v = false) (values m).
Proof.
  intros Hwf. rewrite delete_where_filter by done. clear Hwf. unfold values.
  induction m as [|[k v] m IH]; [done|].
  rewrite fmap_cons, !filter_cons. cbn [snd]. case_decide; [rewrite fmap_cons|]; by rewrite IH.
Qed.

Lemma delete_where_wf p m : wf m -> wf (delete_where p m).
Proof.
  intros Hwf. rewrite delete_where_filter by done. unfold wf, keys in *.
  revert Hwf. induction m as [|[k v] m IH]; [done|]. rewrite filter_cons. simpl.
  intros [Hk Hnd]%list.NoDup_cons. case_decide; simpl; [|auto].
  apply list.NoDup_cons; split; [|auto]. intros Hin. apply Hk.
  apply list_elem_of_fmap in Hin as (e & -> & He). apply list_elem_of_fmap.
  exists e. split; [done|]. by apply list_elem_of_filter in He as [_ ?].
Qed.
End map.
End Map.

(** The type of a [Map<K, V>]. *)
Notation jsmap K V := (list (K * V)) (only parsing).
