(* ===== verification/JsString.v ===== *)
(** * The string methods the program calls

    Literal search ([searchDocuments], src/unnamed/part_004 lines 182-192,
    and the fallback of [performSemanticSearch], src/server/services/gemini.ts
    lines 123-129) lower-cases both sides and calls [includes]; the editor
    (src/client/src/pages/document-editor.tsx lines 60-74) prints the tags
    with [join(", ")] and parses them back with [split(",")], [trim] and
    [filter(Boolean)].

    Strings are Stdlib strings whose characters stand for UTF-16 code units
    below 256 (Latin-1).  On that range [toLowerCase] maps 'A'..'Z' and
    the accented capitals 0xC0..0xDE (except 0xD7, the multiplication sign)
    32 code points up, which is what JavaScript does; [trim] removes the
    JavaScript white space and line terminators of that range (tab, LF,
    VT, FF, CR, space, no-break space). *)

From S2P Require Import Spec2Rocq.
From Stdlib Require Import String Ascii.
From stdpp Require Import strings.

(** ** Characters *)

Definition code (c : ascii) : nat := nat_of_ascii c.

(** The capitals that [toLowerCase] changes, on code units below 256. *)
Definition is_upper (c : ascii) : bool :=
  let n := code c in
  ((65 <=? n) && (n <=? 90)) || ((192 <=? n) && (n <=? 222) && negb (n =? 215)).

Definition char_toLower (c : ascii) : ascii :=
  if is_upper c then ascii_of_nat (code c + 32) else c.

(** [WhiteSpace] and [LineTerminator] of ECMAScript below 256. *)
Definition is_ws (c : ascii) : bool :=
  let n := code c in
  (n =? 9) || (n =? 10) || (n =? 11) || (n =? 12) || (n =? 13) || (n =? 32) || (n =? 160).

Local Open Scope string_scope.

(** ** String.prototype methods *)

(** [s.toLowerCase()] *)
Fixpoint toLowerCase (s : string) : string :=
  match s with
  | EmptyString => EmptyString
  | String c s' => String (char_toLower c) (toLowerCase s')
  end.

(** The small letters that [toUpperCase] changes within Latin-1:
    a-z and à-þ but ÷.  Three more have a capital outside Latin-1 or of
    two letters: ß becomes "SS" below; µ and ÿ, whose capitals are
    U+039C and U+0178, cannot be written in this string type and are
    left as they are. *)
Definition is_lower (c : ascii) : bool :=
  let n := code c in
  (((97 <=? n) && (n <=? 122)) || ((224 <=? n) && (n <=? 254) && negb (n =? 247)))%nat.

Definition char_toUpper (c : ascii) : ascii :=
  if is_lower c then ascii_of_nat (code c - 32)%nat else c.

(** [s.toUpperCase()] *)
Fixpoint toUpperCase (s : string) : string :=
  match s with
  | EmptyString => EmptyString
  | String c s' =>
      if (code c =? 223)%nat then String "S"%char (String "S"%char (toUpperCase s'))
      else String (char_toUpper c) (toUpperCase s')
  end.

(** [s.includes(q)]: [q] occurs at some position of [s]. *)
Fixpoint includes (s q : string) : bool :=
  String.prefix q s || match s with EmptyString => false | String _ s' => includes s' q end.

Fixpoint trimStart (s : string) : string :=
  match s with
  | EmptyString => EmptyString
  | String c s' => if is_ws c then trimStart s' else s
  end.

Definition str_rev (s : string) : string :=
  string_of_list_ascii (rev (list_ascii_of_string s)).

Definition trimEnd (s : string) : string := str_rev (trimStart (str_rev s)).

(** [s.trim()] *)
Definition trim (s : string) : string := trimEnd (trimStart s).

(** [s.split(sep)] for a one-character separator. *)
Fixpoint split (sep : ascii) (s : string) : list string :=
  match s with
  | EmptyString => [EmptyString]
  | String c s' =>
      if decide (c = sep) then EmptyString :: split sep s'
      else match split sep s' with
           | x :: xs => String c x :: xs
           | [] => [String c EmptyString]
           end
  end.

(** [arr.join(sep)] *)
Fixpoint join (sep : string) (l : list string) : string :=
  match l with
  | [] => EmptyString
  | [x] => x
  | x :: l' => x ++ sep ++ join sep l'
  end.

(** [Boolean(s)] for a string: only the empty string is falsy. *)
Definition str_truthy (s : string) : bool := negb (s === EmptyString).

(** The character [c] occurs in [s]. *)
Fixpoint has_char (c : ascii) (s : string) : bool :=
  match s with
  | EmptyString => false
  | String c' s' => (c' === c) || has_char c s'
  end.

(** ** Lemmas *)

(** [String.append] does not simplify under stdpp; these are its equations. *)
Lemma str_app_nil s : "" ++ s = s.
Proof. reflexivity. Qed.
Lemma str_app_cons c s1 s2 : String c s1 ++ s2 = String c (s1 ++ s2).
Proof. reflexivity. Qed.

Lemma str_app_nil_r s : s ++ "" = s.
Proof. induction s as [|c s IH]; [done|]. by rewrite str_app_cons, IH. Qed.

Lemma str_app_assoc s1 s2 s3 : s1 ++ (s2 ++ s3) = (s1 ++ s2) ++ s3.
Proof. induction s1 as [|c s1 IH]; [done|]. rewrite !str_app_cons. by rewrite IH. Qed.

Lemma prefix_spec p s : String.prefix p s = true <-> exists b, s = p ++ b.
Proof.
  revert s. induction p as [|c p IH]; intros s; simpl.
  - split; [by exists s|intros _; by destruct s].
  - destruct s as [|c' s]; simpl.
    + split; [by intros|]. by intros [b ?].
    + destruct (ascii_dec c c') as [->|Hne].
      * rewrite IH. split; intros [b Hb]; exists b; [by subst|by injection Hb].
      * split; [by intros|]. intros [b [= ??]]. congruence.
Qed.

Lemma includes_spec s q : includes s q = true <-> exists a b, s = a ++ q ++ b.
Proof.
  induction s as [|c s IH]; cbn [includes].
  - rewrite orb_false_r, prefix_spec. split.
    + intros [b ->]. by exists "", b.
    + intros [a [b Hab]]. destruct a; [|done]. by exists b.
  - rewrite orb_true_iff, prefix_spec, IH. split.
    + intros [[b Hb]|[a [b ->]]]; [by exists "", b|]. by exists (String c a), b.
    + intros [[|c' a] [b Hab]]; simpl in Hab; [left; by exists b|].
      injection Hab as -> ->. right. by exists a, b.
Qed.

Lemma includes_trans s m q : includes s m = true -> includes m q = true -> includes s q = true.
Proof.
  rewrite !includes_spec. intros (a & b & ->) (c & e & ->).
  exists (a ++ c), (e ++ b). by rewrite <- !str_app_assoc.
Qed.

Lemma includes_app_l s t q : includes s q = true -> includes (s ++ t) q = true.
Proof.
  rewrite !includes_spec. intros (a & b & ->). exists a, (b ++ t). by rewrite <- !str_app_assoc.
Qed.

Lemma includes_app_r s t q : includes t q = true -> includes (s ++ t) q = true.
Proof.
  rewrite !includes_spec. intros (a & b & ->). exists (s ++ a), b. by rewrite <- !str_app_assoc.
Qed.

Lemma includes_empty s : includes s "" = true.
Proof. apply includes_spec. by exists "", s. Qed.

Lemma toLowerCase_app s1 s2 : toLowerCase (s1 ++ s2) = toLowerCase s1 ++ toLowerCase s2.
Proof. induction s1 as [|c s1 IH]; [done|]. rewrite str_app_cons. simpl. by rewrite IH. Qed.

Lemma char_toLower_idem c : char_toLower (char_toLower c) = char_toLower c.
Proof. destruct c as [[] [] [] [] [] [] [] []]; reflexivity. Qed.

Lemma toLowerCase_idem s : toLowerCase (toLowerCase s) = toLowerCase s.
Proof. induction s as [|c s IH]; simpl; [done|]. by rewrite char_toLower_idem, IH. Qed.

(** A substring stays a substring after lower-casing both strings. *)
Lemma includes_toLowerCase s q :
  includes s q = true -> includes (toLowerCase s) (toLowerCase q) = true.
Proof.
  rewrite !includes_spec. intros (a & b & ->).
  exists (toLowerCase a), (toLowerCase b). by rewrite !toLowerCase_app.
Qed.

(** [trim] ignores a leading white-space character. *)
Lemma trim_ws_cons c s : is_ws c = true -> trim (String c s) = trim s.
Proof. intros Hc. unfold trim. simpl. by rewrite Hc. Qed.

Lemma join_cons2 sep x y l : join sep (x :: y :: l) = x ++ sep ++ join sep (y :: l).
Proof. reflexivity. Qed.

Lemma has_char_app c s t : has_char c (s ++ t) = has_char c s || has_char c t.
Proof. induction s as [|c' s IH]; [done|]. rewrite str_app_cons. simpl. by rewrite IH, orb_assoc. Qed.

Lemma has_char_join c sep l :
  has_char c sep = false -> Forall (fun t => has_char c t = false) l -> has_char c (join sep l) = false.
Proof.
  intros Hs. induction 1 as [|t l Ht Hl IH]; [done|]. destruct l as [|t' l]; [done|].
  by rewrite join_cons2, !has_char_app, Ht, Hs, IH.
Qed.

Lemma split_nonempty sep s : split sep s <> [].
Proof. induction s as [|c s IH]; simpl; [done|]. case_decide; [done|]. by destruct (split sep s). Qed.

Lemma split_no_sep sep s : has_char sep s = false -> split sep s = [s].
Proof.
  induction s as [|c s IH]; simpl; [done|].
  intros [Hc Hs]%orb_false_iff. rewrite IH by done.
  rewrite decide_False; [done|]. intros ->. by rewrite bool_decide_eq_true_2 in Hc.
Qed.

Lemma split_app_sep sep s t :
  has_char sep s = false -> split sep (s ++ String sep t) = s :: split sep t.
Proof.
  induction s as [|c s IH]; [intros _; simpl; by rewrite decide_True|].
  - rewrite str_app_cons. simpl. intros [Hc Hs]%orb_false_iff. rewrite IH by done.
    rewrite decide_False; [done|]. intros ->. by rewrite bool_decide_eq_true_2 in Hc.
Qed.

(** Splitting a string joined with a separator that starts with the
    split character gives back the pieces, the rest of the separator
    glued in front of every piece but the first. *)
Lemma split_join sep g (l : list string) :
  has_char sep g = false -> Forall (fun t => has_char sep t = false) l -> l <> [] ->
  split sep (join (String sep g) l) =
  match l with [] => [] | t :: ts => t :: map (append g) ts end.
Proof.
  intros Hg Hl. induction Hl as [|t l Ht Hl IH]; intros Hne; [done|].
  destruct l as [|t' l].
  - by apply split_no_sep.
  - rewrite join_cons2, str_app_cons, split_app_sep by done. f_equal.
    assert (Hga : forall s, has_char sep g = false ->
              split sep (g ++ s) = match split sep s with
                                   | x :: xs => (g ++ x) :: xs | [] => [g] end).
    { clear. intros s. induction g as [|c g IHg].
      - rewrite str_app_nil. pose proof (split_nonempty sep s). by destruct (split sep s).
      - rewrite str_app_cons. simpl. intros [Hc Hg]%orb_false_iff. rewrite IHg by done.
        rewrite decide_False; [by destruct (split sep s)|].
        intros ->. by rewrite bool_decide_eq_true_2 in Hc. }
    rewrite Hga, IH by done. done.
Qed.

(** ** [trim] is idempotent *)

Lemma string_of_list_ascii_app (a b : list ascii) :
  string_of_list_ascii (a ++ b)%list = string_of_list_ascii a ++ string_of_list_ascii b.
Proof. induction a as [|c a IH]; [done|]. simpl. by rewrite IH. Qed.

Lemma str_rev_involutive s : str_rev (str_rev s) = s.
Proof.
  unfold str_rev. by rewrite list_ascii_of_string_of_list_ascii, rev_involutive,
    string_of_list_ascii_of_string.
Qed.

Lemma str_rev_cons c s : str_rev (String c s) = str_rev s ++ String c EmptyString.
Proof.
  unfold str_rev. simpl. by rewrite string_of_list_ascii_app.
Qed.

Lemma str_rev_snoc s c : str_rev (s ++ String c EmptyString) = String c (str_rev s).
Proof.
  rewrite <- (str_rev_involutive (String c (str_rev s))), str_rev_cons, str_rev_involutive.
  done.
Qed.

(** [s] does not start with white space. *)
Definition starts_ok (s : string) : bool :=
  match s with EmptyString => true | String c _ => negb (is_ws c) end.

Lemma trimStart_starts_ok s : starts_ok (trimStart s) = true.
Proof. induction s as [|c s IH]; [done|]. simpl. destruct (is_ws c) eqn:E; simpl; [done|]. by rewrite E. Qed.

Lemma trimStart_ok s : starts_ok s = true -> trimStart s = s.
Proof. destruct s as [|c s]; [done|]. simpl. by destruct (is_ws c). Qed.

Lemma trimStart_snoc t c :
  is_ws c = false -> exists m, trimStart (t ++ String c EmptyString) = m ++ String c EmptyString.
Proof.
  intros Hc. induction t as [|d t IH]; [exists ""; simpl; by rewrite Hc|].
  rewrite str_app_cons. simpl. destruct (is_ws d); [done|]. by exists (String d t).
Qed.

Lemma trimEnd_starts_ok s : starts_ok s = true -> starts_ok (trimEnd s) = true.
Proof.
  destruct s as [|c s]; [done|]. simpl. intros Hc%negb_true_iff.
  unfold trimEnd. rewrite str_rev_cons. destruct (trimStart_snoc (str_rev s) c Hc) as [m ->].
  rewrite str_rev_snoc. simpl. by rewrite Hc.
Qed.

Lemma trim_idem s : trim (trim s) = trim s.
Proof.
  unfold trim. rewrite (trimStart_ok (trimEnd _)) by apply trimEnd_starts_ok, trimStart_starts_ok.
  unfold trimEnd. rewrite str_rev_involutive, (trimStart_ok (trimStart _)) by apply trimStart_starts_ok.
  done.
Qed.
