(* ===== verification/JsSort.v ===== *)
(** * [Array.prototype.sort] with a numeric comparator

    The store sorts three times, always with a comparator of the form
    [(a, b) => key(b) - key(a)] (newest or highest first):
    [getDocuments] by [updatedAt] (src/unnamed/part_004 line 70),
    [getDocumentVersions] by [version] (line 197) and
    [getRecentActivities] by [createdAt] (line 217).

    Since ES2019 [sort] is stable: elements the comparator calls equal keep
    their order.  For a comparator that is a consistent total preorder, as
    these are, every stable sort returns the same list, so the model is the
    stable insertion sort [sort]: [x] is inserted before the first [y] with
    [cmp x y <= 0].  The file proves that [sort] permutes its input, that
    with [desc_by key] the result is sorted by decreasing key, that it is
    stable, and that a list of strictly increasing keys comes out reversed. *)

From S2P Require Import Spec2Rocq.
From stdpp Require Import sorting.

Section sort.
Context {A : Type}.
Implicit Types (cmp : A -> A -> Z) (l : list A).

Fixpoint insert_by cmp (x : A) l : list A :=
  match l with
  | [] => [x]
  | y :: l' => if Z.leb (cmp x y) 0 then x :: y :: l' else y :: insert_by cmp x l'
  end.

(** [arr.sort(cmp)] *)
Fixpoint sort cmp l : list A :=
  match l with
  | [] => []
  | x :: l' => insert_by cmp x (sort cmp l')
  end.

(** The comparator [(a, b) => key(b) - key(a)]. *)
Definition desc_by (key : A -> Z) (a b : A) : Z := (key b - key a)%Z.

(** [insert_by] passes over the elements that must precede [x]. *)
Lemma insert_by_split cmp x l :
  exists l1 l2, l = l1 ++ l2 /\ insert_by cmp x l = l1 ++ x :: l2 /\
                Forall (fun y => (0 < cmp x y)%Z) l1.
Proof.
  induction l as [|y l (l1 & l2 & -> & Hins & Hl1)]; simpl.
  - by exists [], [].
  - destruct (Z.leb_spec (cmp x y) 0).
    + by exists [], (y :: l1 ++ l2).
    + exists (y :: l1), l2. rewrite Hins. split_and!; [done|done|]. by constructor.
Qed.

Lemma insert_by_perm cmp x l : insert_by cmp x l ≡ₚ x :: l.
Proof.
  destruct (insert_by_split cmp x l) as (l1 & l2 & -> & -> & _).
  by rewrite Permutation_middle.
Qed.

Lemma sort_perm cmp l : sort cmp l ≡ₚ l.
Proof. induction l as [|x l IH]; simpl; [done|]. by rewrite insert_by_perm, IH. Qed.

Lemma elem_of_sort cmp x l : x ∈ sort cmp l <-> x ∈ l.
Proof. by rewrite sort_perm. Qed.

Lemma length_sort cmp l : length (sort cmp l) = length l.
Proof. by rewrite sort_perm. Qed.

(** Inserting after every element that compares less. *)
Lemma insert_by_end cmp x l : Forall (fun y => (0 < cmp x y)%Z) l -> insert_by cmp x l = l ++ [x].
Proof.
  induction 1 as [|y l Hy Hl IH]; simpl; [done|].
  destruct (Z.leb_spec (cmp x y) 0); [lia|]. by rewrite IH.
Qed.

Section key.
Context (key : A -> Z).

Lemma insert_by_sorted x l :
  Sorted (fun a b => (key b <= key a)%Z) l ->
  Sorted (fun a b => (key b <= key a)%Z) (insert_by (desc_by key) x l).
Proof.
  unfold desc_by. induction 1 as [|y l Hl IH Hhd]; simpl; [by repeat constructor|].
  destruct (Z.leb_spec (key y - key x) 0).
  - constructor; [by constructor|]. constructor. lia.
  - constructor; [done|]. destruct l as [|z l]; simpl; [constructor; lia|].
    invc Hhd. destruct (Z.leb_spec (key z - key x) 0); constructor; lia.
Qed.

(** The result is ordered by decreasing key. *)
Lemma sort_sorted l : Sorted (fun a b => (key b <= key a)%Z) (sort (desc_by key) l).
Proof. induction l; simpl; [constructor|]. by apply insert_by_sorted. Qed.

(** Stability: the elements of any one key keep their order. *)
Lemma sort_stable (k : Z) l :
  filter (fun y => key y = k) (sort (desc_by key) l) = filter (fun y => key y = k) l.
Proof.
  induction l as [|x l IH]; simpl; [done|].
  destruct (insert_by_split (desc_by key) x (sort (desc_by key) l)) as (l1 & l2 & Hl & -> & Hl1).
  rewrite filter_app, filter_cons, filter_cons, <- IH, Hl, filter_app.
  case_decide as Hx; [|done].
  rewrite (filter_none _ l1); [done|]. eapply Forall_impl; [done|].
  unfold desc_by. simpl. intros y Hy Hk. lia.
Qed.

(** A list of strictly increasing keys comes out reversed. *)
Lemma sort_increasing_rev l :
  StronglySorted (fun a b => (key a < key b)%Z) l -> sort (desc_by key) l = rev l.
Proof.
  induction 1 as [|x l Hl IH Hx]; simpl; [done|].
  rewrite IH. apply insert_by_end. apply Forall_rev.
  eapply Forall_impl; [done|]. unfold desc_by. simpl. lia.
Qed.
(** A list already in order is left as it is. *)
Lemma sort_sorted_id l : Sorted (fun a b => (key b <= key a)%Z) l -> sort (desc_by key) l = l.
Proof.
  induction 1 as [|x l Hl IH Hhd]; simpl; [done|]. rewrite IH.
  destruct l as [|y l]; simpl; [done|]. invc Hhd. unfold desc_by.
  destruct (Z.leb_spec (key y - key x) 0); [done|lia].
Qed.

Lemma sort_idem l : sort (desc_by key) (sort (desc_by key) l) = sort (desc_by key) l.
Proof. apply sort_sorted_id, sort_sorted. Qed.
End key.
End sort.

#[export] Hint Resolve sort_sorted : khub.
