(* ===== verification/Schema.v ===== *)
(** * The data model of src/shared/schema.ts

    One Module per table, with the record of the row type ([User],
    [Document], [DocumentVersion], [Activity], the [$inferSelect] types)
    and the record of what the server passes to the storage when it
    creates a row (the [Insert...] types).  Identifiers are
    [randomUUID()] strings, modelled as [N] (only their equality and
    freshness matter); timestamps are [Date.getTime()] milliseconds, [Z].

    A column that is not [notNull()] has type [T | null]: [option T].
    In an insert or partial-update object such a column is an optional
    property and may also be absent: [Field T] (undefined / null / value).

    The JavaScript [||] operator the storage applies when it builds a row
    ([summary || null], [tags || []]) is written out as [or_null] and
    [or_empty]: the empty string is falsy, an array never is. *)

From S2P Require Import Spec2Rocq JsString.
From Stdlib Require Import String.
From stdpp Require Import strings.

(** The [varchar] primary keys produced by [randomUUID()]. *)
Notation Id := N (only parsing).

(** [users] (schema.ts lines 6-14) *)
Module User.
Record t := mk {
  id : Id;
  email : string;
  password : string;
  name : string;
  role : string;
  createdAt : Z;
  updatedAt : Z;
}.

(** [InsertUser]: the registration data after hashing the password;
    [role] is optional because the column has a default. *)
Record insert := mk_insert {
  ins_email : string;
  ins_password : string;
  ins_name : string;
  ins_role : option string;
}.
End User.

(** [documents] (schema.ts lines 16-26) *)
Module Document.
Record t := mk {
  id : Id;
  title : string;
  content : string;
  summary : option string;
  tags : option (list string);
  createdBy : Id;
  createdAt : Z;
  updatedAt : Z;
  version : Z;
}.

(** [InsertDocument]: [insertDocumentSchema] omits id, createdBy,
    createdAt, updatedAt and version. *)
Record insert := mk_insert {
  ins_title : string;
  ins_content : string;
  ins_summary : Field string;
  ins_tags : Field (list string);
}.

(** [Partial<InsertDocument>]: every property may be absent. *)
Record partial := mk_partial {
  upd_title : option string;
  upd_content : option string;
  upd_summary : Field string;
  upd_tags : Field (list string);
}.

Definition no_updates : partial := mk_partial None None Absent Absent.
End Document.

(** [document_versions] (schema.ts lines 28-39) *)
Module DocumentVersion.
Record t := mk {
  id : Id;
  documentId : Id;
  title : string;
  content : string;
  summary : option string;
  tags : option (list string);
  version : Z;
  createdBy : Id;
  createdAt : Z;
  changeDescription : option string;
}.

(** [InsertDocumentVersion] as the storage builds it. *)
Record insert := mk_insert {
  ins_documentId : Id;
  ins_title : string;
  ins_content : string;
  ins_summary : option string;
  ins_tags : option (list string);
  ins_version : Z;
  ins_createdBy : Id;
  ins_changeDescription : option string;
}.
End DocumentVersion.

(** [activities] (schema.ts lines 41-48); [type] is a text column whose
    comment lists 'created', 'updated' and 'deleted'. *)
Module Activity.
Record t := mk {
  id : Id;
  type : string;
  documentId : option Id;
  userId : Id;
  description : string;
  createdAt : Z;
}.

Record insert := mk_insert {
  ins_type : string;
  ins_documentId : option Id;
  ins_userId : Id;
  ins_description : string;
}.
End Activity.

(** [DocumentWithUser] and [DocumentWithDetails] (schema.ts lines 98-105):
    the spread [{ ...doc, createdBy: user }] replaces the author's id by
    the author's record; the model keeps both, the record in [author]. *)
Record DocumentWithUser := mkDocumentWithUser {
  dw_doc : Document.t;
  dw_author : User.t;
}.

Record DocumentWithDetails := mkDocumentWithDetails {
  dd_doc : Document.t;
  dd_author : User.t;
  dd_versions : list DocumentVersion.t;
}.

(** [Activity & { user: User; document?: Document }] *)
Record ActivityWithUser := mkActivityWithUser {
  aw_activity : Activity.t;
  aw_user : User.t;
  aw_document : option Document.t;
}.

(** ** The [||] defaults of the storage *)

(** [s || null] for [s : string | null]. *)
Definition or_null (s : option string) : option string :=
  match s with
  | Some x => if str_truthy x then Some x else None
  | None => None
  end.

(** [tags || []] for [tags : string[] | null]: an array is truthy. *)
Definition or_empty (t : option (list string)) : option (list string) :=
  Some (default [] t).

(** The same defaults on an optional property of an insert object. *)
Definition field_or_null (f : Field string) : option string :=
  Spec2Rocq.or_null str_truthy f.

Definition field_or_empty (f : Field (list string)) : option (list string) :=
  match f with Val l => Some l | _ => Some [] end.

(** [{ ...doc, ...updates }]: a property present in [updates] wins,
    [null] included. *)
Definition spread_field {A} (old : option A) (f : Field A) : option A :=
  match f with Absent => old | Null => None | Val a => Some a end.

#[export] Instance User_eq_dec : EqDecision User.t.
Proof. solve_decision. Defined.
#[export] Instance Document_eq_dec : EqDecision Document.t.
Proof. solve_decision. Defined.
#[export] Instance DocumentVersion_eq_dec : EqDecision DocumentVersion.t.
Proof. solve_decision. Defined.
#[export] Instance Activity_eq_dec : EqDecision Activity.t.
Proof. solve_decision. Defined.

Lemma or_null_idem s : or_null (or_null s) = or_null s.
Proof. destruct s as [x|]; simpl; [|done]. by destruct (str_truthy x) eqn:E; simpl; rewrite ?E. Qed.

Lemma or_empty_idem t : or_empty (or_empty t) = or_empty t.
Proof. by destruct t. Qed.
