(* ===== verification/Zod.v ===== *)
(** * Request bodies and the zod schemas of src/shared/schema.ts

    A request body is the JSON value [express.json()] parsed, [json]
    (numbers are kept to integers).  [prop k v] is the JavaScript
    property read [v.k]: [undefined] ([None]) unless [v] is an object
    with key [k]; of duplicated keys [JSON.parse] keeps the last.

    A zod object schema accepts an object, validates each key of its
    shape, drops unknown keys and reports every failing key ([zres]:
    [inl] of the failing keys, or [inr] of the parsed value).  The schemas
    are those the routes parse:
    - [insertUserSchema] / [registerSchema] (lines 51-55, 81-83):
      [email], [password] (at least 6 characters), [name] required
      strings, [role] an optional string (the column has a default);
    - [loginSchema] (lines 76-79): [email] a string zod accepts as an
      e-mail address, [password] at least 6 characters; zod's e-mail
      regular expression is the parameter [is_email];
    - [insertDocumentSchema] (lines 57-63): [title], [content] required
      strings; [summary] a string or null; [tags] an array of strings or
      null; the last two optional (nullable or defaulted columns);
    - [insertDocumentSchema.partial()] (part_003 line 141): every key
      optional. *)

From S2P Require Import Spec2Rocq JsString Schema.
From Stdlib Require Import String.
From stdpp Require Import strings pretty.

Inductive json : Type :=
  | JNull
  | JBool (b : bool)
  | JNum (n : Z)
  | JStr (s : string)
  | JArr (l : list json)
  | JObj (fields : list (string * json)).

(** [v.k] *)
Definition prop (k : string) (v : json) : option json :=
  match v with
  | JObj fs => snd <$> List.find (fun kv => fst kv === k) (rev fs)
  | _ => None
  end.

(** JavaScript truthiness of a property value ([undefined] is falsy). *)
Definition truthy (v : option json) : bool :=
  match v with
  | None | Some JNull | Some (JBool false) | Some (JNum 0) | Some (JStr EmptyString) => false
  | _ => true
  end.

(** [`${v}`]: the string a template literal makes of a JSON value
    (an array is joined with commas, its nulls becoming empty). *)
Fixpoint js_to_string (v : json) : string :=
  match v with
  | JNull => "null"
  | JBool true => "true"
  | JBool false => "false"
  | JNum n => pretty n
  | JStr s => s
  | JArr l =>
      JsString.join ","
        ((fix elems (l : list json) : list string :=
            match l with
            | [] => []
            | JNull :: l' => EmptyString :: elems l'
            | x :: l' => js_to_string x :: elems l'
            end) l)
  | JObj _ => "[object Object]"
  end.

(** A zod result: the failing keys, or the parsed value. *)
Notation zres A := (list string + A)%type.

(** Applicative combination: zod reports the issues of every key. *)
Definition zap {A B} (f : zres (A -> B)) (x : zres A) : zres B :=
  match f, x with
  | inr f, inr a => inr (f a)
  | inl e1, inl e2 => inl (e1 ++ e2)
  | inl e, inr _ | inr _, inl e => inl e
  end.

Definition z_string (v : json) : option string :=
  match v with JStr s => Some s | _ => None end.

Definition z_string_array (v : json) : option (list string) :=
  match v with JArr l => mapM z_string l | _ => None end.

(** A required key validated by [p]. *)
Definition z_req {A} (k : string) (p : json -> option A) (o : json) : zres A :=
  match prop k o ≫= p with Some a => inr a | None => inl [k] end.

(** [.optional()]: an absent key is accepted. *)
Definition z_opt {A} (k : string) (p : json -> option A) (o : json) : zres (option A) :=
  match prop k o with
  | None => inr None
  | Some v => match p v with Some a => inr (Some a) | None => inl [k] end
  end.

(** [.nullable().optional()]: absent, null, or a valid value. *)
Definition z_field {A} (k : string) (p : json -> option A) (o : json) : zres (Field A) :=
  match prop k o with
  | None => inr Absent
  | Some JNull => inr Null
  | Some v => match p v with Some a => inr (Val a) | None => inl [k] end
  end.

(** [z.string().min(n)] *)
Definition z_min (n : nat) (v : json) : option string :=
  match v with JStr s => if decide (n <= String.length s) then Some s else None | _ => None end.

(** [z.object(shape)] rejects anything but an object. *)
Definition z_object {A} (body : json) (parse : json -> zres A) : zres A :=
  match body with JObj _ => parse body | _ => inl [] end.

(** [registerSchema.parse(req.body)] *)
Definition registerSchema_parse (body : json) : zres User.insert :=
  z_object body (fun o =>
    zap (zap (zap (zap (inr User.mk_insert) (z_req "email" z_string o))
                  (z_req "password" (z_min 6) o))
             (z_req "name" z_string o))
        (z_opt "role" z_string o)).

(** [loginSchema.parse(req.body)] *)
Definition loginSchema_parse (is_email : string -> bool) (body : json) : zres (string * string) :=
  z_object body (fun o =>
    zap (zap (inr pair)
             (z_req "email" (fun v => z_string v ≫= fun s => if is_email s then Some s else None) o))
        (z_req "password" (z_min 6) o)).

(** [insertDocumentSchema.parse(req.body)] *)
Definition insertDocumentSchema_parse (body : json) : zres Document.insert :=
  z_object body (fun o =>
    zap (zap (zap (zap (inr Document.mk_insert) (z_req "title" z_string o))
                  (z_req "content" z_string o))
             (z_field "summary" z_string o))
        (z_field "tags" z_string_array o)).

(** [insertDocumentSchema.partial().parse(req.body)] *)
Definition partialDocumentSchema_parse (body : json) : zres Document.partial :=
  z_object body (fun o =>
    zap (zap (zap (zap (inr Document.mk_partial) (z_opt "title" z_string o))
                  (z_opt "content" z_string o))
             (z_field "summary" z_string o))
        (z_field "tags" z_string_array o)).
