(* ===== verification/Auth.v ===== *)
(** * Tokens, passwords and the authentication middleware
    (src/server/services/auth.ts)

    [jsonwebtoken] and [bcryptjs] are libraries the service only calls;
    what the service relies on them for is stated as two classes.
    - [Jwt]: [jwt_sign p iat] is the token of payload [p] issued at
      [iat] (seconds); [jwt_decode] gives back exactly what was signed
      and nothing else, and a token never contains a space (it is three
      base64url segments joined by dots).
    - [Hasher]: [bhash p salt] is the bcrypt hash of [p] with a random
      salt; [bcompare] accepts a password whose first 72 bytes are those
      of the hashed one (bcrypt ignores the rest) and rejects any other.

    [generateToken], [verifyToken], [authenticateToken] and
    [requireAdmin] follow lines 16-54: the [Authorization] header is
    split on spaces and its second word is the token; a missing or empty
    token is refused with 401, a token that does not verify or has
    expired (seven days after [iat], checked against the clock in
    seconds) with 403.

    The classes have the reference instances [hex_jwt] and [prefix_hasher]
    at the end of the file, used to evaluate the examples. *)

From S2P Require Import Spec2Rocq JsString Schema.
From Stdlib Require Import String Ascii.
From stdpp Require Import strings.

Local Open Scope string_scope.

(** The [user] of an [AuthRequest] and the claims of a token. *)
Record Payload := mkPayload {
  p_id : Id;
  p_email : string;
  p_name : string;
  p_role : string;
}.

#[export] Instance Payload_eq_dec : EqDecision Payload.
Proof. solve_decision. Defined.

Class Jwt := {
  jwt_sign : Payload -> Z -> string;
  jwt_decode : string -> option (Payload * Z);
  jwt_decode_sign p iat : jwt_decode (jwt_sign p iat) = Some (p, iat);
  jwt_decode_inv t p iat : jwt_decode t = Some (p, iat) -> t = jwt_sign p iat;
  jwt_sign_no_space p iat : has_char " "%char (jwt_sign p iat) = false;
  jwt_sign_nonempty p iat : jwt_sign p iat <> "";
}.

(** The first 72 bytes of a password: all that bcrypt hashes. *)
Definition trunc72 (p : string) : string := String.substring 0 72 p.

Class Hasher := {
  bhash : string -> N -> string;
  bcompare : string -> string -> bool;
  bcompare_spec p p' salt : bcompare p' (bhash p salt) = bool_decide (trunc72 p' = trunc72 p);
}.

(** [expiresIn: "7d"], in seconds. *)
Definition token_lifetime : Z := 7 * 24 * 60 * 60.

(** [Math.floor(Date.now() / 1000)] *)
Definition seconds (now : Z) : Z := now / 1000.

Section auth.
Context `{Jwt}.

(** [generateToken(user)] at time [now] (milliseconds). *)
Definition generateToken (user : Payload) (now : Z) : string := jwt_sign user (seconds now).

(** [verifyToken(token)]: [None] where [jwt.verify] throws. *)
Definition verifyToken (token : string) (now : Z) : option Payload :=
  match jwt_decode token with
  | Some (p, iat) => if bool_decide (seconds now < iat + token_lifetime)%Z then Some p else None
  | None => None
  end.

(** What the middleware does with a request: pass it on with its user,
    or answer with a status and a message. *)
Inductive auth_result :=
  | AuthOk (user : Payload)
  | AuthReject (status : Z) (message : string).

(** [authHeader && authHeader.split(" ")[1]] *)
Definition bearer_token (authHeader : option string) : option string :=
  match authHeader with
  | None => None
  | Some h => if str_truthy h then nth_error (JsString.split " "%char h) 1 else Some h
  end.

Definition authenticateToken (authHeader : option string) (now : Z) : auth_result :=
  match bearer_token authHeader with
  | Some token =>
      if str_truthy token then
        match verifyToken token now with
        | Some user => AuthOk user
        | None => AuthReject 403 "Invalid or expired token"
        end
      else AuthReject 401 "Access token required"
  | None => AuthReject 401 "Access token required"
  end.

(** [requireAdmin]: [None] when it calls [next()]. *)
Definition requireAdmin (user : option Payload) : option (Z * string) :=
  match user with
  | Some u => if p_role u === "admin" then None else Some (403%Z, "Admin access required")
  | None => Some (403%Z, "Admin access required")
  end.
End auth.

Section hash.
Context `{Hasher}.

(** [hashPassword(password)] with the salt [salt] drawn at random. *)
Definition hashPassword (password : string) (salt : N) : string := bhash password salt.

(** [comparePassword(password, hash)] *)
Definition comparePassword (password hash : string) : bool := bcompare password hash.
End hash.

(** ** Lemmas on the middleware *)

Section auth_lemmas.
Context `{Jwt}.

Lemma bearer_token_of tok :
  has_char " "%char tok = false -> bearer_token (Some ("Bearer " ++ tok)) = Some tok.
Proof.
  intros Hs. unfold bearer_token. simpl. by rewrite str_app_nil, split_no_sep.
Qed.

Lemma verifyToken_generate u t now :
  verifyToken (generateToken u t) now =
  if bool_decide (seconds now < seconds t + token_lifetime)%Z then Some u else None.
Proof. unfold verifyToken, generateToken. by rewrite jwt_decode_sign. Qed.

Lemma verifyToken_Some tok now u :
  verifyToken tok now = Some u ->
  exists iat, tok = jwt_sign u iat /\ (seconds now < iat + token_lifetime)%Z.
Proof.
  unfold verifyToken. destruct (jwt_decode tok) as [[p iat]|] eqn:E; [|done].
  case_bool_decide; [|done]. intros [= <-]. exists iat. split; [|done].
  by apply jwt_decode_inv.
Qed.
End auth_lemmas.

(** ** Reference instances

    [hex_jwt] writes a payload and its [iat] as five dot-separated
    fields, strings in hexadecimal and numbers in binary, and decodes a
    token by parsing it and checking that it is the token of what it
    parsed; [prefix_hasher] "hashes" a password to its first 72
    characters.  They satisfy the laws of the classes and make the
    examples executable. *)

Definition nib (n : nat) : ascii :=
  match n with
  | 0 => "0" | 1 => "1" | 2 => "2" | 3 => "3" | 4 => "4" | 5 => "5" | 6 => "6" | 7 => "7"
  | 8 => "8" | 9 => "9" | 10 => "a" | 11 => "b" | 12 => "c" | 13 => "d" | 14 => "e" | _ => "f"
  end.

(** The value of a lower-case hexadecimal digit. *)
Definition unnib (c : ascii) : option nat :=
  let n := nat_of_ascii c in
  (if (48 <=? n) && (n <=? 57) then Some (n - 48)
   else if (97 <=? n) && (n <=? 102) then Some (n - 87)
   else None)%nat.

Fixpoint hex_enc (s : string) : string :=
  match s with
  | EmptyString => EmptyString
  | String c s' =>
      String (nib (nat_of_ascii c / 16)) (String (nib (nat_of_ascii c mod 16)) (hex_enc s'))
  end.

Fixpoint hex_dec (s : string) : option string :=
  match s with
  | EmptyString => Some EmptyString
  | String a (String b s') =>
      hi ← unnib a; lo ← unnib b; r ← hex_dec s';
      Some (String (ascii_of_nat (16 * hi + lo)) r)
  | String _ EmptyString => None
  end.

Fixpoint pos_enc (p : positive) : string :=
  match p with
  | xH => EmptyString
  | xO p' => String "0" (pos_enc p')
  | xI p' => String "1" (pos_enc p')
  end.

Fixpoint pos_dec (s : string) : positive :=
  match s with
  | EmptyString => xH
  | String c s' => if decide (c = "1"%char) then xI (pos_dec s') else xO (pos_dec s')
  end.

Definition N_enc (n : N) : string :=
  match n with N0 => "n" | Npos p => String "p" (pos_enc p) end.
Definition N_dec (s : string) : N :=
  match s with String "p" s' => Npos (pos_dec s') | _ => N0 end.
Definition Z_enc (z : Z) : string :=
  match z with Z0 => "z" | Zpos p => String "p" (pos_enc p) | Zneg p => String "m" (pos_enc p) end.
Definition Z_dec (s : string) : Z :=
  match s with String "p" s' => Zpos (pos_dec s') | String "m" s' => Zneg (pos_dec s') | _ => Z0 end.

Definition hex_sign (p : Payload) (iat : Z) : string :=
  JsString.join "." [N_enc (p_id p); hex_enc (p_email p); hex_enc (p_name p); hex_enc (p_role p); Z_enc iat].

Definition hex_parse (t : string) : option (Payload * Z) :=
  match JsString.split "." t with
  | [i; e; n; r; a] =>
      e' ← hex_dec e; n' ← hex_dec n; r' ← hex_dec r;
      Some (mkPayload (N_dec i) e' n' r', Z_dec a)
  | _ => None
  end.

Definition hex_decode (t : string) : option (Payload * Z) :=
  match hex_parse t with
  | Some (p, iat) => if hex_sign p iat === t then Some (p, iat) else None
  | None => None
  end.

Lemma hex_char c :
  (hi ← unnib (nib (nat_of_ascii c / 16)); lo ← unnib (nib (nat_of_ascii c mod 16));
   Some (ascii_of_nat (16 * hi + lo))) = Some c.
Proof. destruct c as [[] [] [] [] [] [] [] []]; reflexivity. Qed.

Lemma hex_dec_enc s : hex_dec (hex_enc s) = Some s.
Proof.
  induction s as [|c s IH]; [done|]. cbn [hex_enc hex_dec]. rewrite IH.
  pose proof (hex_char c) as Hc.
  destruct (unnib (nib (nat_of_ascii c / 16))) as [hi|]; [|done].
  destruct (unnib (nib (nat_of_ascii c mod 16))) as [lo|]; [|done].
  unfold mbind, option_bind in *.
  assert (E : ascii_of_nat (16 * hi + lo) = c) by congruence. by rewrite E.
Qed.

Lemma pos_dec_enc p : pos_dec (pos_enc p) = p.
Proof. induction p; simpl; by rewrite ?IHp. Qed.

(** The characters of the encodings. *)
Lemma nib_not c n : c <> "0"%char -> c <> "1"%char -> c <> "2"%char -> c <> "3"%char ->
  c <> "4"%char -> c <> "5"%char -> c <> "6"%char -> c <> "7"%char -> c <> "8"%char ->
  c <> "9"%char -> c <> "a"%char -> c <> "b"%char -> c <> "c"%char -> c <> "d"%char ->
  c <> "e"%char -> c <> "f"%char -> nib n <> c.
Proof. intros. unfold nib. repeat (destruct n as [|n]; [done|]). done. Qed.

Lemma has_char_hex_enc c s : (forall n, nib n <> c) -> has_char c (hex_enc s) = false.
Proof.
  intros Hn. induction s as [|c' s IH]; [done|]. simpl.
  rewrite !bool_decide_eq_false_2 by apply Hn. by rewrite IH.
Qed.

Lemma has_char_pos_enc c p : c <> "0"%char -> c <> "1"%char -> has_char c (pos_enc p) = false.
Proof.
  intros H0 H1. induction p; simpl; rewrite ?bool_decide_eq_false_2 by congruence; done.
Qed.

(** A character that is none of [0-9a-fnpzm] occurs in no field. *)
Definition field_char (c : ascii) : Prop :=
  (forall n, nib n <> c) /\ c <> "n"%char /\ c <> "p"%char /\ c <> "z"%char /\ c <> "m"%char.

Lemma has_char_fields c p iat :
  field_char c ->
  Forall (fun t => has_char c t = false)
    [N_enc (p_id p); hex_enc (p_email p); hex_enc (p_name p); hex_enc (p_role p); Z_enc iat].
Proof.
  intros (Hn & Hn' & Hp & Hz & Hm).
  assert (H0 : c <> "0"%char) by (specialize (Hn 0); done).
  assert (H1 : c <> "1"%char) by (specialize (Hn 1); done).
  repeat constructor; try apply has_char_hex_enc; try done.
  - destruct (p_id p); simpl; rewrite ?bool_decide_eq_false_2 by congruence; [done|].
    by apply has_char_pos_enc.
  - destruct iat; simpl; rewrite ?bool_decide_eq_false_2 by congruence; [done| |];
      by apply has_char_pos_enc.
Qed.

Lemma field_char_dot : field_char ".".
Proof. repeat split; try done. intros n. apply nib_not; done. Qed.

Lemma field_char_space : field_char " ".
Proof. repeat split; try done. intros n. apply nib_not; done. Qed.

Lemma hex_parse_sign p iat : hex_parse (hex_sign p iat) = Some (p, iat).
Proof.
  unfold hex_parse, hex_sign. rewrite (split_join "." "" ); [|done|by apply has_char_fields, field_char_dot|done].
  simpl. rewrite !str_app_nil, !hex_dec_enc. simpl.
  destruct p as [i e n r]; simpl. f_equal. f_equal; [f_equal|].
  - destruct i; simpl; by rewrite ?pos_dec_enc.
  - destruct iat; simpl; by rewrite ?pos_dec_enc.
Qed.

Lemma hex_decode_sign p iat : hex_decode (hex_sign p iat) = Some (p, iat).
Proof. unfold hex_decode. rewrite hex_parse_sign. by rewrite bool_decide_eq_true_2. Qed.

Lemma hex_decode_inv t p iat : hex_decode t = Some (p, iat) -> t = hex_sign p iat.
Proof.
  unfold hex_decode. destruct (hex_parse t) as [[p' iat']|]; [|done].
  case_bool_decide; [|done]. by intros [= <- <-].
Qed.

Lemma hex_sign_no_space p iat : has_char " "%char (hex_sign p iat) = false.
Proof. apply has_char_join; [done|apply has_char_fields, field_char_space]. Qed.

Lemma hex_sign_nonempty p iat : hex_sign p iat <> "".
Proof. unfold hex_sign. cbn [JsString.join]. by destruct (p_id p). Qed.

#[export] Instance hex_jwt : Jwt :=
  {| jwt_sign := hex_sign; jwt_decode := hex_decode; jwt_decode_sign := hex_decode_sign;
     jwt_decode_inv := hex_decode_inv; jwt_sign_no_space := hex_sign_no_space;
     jwt_sign_nonempty := hex_sign_nonempty |}.

Lemma prefix_compare_spec p p' (salt : N) :
  bool_decide (trunc72 p' = trunc72 p) = bool_decide (trunc72 p' = trunc72 p).
Proof. reflexivity. Qed.

#[export] Instance prefix_hasher : Hasher :=
  {| bhash p _ := trunc72 p; bcompare p' h := bool_decide (trunc72 p' = h);
     bcompare_spec := prefix_compare_spec |}.

(** ** Properties of the middleware *)

Section auth_props.
Context `{Jwt}.

(** C14: A token the server generated, sent as [Bearer <token>], is
    accepted with exactly the user it was issued for until seven days
    (in whole seconds) after it was issued, and refused with 403
    afterwards. *)
Theorem authenticateToken_roundtrip u t now :
  authenticateToken (Some ("Bearer " ++ generateToken u t)) now =
  if bool_decide (seconds now < seconds t + token_lifetime)%Z then AuthOk u
  else AuthReject 403 "Invalid or expired token".
Proof.
  unfold authenticateToken. rewrite bearer_token_of by apply jwt_sign_no_space.
  unfold str_truthy. rewrite bool_decide_eq_false_2 by apply jwt_sign_nonempty. simpl.
  rewrite verifyToken_generate. by case_bool_decide.
Qed.

(** C13: The middleware lets a request through only with the user of a
    token signed with the server's key and not yet expired, found as
    the second space-separated word of the [Authorization] header. *)
Theorem authenticateToken_sound h now u :
  authenticateToken h now = AuthOk u ->
  exists iat, bearer_token h = Some (jwt_sign u iat) /\ (seconds now < iat + token_lifetime)%Z.
Proof.
  unfold authenticateToken. destruct (bearer_token h) as [tok|]; [|done].
  destruct (str_truthy tok); [|done].
  destruct (verifyToken tok now) as [u'|] eqn:E; [|done]. intros [= <-].
  destruct (verifyToken_Some _ _ _ E) as (iat & -> & Hlt). by exists iat.
Qed.
End auth_props.

Definition alice : Payload := mkPayload 0 "alice@example.com" "Alice" "user".

Lemma authenticateToken_sound_witness :
  authenticateToken (Some ("Bearer " ++ generateToken alice 0)) 1000 = AuthOk alice /\
  exists iat, bearer_token (Some ("Bearer " ++ generateToken alice 0)) = Some (jwt_sign alice iat) /\
              (seconds 1000 < iat + token_lifetime)%Z.
Proof.
  assert (H : authenticateToken (Some ("Bearer " ++ generateToken alice 0)) 1000 = AuthOk alice)
    by (vm_compute; reflexivity).
  split; [exact H|]. exact (authenticateToken_sound _ _ _ H).
Defined.
