(* ===== verification/Storage.v ===== *)
(** * [MemStorage]: the in-memory document store (src/unnamed/part_004)

    The class keeps four [Map]s (lines 28-31).  Its state here is the
    record [St]: the four maps, plus the two pieces of the outside world
    its methods read: the generator behind [randomUUID()] ([seed]: each
    call returns a fresh identifier and advances it) and the wall clock
    read by [new Date()] ([clock], advanced only between requests by
    [tick]).

    Methods that change the store are functions in the state monad [ST St];
    methods that only read it ([getUser], [getDocuments], [getDocument],
    [searchDocuments], [getDocumentVersions], [getRecentActivities]) are
    functions of the state.  Every [await] in the class awaits another
    method of the class, which never suspends on I/O; an [await] still
    yields to the microtask queue, where the continuation of another
    request may run.  This file gives each method's sequential meaning;
    Server.v splits the methods at their [await]s and interleaves them
    with the other requests. *)

From S2P Require Import Spec2Rocq JsMap JsString JsSort Schema.
From Stdlib Require Import String Ascii.
From stdpp Require Import strings.

Record St := mkSt {
  users : jsmap Id User.t;
  documents : jsmap Id Document.t;
  documentVersions : jsmap Id DocumentVersion.t;
  activities : jsmap Id Activity.t;
  seed : Id;
  clock : Z;
}.

(** [new MemStorage()] at time [t0] (lines 33-38). *)
Definition init (t0 : Z) : St := mkSt [] [] [] [] 0%N t0.

(** ** Field updates of the state *)
Definition upd_users f (s : St) : St :=
  mkSt (f (users s)) (documents s) (documentVersions s) (activities s) (seed s) (clock s).
Definition upd_documents f (s : St) : St :=
  mkSt (users s) (f (documents s)) (documentVersions s) (activities s) (seed s) (clock s).
Definition upd_versions f (s : St) : St :=
  mkSt (users s) (documents s) (f (documentVersions s)) (activities s) (seed s) (clock s).
Definition upd_activities f (s : St) : St :=
  mkSt (users s) (documents s) (documentVersions s) (f (activities s)) (seed s) (clock s).

(** ** The outside world *)

(** [randomUUID()]: a fresh identifier. *)
Definition randomUUID : ST St Id :=
  fun s => (seed s, mkSt (users s) (documents s) (documentVersions s) (activities s)
                         (N.succ (seed s)) (clock s)).

(** [new Date()] *)
Definition newDate : ST St Z := fun s => (clock s, s).

(** Time passes between two requests. *)
Definition tick (dt : Z) (s : St) : St :=
  mkSt (users s) (documents s) (documentVersions s) (activities s) (seed s) (clock s + Z.abs dt).

(** The double quote of the template literals. *)
Definition quote : string := String (ascii_of_nat 34) EmptyString.

Local Open Scope string_scope.

(** ** User methods (lines 40-60) *)

Definition getUser (id : Id) (s : St) : option User.t := Map.get id (users s).

(** [Array.from(this.users.values()).find(user => user.email === email)] *)
Definition getUserByEmail (email : string) (s : St) : option User.t :=
  List.find (fun u => User.email u === email) (Map.values (users s)).

(** [insertUser.role || "user"] *)
Definition role_or_user (r : option string) : string :=
  match r with Some x => if str_truthy x then x else "user" | None => "user" end.

Definition createUser (ins : User.insert) : ST St User.t :=
  id ← randomUUID;
  now ← newDate;
  let user := User.mk id (User.ins_email ins) (User.ins_password ins) (User.ins_name ins)
                (role_or_user (User.ins_role ins)) now now in
  st_modify (upd_users (Map.set id user));;
  mret user.

(** ** Version and activity rows (lines 194-242) *)

(** [getDocumentVersions]: the rows of one document, highest version first. *)
Definition versions_of (documentId : Id) (s : St) : list DocumentVersion.t :=
  filter (fun v => DocumentVersion.documentId v = documentId) (Map.values (documentVersions s)).

Definition getDocumentVersions (documentId : Id) (s : St) : list DocumentVersion.t :=
  sort (desc_by DocumentVersion.version) (versions_of documentId s).

Definition createDocumentVersion (ins : DocumentVersion.insert) : ST St DocumentVersion.t :=
  id ← randomUUID;
  now ← newDate;
  let version := DocumentVersion.mk id (DocumentVersion.ins_documentId ins)
                   (DocumentVersion.ins_title ins) (DocumentVersion.ins_content ins)
                   (or_null (DocumentVersion.ins_summary ins))
                   (or_empty (DocumentVersion.ins_tags ins))
                   (DocumentVersion.ins_version ins) (DocumentVersion.ins_createdBy ins) now
                   (or_null (DocumentVersion.ins_changeDescription ins)) in
  st_modify (upd_versions (Map.set id version));;
  mret version.

Definition createActivity (ins : Activity.insert) : ST St Activity.t :=
  id ← randomUUID;
  now ← newDate;
  let activity := Activity.mk id (Activity.ins_type ins) (Activity.ins_documentId ins)
                    (Activity.ins_userId ins) (Activity.ins_description ins) now in
  st_modify (upd_activities (Map.set id activity));;
  mret activity.

(** [arr.slice(0, end)] *)
Definition slice0 {A} (l : list A) (end_ : Z) : list A :=
  let e := if (end_ <? 0)%Z then (Z.of_nat (length l) + end_)%Z else end_ in
  take (Z.to_nat e) l.

(** [getRecentActivities(limit = 10)]: sort all activities newest first,
    keep the first [limit], then drop those whose user is unknown. *)
Definition getRecentActivities (limit : Z) (s : St) : list ActivityWithUser :=
  omap (fun a =>
          match getUser (Activity.userId a) s with
          | Some u =>
              Some (mkActivityWithUser a u
                      (match Activity.documentId a with
                       | Some d => Map.get d (documents s)
                       | None => None
                       end))
          | None => None
          end)
       (slice0 (sort (desc_by Activity.createdAt) (Map.values (activities s))) limit).

(** ** Document methods (lines 62-192) *)

(** [getDocuments]: documents whose author resolves, most recently
    updated first. *)
Definition with_author (s : St) (doc : Document.t) : option DocumentWithUser :=
  mkDocumentWithUser doc <$> getUser (Document.createdBy doc) s.

Definition getDocuments (s : St) : list DocumentWithUser :=
  sort (desc_by (fun d => Document.updatedAt (dw_doc d)))
       (omap (with_author s) (Map.values (documents s))).

Definition getDocument (id : Id) (s : St) : option DocumentWithDetails :=
  doc ← Map.get id (documents s);
  user ← getUser (Document.createdBy doc) s;
  Some (mkDocumentWithDetails doc user (getDocumentVersions id s)).

Definition createDocument (ins : Document.insert) (createdBy : Id) : ST St Document.t :=
  id ← randomUUID;
  now ← newDate;
  let document := Document.mk id (Document.ins_title ins) (Document.ins_content ins)
                    (field_or_null (Document.ins_summary ins))
                    (field_or_empty (Document.ins_tags ins)) createdBy now now 1 in
  st_modify (upd_documents (Map.set id document));;
  createDocumentVersion
    (DocumentVersion.mk_insert id (Document.title document) (Document.content document)
       (Document.summary document) (Document.tags document) 1 createdBy
       (Some "Initial version"));;
  createActivity
    (Activity.mk_insert "created" (Some id) createdBy
       ("Created document " ++ quote ++ Document.title document ++ quote));;
  mret document.

(** [{ ...doc, ...updates, updatedAt: now, version: newVersion }] *)
Definition merge_updates (doc : Document.t) (u : Document.partial) (now newVersion : Z) : Document.t :=
  Document.mk (Document.id doc)
    (default (Document.title doc) (Document.upd_title u))
    (default (Document.content doc) (Document.upd_content u))
    (spread_field (Document.summary doc) (Document.upd_summary u))
    (spread_field (Document.tags doc) (Document.upd_tags u))
    (Document.createdBy doc) (Document.createdAt doc) now newVersion.

Definition updateDocument (id : Id) (updates : Document.partial) (updatedBy : Id)
    : ST St (option Document.t) :=
  s ← st_get;
  match Map.get id (documents s) with
  | None => mret None
  | Some doc =>
      now ← newDate;
      let newVersion := (Document.version doc + 1)%Z in
      let updatedDocument := merge_updates doc updates now newVersion in
      st_modify (upd_documents (Map.set id updatedDocument));;
      createDocumentVersion
        (DocumentVersion.mk_insert id (Document.title updatedDocument)
           (Document.content updatedDocument) (Document.summary updatedDocument)
           (Document.tags updatedDocument) newVersion updatedBy (Some "Document updated"));;
      createActivity
        (Activity.mk_insert "updated" (Some id) updatedBy
           ("Updated document " ++ quote ++ Document.title updatedDocument ++ quote));;
      mret (Some updatedDocument)
  end.

Definition deleteDocument (id : Id) : ST St bool :=
  s ← st_get;
  match Map.get id (documents s) with
  | None => mret false
  | Some _ =>
      st_modify (upd_versions (Map.delete_where (fun v => DocumentVersion.documentId v === id)));;
      st_modify (upd_activities (Map.delete_where (fun a => Activity.documentId a === Some id)));;
      st_modify (upd_documents (Map.delete id));;
      mret true
  end.

(** The filter of [searchDocuments] on one document, [lowerQuery]
    already lower-cased. *)
Definition doc_matches (lowerQuery : string) (doc : Document.t) : bool :=
  includes (toLowerCase (Document.title doc)) lowerQuery
  || includes (toLowerCase (Document.content doc)) lowerQuery
  || match Document.summary doc with
     | Some sm => str_truthy sm && includes (toLowerCase sm) lowerQuery
     | None => false
     end
  || match Document.tags doc with
     | Some ts => existsb (fun tag => includes (toLowerCase tag) lowerQuery) ts
     | None => false
     end.

Definition searchDocuments (query : string) (s : St) : list DocumentWithUser :=
  let lowerQuery := toLowerCase query in
  filter (fun d => doc_matches lowerQuery (dw_doc d) = true) (getDocuments s).
