(* ===== verification/StorageInv.v ===== *)
(** * The invariant of [MemStorage]

    [inv s] is what every state reachable through the methods the routes
    call satisfies:
    - each of the four maps has one entry per key, every key is below the
      identifier generator's seed, and each document is stored under its
      own id;
    - the version log: for a document at version N, the version rows that
      reference it are, in insertion order, numbered 1, 2, ..., N;
    - the last of these rows is the document's current state after the
      defaults of [createDocumentVersion] ([summary || null],
      [tags || []]);
    - no version row and no activity references a missing document.

    The file states the result of each method as an explicit state
    (the [_run] lemmas), proves that [createUser], [createDocument],
    [updateDocument], [deleteDocument] and the passing of time preserve
    [inv], and concludes that every reachable state satisfies it. *)

From S2P Require Import Spec2Rocq JsMap JsString JsSort Schema Storage.
From Stdlib Require Import String.
From stdpp Require Import strings.

(** Every key of [m] is below [n]. *)
Definition fresh_below {V} (m : jsmap Id V) (n : Id) : Prop :=
  Forall (fun k => (k < n)%N) (Map.keys m).

(** The row [v] records the document [d] as [createDocumentVersion]
    stores it. *)
Definition snapshot_ok (d : Document.t) (v : DocumentVersion.t) : Prop :=
  DocumentVersion.title v = Document.title d /\
  DocumentVersion.content v = Document.content d /\
  DocumentVersion.summary v = or_null (Document.summary d) /\
  DocumentVersion.tags v = or_empty (Document.tags d) /\
  DocumentVersion.version v = Document.version d.

(** The version log of one stored document. *)
Definition log_ok (s : St) (id : Id) (d : Document.t) : Prop :=
  DocumentVersion.version <$> versions_of id s = seqZ 1 (Document.version d) /\
  exists v, last (versions_of id s) = Some v /\ snapshot_ok d v.

(** The part of the invariant that survives any interleaving of the
    request handlers (see Server.v). *)
Record coherent (s : St) : Prop := {
  inv_wf_users : Map.wf (users s);
  inv_wf_documents : Map.wf (documents s);
  inv_wf_versions : Map.wf (documentVersions s);
  inv_wf_activities : Map.wf (activities s);
  inv_fresh_users : fresh_below (users s) (seed s);
  inv_fresh_documents : fresh_below (documents s) (seed s);
  inv_fresh_versions : fresh_below (documentVersions s) (seed s);
  inv_fresh_activities : fresh_below (activities s) (seed s);
  inv_doc_id : forall id d, Map.get id (documents s) = Some d -> Document.id d = id;
  inv_log : forall id d, Map.get id (documents s) = Some d -> log_ok s id d;
  inv_versions_owned : forall v, v ∈ Map.values (documentVersions s) ->
    is_Some (Map.get (DocumentVersion.documentId v) (documents s));
}.

(** Every activity that references a document references a stored one. *)
Definition activities_owned (s : St) : Prop :=
  forall a d, a ∈ Map.values (activities s) ->
    Activity.documentId a = Some d -> is_Some (Map.get d (documents s)).

Record inv (s : St) : Prop := {
  inv_core :> coherent s;
  inv_activities_owned : activities_owned s;
}.


(** ** Freshness *)

Lemma fresh_get_None {V} (m : jsmap Id V) n : fresh_below m n -> Map.get n m = None.
Proof.
  intros Hf. apply Map.get_None_keys. intros Hin.
  unfold fresh_below in Hf. rewrite list.Forall_forall in Hf. specialize (Hf _ Hin). lia.
Qed.

Lemma fresh_below_mono {V} (m : jsmap Id V) n n' : fresh_below m n -> (n <= n')%N -> fresh_below m n'.
Proof. intros Hf Hle. eapply Forall_impl; [apply Hf|]. simpl. lia. Qed.

Lemma fresh_below_set {V} (m : jsmap Id V) n n' k v :
  fresh_below m n -> (n <= n')%N -> (k < n')%N -> fresh_below (Map.set k v m) n'.
Proof.
  intros Hf Hle Hk. unfold fresh_below in *. rewrite list.Forall_forall in Hf |- *.
  intros k' [->|Hin]%Map.keys_set_sub; [done|]. specialize (Hf _ Hin). lia.
Qed.

Lemma fresh_below_filter {V} (m : jsmap Id V) n (P : Id * V -> Prop) `{!forall e, Decision (P e)} :
  fresh_below m n -> fresh_below (filter P m) n.
Proof.
  intros Hf. unfold fresh_below in *. rewrite list.Forall_forall in Hf |- *.
  intros k Hin%Map.keys_filter_sub. by apply Hf.
Qed.

Lemma fresh_below_get {V} (m : jsmap Id V) n k v :
  fresh_below m n -> Map.get k m = Some v -> (k < n)%N.
Proof.
  intros Hf Hk%Map.get_Some_In. unfold fresh_below in Hf. rewrite list.Forall_forall in Hf.
  apply Hf. unfold Map.keys. apply list_elem_of_fmap. by exists (k, v).
Qed.

#[export] Hint Resolve fresh_below_mono fresh_below_filter Map.set_wf Map.delete_wf : khub.

(** ** The methods as explicit state changes *)

Lemma createUser_run ins s :
  createUser ins s =
  let user := User.mk (seed s) (User.ins_email ins) (User.ins_password ins) (User.ins_name ins)
                (role_or_user (User.ins_role ins)) (clock s) (clock s) in
  (user, mkSt (Map.set (seed s) user (users s)) (documents s) (documentVersions s)
              (activities s) (N.succ (seed s)) (clock s)).
Proof. reflexivity. Qed.

Lemma createDocumentVersion_run ins s :
  createDocumentVersion ins s =
  let v := DocumentVersion.mk (seed s) (DocumentVersion.ins_documentId ins)
             (DocumentVersion.ins_title ins) (DocumentVersion.ins_content ins)
             (or_null (DocumentVersion.ins_summary ins)) (or_empty (DocumentVersion.ins_tags ins))
             (DocumentVersion.ins_version ins) (DocumentVersion.ins_createdBy ins) (clock s)
             (or_null (DocumentVersion.ins_changeDescription ins)) in
  (v, mkSt (users s) (documents s) (Map.set (seed s) v (documentVersions s)) (activities s)
           (N.succ (seed s)) (clock s)).
Proof. reflexivity. Qed.

Lemma createActivity_run ins s :
  createActivity ins s =
  let a := Activity.mk (seed s) (Activity.ins_type ins) (Activity.ins_documentId ins)
             (Activity.ins_userId ins) (Activity.ins_description ins) (clock s) in
  (a, mkSt (users s) (documents s) (documentVersions s) (Map.set (seed s) a (activities s))
           (N.succ (seed s)) (clock s)).
Proof. reflexivity. Qed.

(** The version row and the activity written with a document. *)
Definition log_row (s : St) (id : Id) (d : Document.t) (by_ : Id) (change : string) :=
  DocumentVersion.mk (seed s) id (Document.title d) (Document.content d)
    (or_null (Document.summary d)) (or_empty (Document.tags d))
    (Document.version d) by_ (clock s) (or_null (Some change)).

Definition log_activity (s : St) (id : Id) (by_ : Id) (type descr : string) :=
  Activity.mk (N.succ (seed s)) type (Some id) by_ descr (clock s).

(** A document write followed by its version row: the synchronous part
    of [createDocument] and [updateDocument] up to their first [await]. *)
Definition write_doc_row (s : St) (id : Id) (d : Document.t) (by_ : Id) (change : string) : St :=
  mkSt (users s) (Map.set id d (documents s))
       (Map.set (seed s) (log_row s id d by_ change) (documentVersions s))
       (activities s) (N.succ (seed s)) (clock s).

(** The same followed by the activity. *)
Definition write_with_log (s : St) (id : Id) (d : Document.t) (by_ : Id)
    (change type descr : string) : St :=
  exec_st (createActivity (Activity.mk_insert type (Some id) by_ descr))
          (write_doc_row s id d by_ change).

Definition new_document (ins : Document.insert) (createdBy : Id) (id : Id) (now : Z) : Document.t :=
  Document.mk id (Document.ins_title ins) (Document.ins_content ins)
    (field_or_null (Document.ins_summary ins)) (field_or_empty (Document.ins_tags ins))
    createdBy now now 1.

(** The state after [randomUUID()]. *)
Definition bump (s : St) : St :=
  mkSt (users s) (documents s) (documentVersions s) (activities s) (N.succ (seed s)) (clock s).

Lemma createDocument_run ins createdBy s :
  createDocument ins createdBy s =
  let d := new_document ins createdBy (seed s) (clock s) in
  (d, write_with_log (bump s) (seed s) d createdBy "Initial version" "created"
        ("Created document " ++ quote ++ Document.title d ++ quote)%string).
Proof. reflexivity. Qed.

Lemma updateDocument_run_none id u by_ s :
  Map.get id (documents s) = None -> updateDocument id u by_ s = (None, s).
Proof. intros H. unfold updateDocument, mbind, ST_bind, st_get. simpl. by rewrite H. Qed.

Lemma updateDocument_run id u by_ s doc :
  Map.get id (documents s) = Some doc ->
  updateDocument id u by_ s =
  let d := merge_updates doc u (clock s) (Document.version doc + 1) in
  (Some d, write_with_log s id d by_ "Document updated" "updated"
             ("Updated document " ++ quote ++ Document.title d ++ quote)%string).
Proof. intros H. unfold updateDocument, mbind, ST_bind, st_get. simpl. by rewrite H. Qed.

Lemma deleteDocument_run_none id s :
  Map.get id (documents s) = None -> deleteDocument id s = (false, s).
Proof. intros H. unfold deleteDocument, mbind, ST_bind, st_get. simpl. by rewrite H. Qed.

(** The state after the three loops of [deleteDocument]. *)
Definition delete_cascade (id : Id) (s : St) : St :=
  mkSt (users s) (Map.delete id (documents s))
       (Map.delete_where (fun v => DocumentVersion.documentId v === id) (documentVersions s))
       (Map.delete_where (fun a => Activity.documentId a === Some id) (activities s))
       (seed s) (clock s).

Lemma deleteDocument_run id s doc :
  Map.get id (documents s) = Some doc -> deleteDocument id s = (true, delete_cascade id s).
Proof. intros H. unfold deleteDocument, mbind, ST_bind, st_get. simpl. by rewrite H. Qed.

(** ** Helper lemmas on the log *)

Lemma is_Some_get_set {V} (m : jsmap Id V) k k' v :
  is_Some (Map.get k m) -> is_Some (Map.get k (Map.set k' v m)).
Proof. rewrite Map.get_set. case_decide; [by eexists|done]. Qed.

Lemma log_ok_ext s s' id d : versions_of id s' = versions_of id s -> log_ok s id d -> log_ok s' id d.
Proof. unfold log_ok. by intros ->. Qed.

(** Appending a row under a fresh key extends the rows of its document. *)
Lemma versions_of_set_fresh u d vs a sd c k v id :
  Map.get k vs = None ->
  versions_of id (mkSt u d (Map.set k v vs) a sd c) =
  versions_of id (mkSt u d vs a sd c) ++
    (if decide (DocumentVersion.documentId v = id) then [v] else []).
Proof.
  intros Hk. unfold versions_of. simpl. rewrite Map.values_set_new, filter_app by done.
  done.
Qed.

Lemma versions_of_doc_row s id d by_ ch k :
  Map.get (seed s) (documentVersions s) = None ->
  versions_of k (write_doc_row s id d by_ ch) =
  versions_of k s ++ (if decide (id = k) then [log_row s id d by_ ch] else []).
Proof. intros H. unfold write_doc_row. by rewrite versions_of_set_fresh. Qed.

Lemma versions_of_write s id d by_ ch ty de k :
  Map.get (seed s) (documentVersions s) = None ->
  versions_of k (write_with_log s id d by_ ch ty de) =
  versions_of k s ++ (if decide (id = k) then [log_row s id d by_ ch] else []).
Proof. exact (versions_of_doc_row s id d by_ ch k). Qed.

(** A document that is not stored has no rows. *)
Lemma versions_of_absent s id :
  coherent s -> Map.get id (documents s) = None -> versions_of id s = [].
Proof.
  intros Hinv Hid. apply filter_none, list.Forall_forall. intros v Hv <-.
  destruct (inv_versions_owned _ Hinv v Hv) as [? Hs]. congruence.
Qed.

Lemma inv_version_pos s id d : coherent s -> Map.get id (documents s) = Some d -> (1 <= Document.version d)%Z.
Proof.
  intros Hinv Hd. destruct (inv_log _ Hinv _ _ Hd) as [Hlog (v & Hlast & _)].
  apply (f_equal length) in Hlog. rewrite length_fmap, length_seqZ in Hlog.
  destruct (versions_of id s) eqn:E; [done|]. simpl in Hlog. lia.
Qed.

(** ** Preservation *)

Section write_with_log.
Context (s : St) (id : Id) (d : Document.t) (by_ : Id) (ch ty de : string).
Let s' := write_with_log s id d by_ ch ty de.

Lemma ww_users : users s' = users s.
Proof. reflexivity. Qed.
Lemma ww_documents : documents s' = Map.set id d (documents s).
Proof. reflexivity. Qed.
Lemma ww_versions : documentVersions s' = Map.set (seed s) (log_row s id d by_ ch) (documentVersions s).
Proof. reflexivity. Qed.
Lemma ww_activities :
  activities s' = Map.set (N.succ (seed s)) (log_activity s id by_ ty de) (activities s).
Proof. reflexivity. Qed.
Lemma ww_seed : seed s' = N.succ (N.succ (seed s)).
Proof. reflexivity. Qed.
End write_with_log.

Create Rewrite HintDb ww_db.
#[export] Hint Rewrite ww_users ww_documents ww_versions ww_activities ww_seed : ww_db.

(** The document write with its row keeps the coherent invariant when the
    row it appends is the next one of the document's log. *)
Lemma write_doc_row_core s id d by_ ch :
  coherent s -> Document.id d = id -> (id < seed s)%N -> (1 <= Document.version d)%Z ->
  DocumentVersion.version <$> versions_of id s = seqZ 1 (Document.version d - 1) ->
  coherent (write_doc_row s id d by_ ch).
Proof.
  intros Hc Hid Hlt Hpos Hlog.
  pose proof (fresh_get_None _ _ (inv_fresh_versions _ Hc)) as Hfv.
  destruct Hc. constructor; simpl; eauto 6 using fresh_below_set with khub lia.
  - intros k d'. rewrite Map.get_set. case_decide; [intros [= <-]; congruence|auto].
  - intros k d'. rewrite Map.get_set. case_decide as Hk.
    + intros [= <-]. subst k. unfold log_ok.
      rewrite versions_of_doc_row by done. rewrite decide_True by done. split.
      * rewrite fmap_app, Hlog, (seqZ_snoc (Document.version d)) by done. done.
      * eexists. rewrite last_snoc. split; [done|]. repeat split.
    + intros Hd'. eapply log_ok_ext; [|by apply inv_log0].
      rewrite versions_of_doc_row by done. rewrite decide_False by done. apply app_nil_r.
  - intros v. rewrite Map.values_set_new by done. rewrite elem_of_app, list_elem_of_singleton.
    intros [Hv| ->]; simpl; [by apply is_Some_get_set, inv_versions_owned0|].
    rewrite Map.get_set_eq. by eexists.
Qed.

Lemma write_doc_row_owned s id d by_ ch :
  activities_owned s -> activities_owned (write_doc_row s id d by_ ch).
Proof. intros Ho a k Ha Hk. by eapply is_Some_get_set, Ho. Qed.

(** [createActivity] keeps the coherent invariant, whatever it records. *)
Lemma createActivity_core ins s : coherent s -> coherent (exec_st (createActivity ins) s).
Proof.
  intros []. unfold exec_st. rewrite createActivity_run. constructor; simpl;
    eauto 6 using fresh_below_set, fresh_below_mono with khub lia.
Qed.

Lemma createActivity_owned ins s :
  coherent s -> activities_owned s ->
  (forall d, Activity.ins_documentId ins = Some d -> is_Some (Map.get d (documents s))) ->
  activities_owned (exec_st (createActivity ins) s).
Proof.
  intros Hc Ho Hins a k. unfold exec_st. rewrite createActivity_run. simpl.
  rewrite Map.values_set_new by (apply fresh_get_None, Hc).
  rewrite elem_of_app, list_elem_of_singleton. intros [Ha| ->] Hk; [by eapply Ho|]. by apply Hins.
Qed.

Lemma write_with_log_inv s id d by_ ch ty de :
  inv s -> Document.id d = id -> (id < seed s)%N -> (1 <= Document.version d)%Z ->
  DocumentVersion.version <$> versions_of id s = seqZ 1 (Document.version d - 1) ->
  inv (write_with_log s id d by_ ch ty de).
Proof.
  intros Hinv Hid Hlt Hpos Hlog.
  pose proof (write_doc_row_core s id d by_ ch Hinv Hid Hlt Hpos Hlog) as Hc.
  split; [by apply createActivity_core|].
  apply createActivity_owned; [done|by apply write_doc_row_owned, Hinv|].
  intros k [= <-]. simpl. rewrite Map.get_set_eq. by eexists.
Qed.

Lemma bump_core s : coherent s -> coherent (bump s).
Proof. intros []. constructor; simpl; eauto using fresh_below_mono with lia. Qed.

Lemma bump_inv s : inv s -> inv (bump s).
Proof. intros [Hc Ho]. split; [by apply bump_core|done]. Qed.

(** Discharges [coherent s] from [inv s] (or from [inv] of the state
    before a [randomUUID()]). *)
Ltac coh_done := first [done | apply inv_core; done | apply bump_core, inv_core; done].

Lemma createUser_core ins s : coherent s -> coherent (exec_st (createUser ins) s).
Proof.
  intros []. unfold exec_st. rewrite createUser_run. constructor; simpl;
    eauto 6 using fresh_below_set, fresh_below_mono with khub lia.
Qed.

Lemma createUser_inv ins s : inv s -> inv (exec_st (createUser ins) s).
Proof. intros [Hc Ho]. split; [by apply createUser_core|done]. Qed.

Lemma createDocument_inv ins createdBy s : inv s -> inv (exec_st (createDocument ins createdBy) s).
Proof.
  intros Hinv. unfold exec_st. rewrite createDocument_run. simpl.
  apply write_with_log_inv; simpl; [by apply bump_inv|done|lia|lia|].
  rewrite (versions_of_absent (bump s)); [done|by apply bump_core, Hinv|].
  apply fresh_get_None, Hinv.
Qed.

Lemma updateDocument_inv id u by_ s : inv s -> inv (exec_st (updateDocument id u by_) s).
Proof.
  intros Hinv. unfold exec_st. destruct (Map.get id (documents s)) as [doc|] eqn:Hdoc.
  - rewrite (updateDocument_run _ _ _ _ doc) by done. simpl.
    pose proof (inv_version_pos _ _ _ Hinv Hdoc).
    apply write_with_log_inv; simpl; [done|by eapply (inv_doc_id _ Hinv)| |lia|].
    + eapply fresh_below_get; [apply (inv_fresh_documents _ Hinv)|done].
    + replace (Document.version doc + 1 - 1)%Z with (Document.version doc) by lia.
      apply (inv_log _ Hinv _ _ Hdoc).
  - by rewrite updateDocument_run_none.
Qed.

Lemma versions_of_delete_cascade s id k :
  Map.wf (documentVersions s) -> k <> id -> versions_of k (delete_cascade id s) = versions_of k s.
Proof.
  intros Hwf Hk. unfold versions_of. simpl.
  rewrite Map.values_delete_where, list_filter_filter by done. apply list_filter_iff.
  intros v. rewrite bool_decide_eq_false. naive_solver.
Qed.

Lemma delete_cascade_core id s : coherent s -> coherent (delete_cascade id s).
Proof.
  intros Hc. unfold delete_cascade. destruct Hc.
  constructor; simpl; try (apply Map.delete_where_wf || apply Map.delete_wf); try done.
  all: try (rewrite Map.delete_where_filter by done; by apply fresh_below_filter).
  - unfold Map.delete. by apply fresh_below_filter.
  - intros k d. rewrite Map.get_delete. case_decide; [done|]. apply inv_doc_id0.
  - intros k d. rewrite Map.get_delete. case_decide; [done|]. intros Hk.
    eapply log_ok_ext; [|by apply inv_log0]. by apply versions_of_delete_cascade.
  - intros v. rewrite Map.values_delete_where by done. intros [Hne Hv]%list_elem_of_filter.
    rewrite bool_decide_eq_false in Hne. rewrite Map.get_delete. case_decide; [done|].
    by apply inv_versions_owned0.
Qed.

Lemma delete_cascade_owned id s : coherent s -> activities_owned s -> activities_owned (delete_cascade id s).
Proof.
  intros Hc Ho a k. simpl. rewrite Map.values_delete_where by apply Hc.
  intros [Hne Ha]%list_elem_of_filter Hk.
  rewrite Hk, bool_decide_eq_false in Hne. rewrite Map.get_delete.
  case_decide; [by subst|]. by eapply Ho.
Qed.

Lemma deleteDocument_inv id s : inv s -> inv (exec_st (deleteDocument id) s).
Proof.
  intros [Hc Ho]. unfold exec_st. destruct (Map.get id (documents s)) as [doc|] eqn:Hdoc.
  2: by rewrite deleteDocument_run_none.
  rewrite (deleteDocument_run _ _ doc) by done.
  split; [by apply delete_cascade_core|by apply delete_cascade_owned].
Qed.

Lemma tick_core dt s : coherent s -> coherent (tick dt s).
Proof. intros []. by constructor. Qed.

Lemma tick_inv dt s : inv s -> inv (tick dt s).
Proof. intros [Hc Ho]. split; [by apply tick_core|done]. Qed.

Lemma init_inv t0 : inv (init t0).
Proof.
  split; [constructor; simpl|];
    first [apply NoDup_nil_2 | apply Forall_nil_2 | by intros ?? | by intros ? ?%elem_of_nil
          | by intros ?? ?%elem_of_nil].
Qed.

(** ** Reachable states *)

(** One storage operation, as the routes invoke them, or time passing. *)
Inductive step : St -> St -> Prop :=
  | step_createUser ins s : step s (exec_st (createUser ins) s)
  | step_createDocument ins createdBy s : step s (exec_st (createDocument ins createdBy) s)
  | step_updateDocument id u by_ s : step s (exec_st (updateDocument id u by_) s)
  | step_deleteDocument id s : step s (exec_st (deleteDocument id) s)
  | step_tick dt s : step s (tick dt s).

Inductive reachable : St -> Prop :=
  | reachable_init t0 : reachable (init t0)
  | reachable_step s s' : reachable s -> step s s' -> reachable s'.

Lemma step_inv s s' : step s s' -> inv s -> inv s'.
Proof.
  destruct 1; eauto using createUser_inv, createDocument_inv, updateDocument_inv,
    deleteDocument_inv, tick_inv.
Qed.

(** Every reachable state satisfies the invariant. *)
Theorem reachable_inv s : reachable s -> inv s.
Proof. induction 1; eauto using init_inv, step_inv. Qed.
