(* ===== verification/StorageProps.v ===== *)
(** * Functional behaviour of [MemStorage]

    The theorems of this file describe what each method of
    src/unnamed/part_004 returns and how it changes the store, on every
    branch: the contiguous version history seen through
    [getDocumentVersions], [createDocument], [updateDocument] (found and
    not found), [deleteDocument] (found and not found) with its cascade,
    the spec's scenario of a document created and updated N times,
    the literal search and the ordered listings. *)

From Stdlib Require Import String.
From stdpp Require Import strings sorting.
From S2P Require Import Spec2Rocq JsMap JsString JsSort Schema Storage StorageInv.

(** ** Helper lemmas *)

(** A list whose keys are [m, m+1, ...] has strictly increasing keys. *)
Lemma seqZ_sorted {A} (f : A -> Z) (l : list A) m n :
  f <$> l = seqZ m n -> StronglySorted (fun a b => (f a < f b)%Z) l.
Proof.
  revert m n. induction l as [|x l IH]; intros m n Hl; [constructor|].
  destruct (decide (n <= 0)%Z) as [Hn|Hn]; [by rewrite seqZ_nil in Hl|].
  rewrite seqZ_cons in Hl by lia. rewrite fmap_cons in Hl. injection Hl as Hx Hl.
  apply StronglySorted_cons. split; [|by eapply IH].
  apply list.Forall_forall. intros y Hy.
  assert (Hfy : f y ∈ seqZ (Z.succ m) (Z.pred n)).
  { rewrite <- Hl. apply list_elem_of_fmap. by exists y. }
  apply elem_of_seqZ in Hfy. lia.
Qed.

(** Under the invariant, [getDocumentVersions] lists the rows of a
    document in reverse insertion order. *)
Lemma getDocumentVersions_rev s id : coherent s -> getDocumentVersions id s = rev (versions_of id s).
Proof.
  intros Hinv. unfold getDocumentVersions.
  destruct (Map.get id (documents s)) as [d|] eqn:Hd.
  - destruct (inv_log _ Hinv _ _ Hd) as [Hlog _].
    apply sort_increasing_rev. by eapply seqZ_sorted.
  - by rewrite versions_of_absent.
Qed.

Lemma fmap_rev {A B} (f : A -> B) (l : list A) : f <$> rev l = rev (f <$> l).
Proof. induction l as [|x l IH]; [done|]. simpl. by rewrite fmap_app, IH. Qed.

(** ** The version history *)

(** The version list of a stored document in a coherent state. *)
Lemma coherent_versions s id d :
  coherent s -> Map.get id (documents s) = Some d ->
  DocumentVersion.version <$> getDocumentVersions id s = rev (seqZ 1 (Document.version d)) /\
  exists v rest, getDocumentVersions id s = v :: rest /\ snapshot_ok d v.
Proof.
  intros Hc Hd. rewrite getDocumentVersions_rev by done.
  destruct (inv_log _ Hc _ _ Hd) as [Hlog (v & Hlast & Hv)]. split.
  - by rewrite fmap_rev, Hlog.
  - apply last_Some in Hlast as [l' ->]. rewrite rev_app_distr. by exists v, (rev l').
Qed.

(** C1: For every document stored in a reachable state, [getDocumentVersions]
    returns one row per version, numbered from the current version down to
    1 without gaps, and the first row is the document's current title,
    content, summary and tags (after the [|| null] and [|| []] defaults of
    [createDocumentVersion]). *)
Theorem getDocumentVersions_contiguous s id d :
  reachable s -> Map.get id (documents s) = Some d ->
  DocumentVersion.version <$> getDocumentVersions id s = rev (seqZ 1 (Document.version d)) /\
  exists v rest, getDocumentVersions id s = v :: rest /\ snapshot_ok d v.
Proof. intros Hr%reachable_inv. exact (coherent_versions s id d Hr). Qed.

Lemma write_with_log_versions s id d by_ ch ty de k :
  inv s -> inv (write_with_log s id d by_ ch ty de) ->
  getDocumentVersions k (write_with_log s id d by_ ch ty de) =
  (if decide (id = k) then [log_row s id d by_ ch] else []) ++ getDocumentVersions k s.
Proof.
  intros H H'. rewrite !getDocumentVersions_rev by coh_done.
  rewrite versions_of_write by (apply fresh_get_None, H). rewrite rev_app_distr. by case_decide.
Qed.

(** ** [updateDocument] *)

(** C3: Updating a stored document returns the merge of the old record and
    the present fields of the update, with [updatedAt] the current time and
    the version increased by exactly one; it stores that record, puts one
    new row in front of the document's version list (a snapshot of the new
    state, attributed to the editor, described "Document updated") and
    leaves every other document and its versions unchanged. *)
Theorem updateDocument_spec s id u by_ doc :
  reachable s -> Map.get id (documents s) = Some doc ->
  let '(r, s') := updateDocument id u by_ s in
  let d' := merge_updates doc u (clock s) (Document.version doc + 1) in
  r = Some d' /\ Document.version d' = (Document.version doc + 1)%Z /\
  Document.updatedAt d' = clock s /\ Map.get id (documents s') = Some d' /\
  (exists v, getDocumentVersions id s' = v :: getDocumentVersions id s /\ snapshot_ok d' v /\
     DocumentVersion.createdBy v = by_ /\
     DocumentVersion.changeDescription v = Some "Document updated") /\
  (forall k, k <> id -> Map.get k (documents s') = Map.get k (documents s) /\
     getDocumentVersions k s' = getDocumentVersions k s).
Proof.
  intros Hinv%reachable_inv Hdoc. pose proof (updateDocument_inv id u by_ s Hinv) as Hinv'.
  unfold exec_st in Hinv'. rewrite (updateDocument_run _ _ _ _ doc) in * by done. simpl in *.
  split_and!; [done..|rewrite Map.get_set_eq; done| |].
  - rewrite write_with_log_versions, decide_True by done. eexists. split; [done|].
    repeat split.
  - intros k Hk. rewrite write_with_log_versions, decide_False by done. simpl.
    split; [|done]. by apply Map.get_set_ne.
Qed.

(** ** [createDocument] *)

(** The activities that reference a document. *)
Definition activities_of (id : Id) (s : St) : list Activity.t :=
  filter (fun a => Activity.documentId a = Some id) (Map.values (activities s)).

Lemma activities_of_absent s id :
  inv s -> Map.get id (documents s) = None -> activities_of id s = [].
Proof.
  intros Hinv Hid. apply filter_none, list.Forall_forall. intros a Ha Hk.
  destruct (inv_activities_owned _ Hinv a id Ha Hk). congruence.
Qed.

(** C4: Creating a document allocates an identifier not used by any stored
    document, stores the document at version 1 with both timestamps set to
    the current time and the caller as author, gives it exactly one version
    row (a snapshot of it, described "Initial version") and exactly one
    activity (of type "created", by the caller), and changes no other
    document or version list. *)
Theorem createDocument_spec s ins by_ :
  reachable s ->
  let '(d, s') := createDocument ins by_ s in
  Map.get (Document.id d) (documents s) = None /\
  Map.get (Document.id d) (documents s') = Some d /\
  Document.version d = 1%Z /\ Document.createdAt d = clock s /\
  Document.updatedAt d = clock s /\ Document.createdBy d = by_ /\
  (exists v, getDocumentVersions (Document.id d) s' = [v] /\ snapshot_ok d v /\
     DocumentVersion.changeDescription v = Some "Initial version") /\
  (exists a, activities_of (Document.id d) s' = [a] /\
     Activity.type a = "created" /\ Activity.userId a = by_) /\
  (forall k, k <> Document.id d -> Map.get k (documents s') = Map.get k (documents s) /\
     getDocumentVersions k s' = getDocumentVersions k s).
Proof.
  intros Hinv%reachable_inv. pose proof (createDocument_inv ins by_ s Hinv) as Hinv'.
  pose proof (bump_inv s Hinv) as Hb.
  assert (Hfresh : Map.get (seed s) (documents s) = None) by apply fresh_get_None, Hinv.
  unfold exec_st in Hinv'. rewrite createDocument_run in *. simpl in *.
  split_and!; [done|by rewrite Map.get_set_eq|done..| | |].
  - rewrite write_with_log_versions, decide_True by done.
    rewrite (getDocumentVersions_rev (bump s)), (versions_of_absent (bump s)) by coh_done.
    eexists. split; [done|]. repeat split.
  - pose proof (activities_of_absent (bump s) (seed s) Hb Hfresh) as Hnone.
    unfold activities_of in *. simpl in *. rewrite Map.values_set_new.
    + rewrite list.filter_app, Hnone. eexists. rewrite filter_cons_True by done. done.
    + apply fresh_get_None. eapply fresh_below_mono; [apply Hinv|simpl; lia].
  - intros k Hk. rewrite write_with_log_versions, decide_False by done. simpl.
    split; [|done]. by apply Map.get_set_ne.
Qed.

(** ** [deleteDocument] *)

(** C5: Deleting a stored document returns [true]; afterwards [getDocument]
    finds nothing, [getDocumentVersions] is empty, no activity references
    the document, every activity of other documents is kept, and every
    other document keeps its record and its versions. *)
Theorem deleteDocument_spec s id doc :
  reachable s -> Map.get id (documents s) = Some doc ->
  let '(r, s') := deleteDocument id s in
  r = true /\ getDocument id s' = None /\ getDocumentVersions id s' = [] /\
  (forall a, a ∈ Map.values (activities s') -> Activity.documentId a <> Some id) /\
  (forall a, a ∈ Map.values (activities s) -> Activity.documentId a <> Some id ->
     a ∈ Map.values (activities s')) /\
  (forall k, k <> id -> Map.get k (documents s') = Map.get k (documents s) /\
     getDocumentVersions k s' = getDocumentVersions k s).
Proof.
  intros Hinv%reachable_inv Hdoc. pose proof (deleteDocument_inv id s Hinv) as Hinv'.
  unfold exec_st in Hinv'. rewrite (deleteDocument_run _ _ doc) in * by done.
  assert (Hgone : Map.get id (documents (delete_cascade id s)) = None) by apply Map.get_delete_eq.
  split_and!; [done|unfold getDocument; by rewrite Hgone| | | |].
  - rewrite getDocumentVersions_rev, versions_of_absent; coh_done.
  - intros a. simpl. rewrite Map.values_delete_where by apply Hinv.
    intros [Ha _]%list_elem_of_filter. by apply bool_decide_eq_false in Ha.
  - intros a Ha Hne. simpl. rewrite Map.values_delete_where by apply Hinv.
    apply list_elem_of_filter. split; [by apply bool_decide_eq_false|done].
  - intros k Hk. split; [by apply Map.get_delete_ne|].
    rewrite !getDocumentVersions_rev by coh_done. f_equal. apply versions_of_delete_cascade; [apply Hinv|done].
Qed.

(** ** Sequences of updates *)

(** [updateDocument] applied to one document for each (fields, editor)
    pair of a list, in order. *)
Fixpoint run_updates (id : Id) (us : list (Document.partial * Id)) (s : St) : St :=
  match us with
  | [] => s
  | (u, by_) :: us' => run_updates id us' (exec_st (updateDocument id u by_) s)
  end.

Lemma run_updates_version id us s d :
  inv s -> Map.get id (documents s) = Some d ->
  inv (run_updates id us s) /\
  exists d2, Map.get id (documents (run_updates id us s)) = Some d2 /\
    Document.version d2 = (Document.version d + Z.of_nat (length us))%Z.
Proof.
  revert s d. induction us as [|[u by_] us IH]; intros s d Hinv Hd; simpl.
  - split; [done|]. exists d. split; [done|lia].
  - pose proof (updateDocument_inv id u by_ s Hinv) as Hinv'. unfold exec_st in *.
    rewrite (updateDocument_run _ _ _ _ d) in * by done. simpl in *.
    destruct (IH _ _ Hinv' (Map.get_set_eq _ _ _)) as [? (d2 & ? & Hv)].
    split; [done|]. exists d2. split; [done|]. simpl in Hv. lia.
Qed.

(** After a document is created and then updated N times (any fields,
    any editors), its version is N+1 and [getDocumentVersions] lists
    exactly the versions N+1, N, ..., 1. *)
Theorem create_then_updates s ins by_ us :
  reachable s ->
  let '(d, s1) := createDocument ins by_ s in
  let s2 := run_updates (Document.id d) us s1 in
  exists d2, Map.get (Document.id d) (documents s2) = Some d2 /\
    Document.version d2 = (1 + Z.of_nat (length us))%Z /\
    DocumentVersion.version <$> getDocumentVersions (Document.id d) s2 =
      rev (seqZ 1 (1 + Z.of_nat (length us))).
Proof.
  intros Hinv%reachable_inv. pose proof (createDocument_inv ins by_ s Hinv) as Hinv1.
  unfold exec_st in Hinv1.
  destruct (createDocument ins by_ s) as [d s1] eqn:Hc. simpl in *.
  assert (Hd : Map.get (Document.id d) (documents s1) = Some d).
  { rewrite createDocument_run in Hc. injection Hc as <- <-. apply Map.get_set_eq. }
  destruct (run_updates_version (Document.id d) us s1 d Hinv1 Hd) as [Hinv2 (d2 & Hd2 & Hv)].
  assert (Hv1 : Document.version d = 1%Z) by (rewrite createDocument_run in Hc; by injection Hc as <- _).
  exists d2. split_and!; [done|lia|].
  rewrite getDocumentVersions_rev, fmap_rev by coh_done.
  destruct (inv_log _ Hinv2 _ _ Hd2) as [-> _]. by rewrite Hv, Hv1.
Qed.

(** ** Missing documents *)

(** On an identifier that no stored document has (never created, or
    deleted), [updateDocument] returns [undefined] and [deleteDocument]
    returns [false], neither changes the store, and [getDocument] returns
    [undefined]. *)
Theorem missing_document_ops s id u by_ :
  Map.get id (documents s) = None ->
  updateDocument id u by_ s = (None, s) /\ deleteDocument id s = (false, s) /\
  getDocument id s = None.
Proof.
  intros H. split_and!; [by apply updateDocument_run_none|by apply deleteDocument_run_none|].
  unfold getDocument. by rewrite H.
Qed.

(** ** Updating with no fields *)

(** An update whose partial record has no fields still increases the
    version and adds a row; the new row has the same title, content,
    summary and tags as the row of the previous version, and the older
    rows stay behind it. *)
Theorem update_no_fields_snapshot s id by_ doc :
  reachable s -> Map.get id (documents s) = Some doc ->
  let s' := exec_st (updateDocument id Document.no_updates by_) s in
  exists v0 v1 rest,
    getDocumentVersions id s = v0 :: rest /\ getDocumentVersions id s' = v1 :: v0 :: rest /\
    DocumentVersion.title v1 = DocumentVersion.title v0 /\
    DocumentVersion.content v1 = DocumentVersion.content v0 /\
    DocumentVersion.summary v1 = DocumentVersion.summary v0 /\
    DocumentVersion.tags v1 = DocumentVersion.tags v0 /\
    DocumentVersion.version v1 = (DocumentVersion.version v0 + 1)%Z.
Proof.
  intros Hinv%reachable_inv Hdoc.
  pose proof (updateDocument_inv id Document.no_updates by_ s Hinv) as Hinv'.
  unfold exec_st in *. rewrite (updateDocument_run _ _ _ _ doc) in * by done. simpl in *.
  destruct (inv_log _ Hinv _ _ Hdoc) as [_ (v0 & Hlast & Ht & Hc & Hs & Htg & Hv)].
  apply last_Some in Hlast as [l' Hl'].
  rewrite write_with_log_versions, decide_True, getDocumentVersions_rev, Hl', rev_app_distr
    by coh_done.
  exists v0, (log_row s id (merge_updates doc Document.no_updates (clock s) (Document.version doc + 1))
                 by_ "Document updated"), (rev l').
  simpl. split_and!; congruence.
Qed.

(** ** Listings *)

Lemma with_author_doc s doc dw : with_author s doc = Some dw -> dw_doc dw = doc.
Proof. unfold with_author. by destruct (getUser _ s); intros [= <-]. Qed.

Lemma sort_desc_strongly_sorted {A} (key : A -> Z) (l : list A) :
  StronglySorted (fun a b => (key b <= key a)%Z) (sort (desc_by key) l).
Proof. apply Sorted_StronglySorted; [intros ???; lia|apply sort_sorted]. Qed.

(** [getDocuments] lists every stored document whose author resolves,
    with that author, and nothing else; the list is ordered by [updatedAt],
    most recent first, and documents with the same [updatedAt] keep the
    order in which they were first inserted into the map. *)
Theorem getDocuments_spec s :
  StronglySorted (fun a b => (Document.updatedAt (dw_doc b) <= Document.updatedAt (dw_doc a))%Z)
    (getDocuments s) /\
  (forall dw, dw ∈ getDocuments s <->
     dw_doc dw ∈ Map.values (documents s) /\
     getUser (Document.createdBy (dw_doc dw)) s = Some (dw_author dw)) /\
  (forall t, filter (fun dw => Document.updatedAt (dw_doc dw) = t) (getDocuments s) =
             filter (fun dw => Document.updatedAt (dw_doc dw) = t)
                    (omap (with_author s) (Map.values (documents s)))).
Proof.
  split_and!.
  - apply sort_desc_strongly_sorted.
  - intros [doc u]. unfold getDocuments. rewrite elem_of_sort, list_elem_of_omap. simpl. split.
    + intros (doc' & Hin & Hw). unfold with_author in Hw.
      destruct (getUser _ s) eqn:Hu; simplify_eq/=. done.
    + intros [Hin Hu]. exists doc. unfold with_author. by rewrite Hu.
  - intros t. apply (sort_stable (fun dw => Document.updatedAt (dw_doc dw))).
Qed.

(** C34: [getRecentActivities(limit)] with [limit >= 0] returns at most
    [limit] entries, newest first; each is a stored activity joined with
    its user, and with its document when it references a stored one. *)
Theorem getRecentActivities_spec limit s :
  (0 <= limit)%Z ->
  length (getRecentActivities limit s) <= Z.to_nat limit /\
  StronglySorted (fun a b => (Activity.createdAt (aw_activity b) <= Activity.createdAt (aw_activity a))%Z)
    (getRecentActivities limit s) /\
  Forall (fun r => aw_activity r ∈ Map.values (activities s) /\
                   getUser (Activity.userId (aw_activity r)) s = Some (aw_user r) /\
                   aw_document r = (d ← Activity.documentId (aw_activity r); Map.get d (documents s)))
    (getRecentActivities limit s).
Proof.
  intros Hl. unfold getRecentActivities, slice0.
  rewrite (proj2 (Z.ltb_ge limit 0)) by lia.
  set (f := fun a : Activity.t => match getUser (Activity.userId a) s with
                                  | Some u => _ | None => None end).
  assert (Hf : forall a r, f a = Some r -> aw_activity r = a /\
             getUser (Activity.userId a) s = Some (aw_user r) /\
             aw_document r = (d ← Activity.documentId a; Map.get d (documents s))).
  { intros a r. subst f. simpl. destruct (getUser _ s); [|done]. intros [= <-].
    split_and!; [done..|]. by destruct (Activity.documentId a). }
  split_and!.
  - etrans; [apply length_omap_le|]. rewrite length_take. lia.
  - eapply (StronglySorted_omap (fun a b => (Activity.createdAt b <= Activity.createdAt a)%Z) _ f aw_activity); [by intros ?? []%Hf|done|].
    apply StronglySorted_take, sort_desc_strongly_sorted.
  - apply list.Forall_forall. intros r (a & Ha & (<- & Hu & Hd)%Hf)%list_elem_of_omap.
    split_and!; [|done..]. by apply elem_of_take_l, elem_of_sort in Ha.
Qed.

(** ** Literal search *)

Lemma doc_matches_intro lq doc q' :
  toLowerCase q' = lq ->
  includes (Document.title doc) q' = true \/ includes (Document.content doc) q' = true \/
  (exists ts t, Document.tags doc = Some ts /\ t ∈ ts /\ includes t q' = true) ->
  doc_matches lq doc = true.
Proof.
  intros <- H. unfold doc_matches. rewrite !orb_true_iff.
  destruct H as [H|[H|(ts & t & Hts & Ht & H)]]; apply includes_toLowerCase in H; [tauto|tauto|].
  right. rewrite Hts, existsb_exists. exists t. split; [by apply list_elem_of_In|done].
Qed.

(** C35: [searchDocuments(q)] returns a sub-list of [getDocuments()] in the
    same order; it gives the same result for every query with the same
    lower case; and it returns every listed document whose title, content
    or one of whose tags contains the query in any capitalisation. *)
Theorem searchDocuments_spec q s :
  searchDocuments q s `sublist_of` getDocuments s /\
  (forall q', toLowerCase q' = toLowerCase q -> searchDocuments q' s = searchDocuments q s) /\
  (forall dw q', dw ∈ getDocuments s -> toLowerCase q' = toLowerCase q ->
     includes (Document.title (dw_doc dw)) q' = true \/
     includes (Document.content (dw_doc dw)) q' = true \/
     (exists ts t, Document.tags (dw_doc dw) = Some ts /\ t ∈ ts /\ includes t q' = true) ->
     dw ∈ searchDocuments q s).
Proof.
  split_and!.
  - apply sublist_filter.
  - intros q' Hq. unfold searchDocuments. by rewrite Hq.
  - intros dw q' Hdw Hq Hm. apply list_elem_of_filter. split; [|done].
    by eapply doc_matches_intro.
Qed.

(** The user and document of the spec's search example. *)
Definition ann : User.insert := User.mk_insert "ann@example.com" "hash" "Ann" None.
Definition release_notes : Document.insert :=
  Document.mk_insert "Release Notes" "What changed in this version" Absent (Val ["beta"]).

(** The spec's literal-search scenario: with one document titled
    "Release Notes" and tagged "beta", searching "BETA" and searching
    "release" both return it, and searching "gamma" returns nothing. *)
Example search_release_notes :
  let '(u, s1) := createUser ann (init 0) in
  let '(d, s2) := createDocument release_notes (User.id u) s1 in
  dw_doc <$> searchDocuments "BETA" s2 = [d] /\
  dw_doc <$> searchDocuments "release" s2 = [d] /\
  searchDocuments "gamma" s2 = [].
Proof. vm_compute. split_and!; reflexivity. Qed.

(** ** What the model shows about the code *)

Lemma Forall_values_set {V} (P : V -> Prop) (m : jsmap Id V) k v :
  Forall P (Map.values m) -> P v -> Forall P (Map.values (Map.set k v m)).
Proof.
  unfold Map.values. induction m as [|[k' v'] m IH]; intros Hm Hv; [by repeat constructor|].
  rewrite fmap_cons in Hm. apply Forall_cons in Hm as [Hv' Hm].
  cbn [Map.set]. case_decide; rewrite fmap_cons; constructor; auto.
Qed.

(** C38: In every reachable state each activity has type "created" or
    "updated": deleting a document records no "deleted" activity, although
    the schema lists that type, and the activities of the deleted document
    disappear with it. *)
Theorem activity_types s :
  reachable s ->
  Forall (fun a => Activity.type a = "created" \/ Activity.type a = "updated")
         (Map.values (activities s)).
Proof.
  induction 1 as [t0|s s' Hr IH Hstep]; [constructor|].
  pose proof (reachable_inv s Hr) as Hinv.
  destruct Hstep as [ins s|ins by_ s|id u by_ s|id s|dt s]; unfold exec_st.
  - by rewrite createUser_run.
  - rewrite createDocument_run. apply Forall_values_set; [done|by left].
  - destruct (Map.get id (documents s)) as [doc|] eqn:Hd.
    + rewrite (updateDocument_run _ _ _ _ doc) by done. apply Forall_values_set; [done|by right].
    + by rewrite updateDocument_run_none.
  - destruct (Map.get id (documents s)) as [doc|] eqn:Hd.
    + rewrite (deleteDocument_run _ _ doc) by done. simpl.
      rewrite Map.values_delete_where by apply Hinv. by apply Forall_filter_l.
    + by rewrite deleteDocument_run_none.
  - done.
Qed.

(** C36: The latest version row does not always equal the document it
    snapshots: [updateDocument] stores a summary [""] and tags [null] as
    given, while [createDocumentVersion] turns them into [null] and [[]]
    ([summary || null], [tags || []]). *)
Theorem snapshot_normalises_fields s id d :
  reachable s -> Map.get id (documents s) = Some d ->
  exists v rest, getDocumentVersions id s = v :: rest /\
    (Document.summary d = Some "" ->
       DocumentVersion.summary v = None /\ DocumentVersion.summary v <> Document.summary d) /\
    (Document.tags d = None ->
       DocumentVersion.tags v = Some [] /\ DocumentVersion.tags v <> Document.tags d).
Proof.
  intros Hinv%reachable_inv Hd. rewrite getDocumentVersions_rev by coh_done.
  destruct (inv_log _ Hinv _ _ Hd) as [_ (v & Hlast & _ & _ & Hs & Ht & _)].
  apply last_Some in Hlast as [l' ->]. rewrite rev_app_distr. exists v, (rev l').
  split_and!; [done| |].
  - intros Hsd. rewrite Hs, Hsd. split; [reflexivity|discriminate].
  - intros Htd. rewrite Ht, Htd. split; [reflexivity|discriminate].
Qed.

(** A store where an editor has blanked the summary and nulled the tags. *)
Definition s_blank : St :=
  exec_st (updateDocument 0 (Document.mk_partial None None (Val "") Null) 0)
          (exec_st (createDocument release_notes 0) (init 0)).

Lemma snapshot_normalises_fields_witness :
  exists d, Map.get 0%N (documents s_blank) = Some d /\
    Document.summary d = Some "" /\ Document.tags d = None /\
    exists v rest, getDocumentVersions 0 s_blank = v :: rest /\
      (Document.summary d = Some "" ->
         DocumentVersion.summary v = None /\ DocumentVersion.summary v <> Document.summary d) /\
      (Document.tags d = None ->
         DocumentVersion.tags v = Some [] /\ DocumentVersion.tags v <> Document.tags d).
Proof.
  eexists. split; [vm_compute; reflexivity|]. split; [reflexivity|]. split; [reflexivity|].
  apply snapshot_normalises_fields; [|vm_compute; reflexivity].
  eapply reachable_step; [eapply reachable_step; [apply reachable_init|apply step_createDocument]|].
  apply step_updateDocument.
Defined.

(** C37: [createDocument] does not check that its author exists: with an
    author id that no user has, the document is stored, but [getDocument]
    does not find it and [getDocuments] does not list it (so the routes,
    which look documents up with [getDocument], can neither show, edit nor
    delete it). *)
Theorem createDocument_unknown_author s ins by_ :
  getUser by_ s = None ->
  let '(d, s') := createDocument ins by_ s in
  Map.get (Document.id d) (documents s') = Some d /\ getDocument (Document.id d) s' = None /\
  Forall (fun dw => dw_doc dw <> d) (getDocuments s').
Proof.
  intros Hu. rewrite createDocument_run. simpl.
  assert (Hu' : getUser by_ (write_with_log (bump s) (seed s) (new_document ins by_ (seed s) (clock s))
                  by_ "Initial version" "created"
                  ("Created document " ++ quote ++ Document.ins_title ins ++ quote)) = None) by done.
  split_and!.
  - apply Map.get_set_eq.
  - unfold getDocument. rewrite ww_documents, Map.get_set_eq. simpl. by rewrite Hu'.
  - apply list.Forall_forall. intros dw Hdw Heq.
    unfold getDocuments in Hdw. rewrite elem_of_sort in Hdw.
    apply list_elem_of_omap in Hdw as (doc & _ & Hw).
    rewrite <- (with_author_doc _ _ _ Hw), Heq in Hw. unfold with_author in Hw.
    change (Document.createdBy (new_document ins by_ (seed s) (clock s))) with by_ in Hw.
    rewrite Hu' in Hw. discriminate.
Qed.

Lemma createDocument_unknown_author_witness :
  getUser 7 (init 0) = None /\
  let '(d, s') := createDocument release_notes 7 (init 0) in
  Map.get (Document.id d) (documents s') = Some d /\ getDocument (Document.id d) s' = None /\
  Forall (fun dw => dw_doc dw <> d) (getDocuments s').
Proof. split; [reflexivity|]. apply createDocument_unknown_author. reflexivity. Defined.

(** ** Witnesses: the theorems at concrete reachable states *)

(** Ann registers and writes "Release Notes" (user 0, document 1); then
    she renames it. *)
Definition s_one : St := exec_st (createDocument release_notes 0) (exec_st (createUser ann) (init 0)).
Definition renamed : Document.partial := Document.mk_partial (Some "Release Notes 2") None Absent Absent.
Definition s_two : St := exec_st (updateDocument 1 renamed 0) s_one.

Lemma s_one_reachable : reachable s_one.
Proof.
  eapply reachable_step; [eapply reachable_step; [apply reachable_init|apply step_createUser]|].
  apply step_createDocument.
Qed.

Lemma s_two_reachable : reachable s_two.
Proof. eapply reachable_step; [apply s_one_reachable|apply step_updateDocument]. Qed.

Lemma getDocumentVersions_contiguous_witness :
  exists d, Map.get 1%N (documents s_two) = Some d /\
  DocumentVersion.version <$> getDocumentVersions 1 s_two = rev (seqZ 1 (Document.version d)) /\
  exists v rest, getDocumentVersions 1 s_two = v :: rest /\ snapshot_ok d v.
Proof.
  eexists. split; [vm_compute; reflexivity|].
  apply getDocumentVersions_contiguous; [apply s_two_reachable|vm_compute; reflexivity].
Defined.

Lemma updateDocument_spec_witness :
  exists doc, Map.get 1%N (documents s_one) = Some doc /\
  let '(r, s') := updateDocument 1 renamed 0 s_one in
  let d' := merge_updates doc renamed (clock s_one) (Document.version doc + 1) in
  r = Some d' /\ Document.version d' = (Document.version doc + 1)%Z /\
  Document.updatedAt d' = clock s_one /\ Map.get 1%N (documents s') = Some d' /\
  (exists v, getDocumentVersions 1 s' = v :: getDocumentVersions 1 s_one /\ snapshot_ok d' v /\
     DocumentVersion.createdBy v = 0%N /\
     DocumentVersion.changeDescription v = Some "Document updated") /\
  (forall k, k <> 1%N -> Map.get k (documents s') = Map.get k (documents s_one) /\
     getDocumentVersions k s' = getDocumentVersions k s_one).
Proof.
  eexists. split; [vm_compute; reflexivity|].
  apply updateDocument_spec; [apply s_one_reachable|vm_compute; reflexivity].
Defined.

Lemma createDocument_spec_witness :
  reachable s_one /\
  let '(d, s') := createDocument release_notes 0 s_one in
  Map.get (Document.id d) (documents s_one) = None /\
  Map.get (Document.id d) (documents s') = Some d /\
  Document.version d = 1%Z /\ Document.createdAt d = clock s_one /\
  Document.updatedAt d = clock s_one /\ Document.createdBy d = 0%N /\
  (exists v, getDocumentVersions (Document.id d) s' = [v] /\ snapshot_ok d v /\
     DocumentVersion.changeDescription v = Some "Initial version") /\
  (exists a, activities_of (Document.id d) s' = [a] /\
     Activity.type a = "created" /\ Activity.userId a = 0%N) /\
  (forall k, k <> Document.id d -> Map.get k (documents s') = Map.get k (documents s_one) /\
     getDocumentVersions k s' = getDocumentVersions k s_one).
Proof. split; [apply s_one_reachable|]. apply createDocument_spec, s_one_reachable. Defined.

Lemma deleteDocument_spec_witness :
  exists doc, Map.get 1%N (documents s_two) = Some doc /\
  let '(r, s') := deleteDocument 1 s_two in
  r = true /\ getDocument 1 s' = None /\ getDocumentVersions 1 s' = [] /\
  (forall a, a ∈ Map.values (activities s') -> Activity.documentId a <> Some 1%N) /\
  (forall a, a ∈ Map.values (activities s_two) -> Activity.documentId a <> Some 1%N ->
     a ∈ Map.values (activities s')) /\
  (forall k, k <> 1%N -> Map.get k (documents s') = Map.get k (documents s_two) /\
     getDocumentVersions k s' = getDocumentVersions k s_two).
Proof.
  eexists. split; [vm_compute; reflexivity|].
  eapply deleteDocument_spec; [apply s_two_reachable|vm_compute; reflexivity].
Defined.

Lemma create_then_updates_witness :
  reachable (init 0) /\
  let '(d, s1) := createDocument release_notes 0 (init 0) in
  let s2 := run_updates (Document.id d) [(renamed, 0%N); (Document.no_updates, 0%N)] s1 in
  exists d2, Map.get (Document.id d) (documents s2) = Some d2 /\
    Document.version d2 = (1 + Z.of_nat (length [(renamed, 0%N); (Document.no_updates, 0%N)]))%Z /\
    DocumentVersion.version <$> getDocumentVersions (Document.id d) s2 =
      rev (seqZ 1 (1 + Z.of_nat (length [(renamed, 0%N); (Document.no_updates, 0%N)]))).
Proof. split; [apply reachable_init|]. apply create_then_updates, reachable_init. Defined.

Lemma missing_document_ops_witness :
  Map.get 5%N (documents s_two) = None /\
  updateDocument 5 renamed 0 s_two = (None, s_two) /\ deleteDocument 5 s_two = (false, s_two) /\
  getDocument 5 s_two = None.
Proof. split; [vm_compute; reflexivity|]. apply missing_document_ops. vm_compute. reflexivity. Defined.

Lemma update_no_fields_snapshot_witness :
  exists doc, Map.get 1%N (documents s_two) = Some doc /\
  let s' := exec_st (updateDocument 1 Document.no_updates 0) s_two in
  exists v0 v1 rest,
    getDocumentVersions 1 s_two = v0 :: rest /\ getDocumentVersions 1 s' = v1 :: v0 :: rest /\
    DocumentVersion.title v1 = DocumentVersion.title v0 /\
    DocumentVersion.content v1 = DocumentVersion.content v0 /\
    DocumentVersion.summary v1 = DocumentVersion.summary v0 /\
    DocumentVersion.tags v1 = DocumentVersion.tags v0 /\
    DocumentVersion.version v1 = (DocumentVersion.version v0 + 1)%Z.
Proof.
  eexists. split; [vm_compute; reflexivity|].
  eapply update_no_fields_snapshot; [apply s_two_reachable|vm_compute; reflexivity].
Defined.

Lemma getRecentActivities_spec_witness :
  (0 <= 10)%Z /\
  length (getRecentActivities 10 s_two) <= Z.to_nat 10 /\
  StronglySorted (fun a b => (Activity.createdAt (aw_activity b) <= Activity.createdAt (aw_activity a))%Z)
    (getRecentActivities 10 s_two) /\
  Forall (fun r => aw_activity r ∈ Map.values (activities s_two) /\
                   getUser (Activity.userId (aw_activity r)) s_two = Some (aw_user r) /\
                   aw_document r = (d ← Activity.documentId (aw_activity r); Map.get d (documents s_two)))
    (getRecentActivities 10 s_two).
Proof. split; [lia|]. apply getRecentActivities_spec. lia. Defined.

Lemma activity_types_witness :
  reachable s_two /\
  Forall (fun a => Activity.type a = "created" \/ Activity.type a = "updated")
         (Map.values (activities s_two)).
Proof. split; [apply s_two_reachable|]. apply activity_types, s_two_reachable. Defined.
