(* ===== verification/StorageAsync.v ===== *)
(** * [MemStorage] under the event loop

    The methods of src/unnamed/part_004 cut at their [await]s.  A
    method with no [await] in its body is one synchronous piece ([lift]
    of its Storage.v definition).  [getDocuments], [getDocument],
    [searchDocuments] and [getRecentActivities] await [getUser] or
    another method inside their loops, and [createDocument] and
    [updateDocument] await [createDocumentVersion] and [createActivity]:
    their pieces are written here as the code runs them.  The synchronous
    prefix of [createDocument] (lines 85-109) and [updateDocument] (lines
    123-147) runs up to and including the body of [createDocumentVersion],
    whose promise the first [await] then waits for.

    The [*_refines] lemmas carry the sequential results of Storage.v over
    to a method run with nothing in between (the routes' theorems use
    them); the [preserves_*]
    lemmas show that each piece keeps [coherent], the part of the storage
    invariant that holds under every interleaving. *)

From S2P Require Import Spec2Rocq Async JsMap JsString JsSort Schema Storage StorageInv.
From Stdlib Require Import String.
From stdpp Require Import strings.

Local Open Scope string_scope.

Notation AS := (Async St).

(** A method that only reads the store and does not await. *)
Definition reader {A} (f : St -> A) : AS A := lift (fun s => (f s, s)).

Definition getUser_a (id : Id) : AS (option User.t) := reader (getUser id).
Definition getUserByEmail_a (email : string) : AS (option User.t) := reader (getUserByEmail email).
Definition createUser_a (ins : User.insert) : AS User.t := lift (createUser ins).
Definition getDocumentVersions_a (id : Id) : AS (list DocumentVersion.t) :=
  reader (getDocumentVersions id).
Definition createDocumentVersion_a (ins : DocumentVersion.insert) : AS DocumentVersion.t :=
  lift (createDocumentVersion ins).
Definition createActivity_a (ins : Activity.insert) : AS Activity.t := lift (createActivity ins).
Definition deleteDocument_a (id : Id) : AS bool := lift (deleteDocument id).

(** The loop of [getDocuments] (lines 64-69): one [await this.getUser]
    per document of the snapshot [Array.from(this.documents.values())]. *)
Fixpoint collect_authors (docs : list Document.t) : AS (list DocumentWithUser) :=
  match docs with
  | [] => mret []
  | doc :: docs' =>
      user ← await (getUser_a (Document.createdBy doc));
      rest ← collect_authors docs';
      mret (match user with Some u => mkDocumentWithUser doc u :: rest | None => rest end)
  end.

Definition getDocuments_a : AS (list DocumentWithUser) :=
  docs ← reader (fun s => Map.values (documents s));
  found ← collect_authors docs;
  mret (sort (desc_by (fun d => Document.updatedAt (dw_doc d))) found).

Definition getDocument_a (id : Id) : AS (option DocumentWithDetails) :=
  doc ← reader (fun s => Map.get id (documents s));
  match doc with
  | None => mret None
  | Some doc =>
      user ← await (getUser_a (Document.createdBy doc));
      match user with
      | None => mret None
      | Some user =>
          versions ← await (getDocumentVersions_a id);
          mret (Some (mkDocumentWithDetails doc user versions))
      end
  end.

(** Lines 85-109: up to the first [await]. *)
Definition create_head (ins : Document.insert) (createdBy : Id) : ST St Document.t :=
  id ← randomUUID;
  now ← newDate;
  let document := Document.mk id (Document.ins_title ins) (Document.ins_content ins)
                    (field_or_null (Document.ins_summary ins))
                    (field_or_empty (Document.ins_tags ins)) createdBy now now 1 in
  st_modify (upd_documents (Map.set id document));;
  createDocumentVersion
    (DocumentVersion.mk_insert id (Document.title document) (Document.content document)
       (Document.summary document) (Document.tags document) 1 createdBy
       (Some "Initial version"));;
  mret document.

Definition createDocument_a (ins : Document.insert) (createdBy : Id) : AS Document.t :=
  document ← lift (create_head ins createdBy);
  yield;;
  await (createActivity_a
    (Activity.mk_insert "created" (Some (Document.id document)) createdBy
       ("Created document " ++ quote ++ Document.title document ++ quote)));;
  mret document.

(** Lines 123-147: up to the first [await]. *)
Definition update_head (id : Id) (updates : Document.partial) (updatedBy : Id)
    : ST St (option Document.t) :=
  s ← st_get;
  match Map.get id (documents s) with
  | None => mret None
  | Some doc =>
      now ← newDate;
      let newVersion := (Document.version doc + 1)%Z in
      let updatedDocument := merge_updates doc updates now newVersion in
      st_modify (upd_documents (Map.set id updatedDocument));;
      createDocumentVersion
        (DocumentVersion.mk_insert id (Document.title updatedDocument)
           (Document.content updatedDocument) (Document.summary updatedDocument)
           (Document.tags updatedDocument) newVersion updatedBy (Some "Document updated"));;
      mret (Some updatedDocument)
  end.

Definition updateDocument_a (id : Id) (updates : Document.partial) (updatedBy : Id)
    : AS (option Document.t) :=
  r ← lift (update_head id updates updatedBy);
  match r with
  | None => mret None
  | Some updatedDocument =>
      yield;;
      await (createActivity_a
        (Activity.mk_insert "updated" (Some id) updatedBy
           ("Updated document " ++ quote ++ Document.title updatedDocument ++ quote)));;
      mret (Some updatedDocument)
  end.

Definition searchDocuments_a (query : string) : AS (list DocumentWithUser) :=
  allDocs ← await getDocuments_a;
  let lowerQuery := toLowerCase query in
  mret (filter (fun d => doc_matches lowerQuery (dw_doc d) = true) allDocs).

(** The loop of [getRecentActivities] (lines 221-227). *)
Fixpoint join_activities (acts : list Activity.t) : AS (list ActivityWithUser) :=
  match acts with
  | [] => mret []
  | a :: acts' =>
      user ← await (getUser_a (Activity.userId a));
      document ← reader (fun s => match Activity.documentId a with
                                  | Some d => Map.get d (documents s)
                                  | None => None
                                  end);
      rest ← join_activities acts';
      mret (match user with Some u => mkActivityWithUser a u document :: rest | None => rest end)
  end.

Definition getRecentActivities_a (limit : Z) : AS (list ActivityWithUser) :=
  acts ← reader (fun s => slice0 (sort (desc_by Activity.createdAt) (Map.values (activities s))) limit);
  join_activities acts.

(** ** Run alone, each method computes its sequential definition *)

Lemma refines_ext {A} (m : AS A) (f g : ST St A) :
  refines m f -> (forall s, f s = g s) -> refines m g.
Proof. intros Hm Hfg s. rewrite <- Hfg. apply Hm. Qed.

Lemma refines_reader {A} (f : St -> A) : refines (reader f) (fun s => (f s, s)).
Proof. apply refines_lift. Qed.

Lemma refines_await_reader {A} (f : St -> A) : refines (await (reader f)) (fun s => (f s, s)).
Proof. apply refines_await, refines_reader. Qed.

(** Unfolds the pieces of an [async] method on a concrete state. *)
Ltac async_simpl :=
  cbn [collect_authors join_activities];
  unfold await, yield, getUser_a, getUserByEmail_a, getDocumentVersions_a, createActivity_a,
    createDocumentVersion_a, createUser_a, deleteDocument_a, reader;
  unfold mbind, Async_bind, mret, Async_ret, lift, ST_bind, ST_ret, st_get; simpl.

Lemma collect_authors_refines docs :
  refines (collect_authors docs) (fun s => (omap (with_author s) docs, s)).
Proof.
  induction docs as [|d ds IH]; intros s; [by exists 0|].
  destruct (IH s) as [n Hn]. exists (S (n + 0)). async_simpl.
  eapply drain_bindR; [exact Hn|]. unfold with_author. by destruct (getUser _ s).
Qed.

Lemma getDocuments_refines : refines getDocuments_a (fun s => (getDocuments s, s)).
Proof.
  intros s. destruct (collect_authors_refines (Map.values (documents s)) s) as [n Hn].
  exists (n + 0). unfold getDocuments_a. async_simpl. by eapply drain_bindR.
Qed.

Lemma getDocument_refines id : refines (getDocument_a id) (fun s => (getDocument id s, s)).
Proof.
  intros s. exists 2. unfold getDocument_a, getDocument. async_simpl.
  destruct (Map.get id (documents s)); [|done]. simpl. by destruct (getUser _ s).
Qed.

Lemma createDocument_refines ins by_ : refines (createDocument_a ins by_) (createDocument ins by_).
Proof. intros s. by exists 2. Qed.

Lemma updateDocument_refines id u by_ : refines (updateDocument_a id u by_) (updateDocument id u by_).
Proof.
  intros s. exists 2. unfold updateDocument_a, updateDocument, update_head. async_simpl.
  by destruct (Map.get id (documents s)).
Qed.

Lemma searchDocuments_refines q : refines (searchDocuments_a q) (fun s => (searchDocuments q s, s)).
Proof.
  intros s. destruct (getDocuments_refines s) as [n Hn]. exists (n + 1 + 0).
  unfold searchDocuments_a. async_simpl. eapply drain_bindR; [|done].
  eapply drain_bindR; [exact Hn|done].
Qed.

Lemma join_activities_refines acts :
  refines (join_activities acts)
    (fun s => (omap (fun a =>
                 match getUser (Activity.userId a) s with
                 | Some u => Some (mkActivityWithUser a u
                                     (match Activity.documentId a with
                                      | Some d => Map.get d (documents s)
                                      | None => None
                                      end))
                 | None => None
                 end) acts, s)).
Proof.
  induction acts as [|a acts IH]; intros s; [by exists 0|].
  destruct (IH s) as [n Hn]. exists (S (n + 0)). async_simpl.
  eapply drain_bindR; [exact Hn|]. by destruct (getUser _ s).
Qed.

Lemma getRecentActivities_refines limit :
  refines (getRecentActivities_a limit) (fun s => (getRecentActivities limit s, s)).
Proof. intros s. unfold getRecentActivities_a. async_simpl. apply join_activities_refines. Qed.

(** ** Every piece keeps the coherent part of the invariant *)

Lemma create_head_run ins by_ s :
  create_head ins by_ s =
  let d := new_document ins by_ (seed s) (clock s) in
  (d, write_doc_row (bump s) (seed s) d by_ "Initial version").
Proof. reflexivity. Qed.

Lemma update_head_run id u by_ s doc :
  Map.get id (documents s) = Some doc ->
  update_head id u by_ s =
  let d := merge_updates doc u (clock s) (Document.version doc + 1) in
  (Some d, write_doc_row s id d by_ "Document updated").
Proof. intros H. unfold update_head, mbind, ST_bind, st_get. simpl. by rewrite H. Qed.

Lemma update_head_run_none id u by_ s :
  Map.get id (documents s) = None -> update_head id u by_ s = (None, s).
Proof. intros H. unfold update_head, mbind, ST_bind, st_get. simpl. by rewrite H. Qed.

Lemma create_head_coherent ins by_ s : coherent s -> coherent (exec_st (create_head ins by_) s).
Proof.
  intros Hc. unfold exec_st. rewrite create_head_run. simpl.
  apply write_doc_row_core; simpl; [by apply bump_core|done|lia|lia|].
  rewrite (versions_of_absent (bump s)); [done|by apply bump_core|].
  apply fresh_get_None, Hc.
Qed.

Lemma update_head_coherent id u by_ s : coherent s -> coherent (exec_st (update_head id u by_) s).
Proof.
  intros Hc. unfold exec_st. destruct (Map.get id (documents s)) as [doc|] eqn:Hdoc.
  - rewrite (update_head_run _ _ _ _ doc) by done. simpl.
    pose proof (inv_version_pos _ _ _ Hc Hdoc).
    apply write_doc_row_core; simpl; [done|by eapply (inv_doc_id _ Hc)| |lia|].
    + eapply fresh_below_get; [apply (inv_fresh_documents _ Hc)|done].
    + replace (Document.version doc + 1 - 1)%Z with (Document.version doc) by lia.
      apply (inv_log _ Hc _ _ Hdoc).
  - by rewrite update_head_run_none.
Qed.

Lemma deleteDocument_coherent id s : coherent s -> coherent (exec_st (deleteDocument id) s).
Proof.
  intros Hc. unfold exec_st. destruct (Map.get id (documents s)) as [doc|] eqn:Hdoc.
  - rewrite (deleteDocument_run _ _ doc) by done. by apply delete_cascade_core.
  - by rewrite deleteDocument_run_none.
Qed.

Lemma reader_coherent {A} (f : St -> A) : preserves coherent (reader f).
Proof. apply preserves_lift. done. Qed.

#[local] Hint Resolve reader_coherent create_head_coherent update_head_coherent
  deleteDocument_coherent createUser_core createActivity_core : core.

(** Splits a method into its pieces and discharges each with the lemmas
    above. *)
Ltac preserves_chain :=
  repeat first
    [ eassumption
    | apply preserves_bind; [|intros ?]
    | apply preserves_await | apply preserves_yield | apply preserves_ret
    | apply reader_coherent
    | apply preserves_lift; solve [auto]
    | match goal with |- preserves _ (match ?x with _ => _ end) => destruct x end
    | progress unfold getUser_a, getUserByEmail_a, getDocumentVersions_a, createActivity_a,
        createDocumentVersion_a, createUser_a, deleteDocument_a ].

Lemma collect_authors_coherent docs : preserves coherent (collect_authors docs).
Proof. induction docs; simpl; preserves_chain. Qed.

Lemma join_activities_coherent acts : preserves coherent (join_activities acts).
Proof. induction acts; simpl; preserves_chain. Qed.

#[local] Hint Resolve collect_authors_coherent join_activities_coherent : core.

(** Every method of the store keeps [coherent] at each of its [await]s,
    whatever ran in between. *)
Section coherent_methods.
Lemma getDocuments_a_coherent : preserves coherent getDocuments_a.
Proof. unfold getDocuments_a. preserves_chain. auto. Qed.
Lemma getDocument_a_coherent id : preserves coherent (getDocument_a id).
Proof. unfold getDocument_a. preserves_chain. Qed.
Lemma getUserByEmail_a_coherent e : preserves coherent (getUserByEmail_a e).
Proof. preserves_chain. Qed.
Lemma getUser_a_coherent id : preserves coherent (getUser_a id).
Proof. preserves_chain. Qed.
Lemma createUser_a_coherent ins : preserves coherent (createUser_a ins).
Proof. preserves_chain. Qed.
Lemma createDocument_a_coherent ins by_ : preserves coherent (createDocument_a ins by_).
Proof. unfold createDocument_a. preserves_chain. Qed.
Lemma updateDocument_a_coherent id u by_ : preserves coherent (updateDocument_a id u by_).
Proof. unfold updateDocument_a. preserves_chain. Qed.
Lemma deleteDocument_a_coherent id : preserves coherent (deleteDocument_a id).
Proof. preserves_chain. Qed.
Lemma searchDocuments_a_coherent q : preserves coherent (searchDocuments_a q).
Proof. unfold searchDocuments_a. preserves_chain. auto. Qed.
Lemma getDocumentVersions_a_coherent id : preserves coherent (getDocumentVersions_a id).
Proof. preserves_chain. Qed.
Lemma getRecentActivities_a_coherent limit : preserves coherent (getRecentActivities_a limit).
Proof. unfold getRecentActivities_a. preserves_chain. auto. Qed.
End coherent_methods.

Create HintDb coh discriminated.
#[export] Hint Resolve getDocuments_a_coherent getDocument_a_coherent getUserByEmail_a_coherent
  getUser_a_coherent createUser_a_coherent createDocument_a_coherent updateDocument_a_coherent
  deleteDocument_a_coherent searchDocuments_a_coherent getDocumentVersions_a_coherent
  getRecentActivities_a_coherent reader_coherent : coh.
