(* ===== verification/Gemini.v ===== *)
(** * The AI service (src/server/services/gemini.ts)

    Each of the four functions builds a prompt, calls
    [ai.models.generateContent] once and post-processes the answer.  The
    model is an external service: an [ai_oracle] gives, for each request
    it is sent ([ai_request]: the model, the system instruction and the
    prompt), its outcome: the call throws ([AiError]), [response.text] is
    empty or missing ([AiEmpty]), the text is not JSON ([AiMalformed]), or
    it parses to a value of the declared [responseSchema] ([AiParsed]).
    Every theorem holds for every oracle.  Numbers in the semantic-search
    answer are integers here (the prompt asks for scores 0-100).

    The prompts are built exactly as the template literals do, the
    double quotes of the templates written with [quote]. *)

From S2P Require Import Spec2Rocq JsString JsSort Schema Storage.
From Stdlib Require Import String Ascii.
From stdpp Require Import strings pretty.

Local Open Scope string_scope.

Definition nl : string := String (ascii_of_nat 10) EmptyString.

Record ai_request := mk_ai_request {
  ai_model : string;
  ai_system : option string;
  ai_contents : string;
}.

Inductive ai_result (A : Type) :=
  | AiError
  | AiEmpty
  | AiMalformed
  | AiParsed (a : A).
Arguments AiError {A}. Arguments AiEmpty {A}. Arguments AiMalformed {A}. Arguments AiParsed {A}.

(** One semantic-search score: [{ index, relevance }]. *)
Record score := mk_score { sc_index : Z; sc_relevance : Z }.

(** What the model answers: free text, a string array, or scores. *)
Record ai_oracle := mk_ai_oracle {
  ai_text : ai_request -> ai_result string;
  ai_tags : ai_request -> ai_result (list string);
  ai_scores : ai_request -> ai_result (list score);
}.

(** A function that throws has [inl] of its error message. *)
Notation throws A := (string + A)%type.

(** [s || d] for a string. *)
Definition or_default (s d : string) : string := if str_truthy s then s else d.

(** ** [summarizeDocument] (lines 5-25) *)

Definition summary_prompt (title content : string) : string :=
  "Please create a concise, informative summary of the following document:" ++ nl ++ nl ++
  "Title: " ++ title ++ nl ++ nl ++ "Content: " ++ content ++ nl ++ nl ++
  "Provide a summary that captures the key points and main ideas in 2-3 sentences.".

Definition summarizeDocument (ai : ai_oracle) (title content : string) : throws string :=
  match ai_text ai (mk_ai_request "gemini-2.5-flash" None (summary_prompt title content)) with
  | AiParsed t => inr (or_default t "Unable to generate summary")
  | AiEmpty => inr "Unable to generate summary"
  | AiError | AiMalformed => inl "Failed to generate document summary"
  end.

(** ** [generateTags] (lines 27-65) *)

Definition tags_system : string :=
  "You are a document tagging expert. Generate relevant tags for the given document content. " ++ nl ++
  "Return only a JSON array of 3-7 relevant tags as strings. Tags should be concise, relevant, and help with categorization." ++ nl ++
  "Example format: [" ++ quote ++ "react" ++ quote ++ ", " ++ quote ++ "frontend" ++ quote ++ ", " ++
  quote ++ "javascript" ++ quote ++ ", " ++ quote ++ "tutorial" ++ quote ++ "]".

Definition tags_prompt (title content : string) : string :=
  "Title: " ++ title ++ nl ++ nl ++ "Content: " ++ content ++ nl ++ nl ++
  "Generate relevant tags for this document:".

Definition generateTags (ai : ai_oracle) (title content : string) : throws (list string) :=
  match ai_tags ai (mk_ai_request "gemini-2.5-flash" (Some tags_system) (tags_prompt title content)) with
  | AiParsed tags => inr tags
  | AiEmpty => inr []
  | AiError | AiMalformed => inl "Failed to generate tags"
  end.

(** ** [performSemanticSearch] (lines 67-130) *)

(** [doc.tags?.join(", ") || "No tags"] *)
Definition tags_line (tags : option (list string)) : string :=
  match tags with Some ts => or_default (JsString.join ", " ts) "No tags" | None => "No tags" end.

(** [doc.summary || "No summary"] *)
Definition summary_line (summary : option string) : string :=
  match summary with Some s => or_default s "No summary" | None => "No summary" end.

(** The block of the document at position [index] (lines 75-80). *)
Definition search_block (index : nat) (d : DocumentWithUser) : string :=
  "Document " ++ pretty (S index) ++ ":" ++ nl ++
  "Title: " ++ Document.title (dw_doc d) ++ nl ++
  "Content: " ++ String.substring 0 500 (Document.content (dw_doc d)) ++ "..." ++ nl ++
  "Summary: " ++ summary_line (Document.summary (dw_doc d)) ++ nl ++
  "Tags: " ++ tags_line (Document.tags (dw_doc d)) ++ nl ++ "---".

Definition search_prompt (query : string) (documents : list DocumentWithUser) : string :=
  "Given the search query: " ++ quote ++ query ++ quote ++ nl ++ nl ++
  "Analyze these documents and return a relevance score (0-100) for each document based on semantic similarity to the query. Consider not just keyword matches but conceptual relevance." ++ nl ++ nl ++
  "Documents:" ++ nl ++
  JsString.join nl (imap search_block documents) ++ nl ++ nl ++
  "Return a JSON array with the document index and relevance score:" ++ nl ++
  "Format: [{" ++ quote ++ "index" ++ quote ++ ": 0, " ++ quote ++ "relevance" ++ quote ++ ": 85}, {" ++
  quote ++ "index" ++ quote ++ ": 1, " ++ quote ++ "relevance" ++ quote ++ ": 42}, ...]".

(** An element of the result: a document of the fallback, or
    [{ ...documents[result.index], relevance }], which has no document
    fields when the index is out of range. *)
Inductive sem_item :=
  | SemDoc (d : DocumentWithUser)
  | SemHit (d : option DocumentWithUser) (relevance : Z).

(** [documents[i]] *)
Definition at_index {A} (l : list A) (i : Z) : option A :=
  if bool_decide (0 <= i)%Z then nth_error l (Z.to_nat i) else None.

(** The filter of the [catch] block (lines 123-128): title, content and
    summary, not the tags. *)
Definition fallback_matches (lowerQuery : string) (d : DocumentWithUser) : bool :=
  includes (toLowerCase (Document.title (dw_doc d))) lowerQuery
  || includes (toLowerCase (Document.content (dw_doc d))) lowerQuery
  || match Document.summary (dw_doc d) with
     | Some sm => str_truthy sm && includes (toLowerCase sm) lowerQuery
     | None => false
     end.

Definition semantic_fallback (query : string) (documents : list DocumentWithUser) : list sem_item :=
  SemDoc <$> filter (fun d => fallback_matches (toLowerCase query) d = true) documents.

(** Lines 104-119: keep the scores above 30, highest first, and look
    each index up. *)
Definition rank (documents : list DocumentWithUser) (results : list score) : list sem_item :=
  (fun r => SemHit (at_index documents (sc_index r)) (sc_relevance r)) <$>
    sort (desc_by sc_relevance) (filter (fun r => 30 < sc_relevance r)%Z results).

Definition performSemanticSearch (ai : ai_oracle) (query : string)
    (documents : list DocumentWithUser) : list sem_item :=
  match ai_scores ai (mk_ai_request "gemini-2.5-pro" None (search_prompt query documents)) with
  | AiParsed results => rank documents results
  | AiEmpty => []
  | AiError | AiMalformed => semantic_fallback query documents
  end.

(** ** [answerQuestion] (lines 132-170) *)

Definition qa_block (d : DocumentWithUser) : string :=
  nl ++ "Document: " ++ Document.title (dw_doc d) ++ nl ++
  "Content: " ++ Document.content (dw_doc d) ++ nl ++
  "Summary: " ++ summary_line (Document.summary (dw_doc d)) ++ nl ++
  "Author: " ++ or_default (User.name (dw_author d)) "Unknown" ++ nl ++
  "Tags: " ++ tags_line (Document.tags (dw_doc d)) ++ nl ++ "---".

Definition qa_prompt (question : string) (documents : list DocumentWithUser) : string :=
  "You are an AI assistant helping users find information from their team's knowledge base. " ++ nl ++
  "Use the provided documents to answer the user's question accurately and helpfully." ++ nl ++ nl ++
  "Question: " ++ question ++ nl ++ nl ++
  "Available Documents:" ++ nl ++ JsString.join nl (qa_block <$> documents) ++ nl ++ nl ++
  "Instructions:" ++ nl ++
  "1. Answer the question based on the provided documents" ++ nl ++
  "2. If the information is available, provide a comprehensive answer" ++ nl ++
  "3. If information is partially available, provide what you can and indicate what's missing" ++ nl ++
  "4. If no relevant information is found, clearly state that the information is not available in the knowledge base" ++ nl ++
  "5. Always cite which document(s) you're referencing in your answer" ++ nl ++
  "6. Keep your response conversational and helpful" ++ nl ++ nl ++ "Answer:".

Definition answerQuestion (ai : ai_oracle) (question : string)
    (documents : list DocumentWithUser) : throws string :=
  match ai_text ai (mk_ai_request "gemini-2.5-pro" None (qa_prompt question documents)) with
  | AiParsed t => inr (or_default t "I'm unable to provide an answer based on the available documents.")
  | AiEmpty => inr "I'm unable to provide an answer based on the available documents."
  | AiError | AiMalformed => inl "Failed to generate answer"
  end.
