(* ===== verification/Routes.v ===== *)
(** * The HTTP routes (src/unnamed/part_003, [registerRoutes])

    Each route handler is an [async] computation on the store
    ([Async St response]), cut at its [await]s as in StorageAsync.v.  A
    request is its route with its parameters and body, the
    [Authorization] header, and the oracle that answers its AI calls.
    Routes behind [authenticateToken] run the middleware first, in the
    same synchronous piece: a refused token answers 401 or 403 before
    the handler runs.  [res.status(c).json(b)] is the [response] [c] and
    [b]; [res.json(b)] has status 200.

    The awaited calls that suspend are those of the storage (StorageAsync),
    [hashPassword] and [comparePassword] (bcrypt works off the main
    thread) and the AI service.  The handlers catch every exception: a
    [ZodError] answers 400 [Invalid input], any other 500 with the route's
    message; the storage never throws, the AI service does when its call
    fails.

    The file states, for the handlers with a permission check, that a
    user who is neither the author nor an admin is refused and the store
    left as it was. *)

From S2P Require Import Spec2Rocq Async JsMap JsString Schema Zod Auth Storage StorageAsync Gemini.
From Stdlib Require Import String.
From stdpp Require Import strings.

Local Open Scope string_scope.

(** A query-string parameter: [?q=a] gives a string, [?q=a&q=b] an
    array, [?q[k]=a] an object. *)
Inductive qparam :=
  | QStr (s : string)
  | QList (l : list string)
  | QObj.

#[export] Instance qparam_eq_dec : EqDecision qparam.
Proof. solve_decision. Defined.

Inductive route :=
  | PostRegister (body : json)
  | PostLogin (body : json)
  | GetMe
  | GetDocuments
  | GetDocument (id : Id)
  | PostDocument (body : json)
  | PutDocument (id : Id) (body : json)
  | DeleteDocument (id : Id)
  | GetVersions (id : Id)
  | GetSearch (q : option qparam) (type : option qparam)
  | PostSummarize (body : json)
  | PostTags (body : json)
  | PostQa (body : json)
  | GetActivities.

Record request := mk_request {
  rq_route : route;
  rq_authorization : option string;
  rq_ai : ai_oracle;
}.

Inductive rbody :=
  | BMessage (message : string)
  | BInvalid (errors : list string)
  | BAuth (token : string) (user : Payload)
  | BUser (user : Payload)
  | BDocuments (documents : list DocumentWithUser)
  | BDetails (document : DocumentWithDetails)
  | BDocument (document : option Document.t)
  | BVersions (versions : list DocumentVersion.t)
  | BSemantic (results : list sem_item)
  | BSummary (summary : string)
  | BTags (tags : list string)
  | BAnswer (answer : string)
  | BActivities (activities : list ActivityWithUser).

Record response := mk_response { status : Z; body : rbody }.

Definition ok (b : rbody) : AS response := mret (mk_response 200 b).
Definition fail (c : Z) (m : string) : AS response := mret (mk_response c (BMessage m)).

(** The [{ id, email, name, role }] of a user: the token payload and
    the [user] of the answer. *)
Definition payload_of (u : User.t) : Payload :=
  mkPayload (User.id u) (User.email u) (User.name u) (User.role u).

(** [new Date()] / [Date.now()] *)
Definition now_a : AS Z := reader clock.

Section routes.
Context `{Jwt} `{Hasher} (is_email : string -> bool).

(** [await hashPassword(password)]: bcrypt draws a random salt. *)
Definition hashPassword_a (password : string) : AS string :=
  await (lift (salt ← randomUUID; mret (hashPassword password salt))).

Definition comparePassword_a (password hash : string) : AS bool :=
  await (mret (comparePassword password hash)).

(** Lines 11-50. *)
Definition register (body : json) : AS response :=
  match registerSchema_parse body with
  | inl errors => mret (mk_response 400 (BInvalid errors))
  | inr data =>
      existingUser ← await (getUserByEmail_a (User.ins_email data));
      match existingUser with
      | Some _ => fail 400 "User already exists"
      | None =>
          hashedPassword ← hashPassword_a (User.ins_password data);
          user ← await (createUser_a (User.mk_insert (User.ins_email data) hashedPassword
                                        (User.ins_name data) (User.ins_role data)));
          now ← now_a;
          ok (BAuth (generateToken (payload_of user) now) (payload_of user))
      end
  end.

(** Lines 52-88. *)
Definition login (body : json) : AS response :=
  match loginSchema_parse is_email body with
  | inl errors => mret (mk_response 400 (BInvalid errors))
  | inr (email, password) =>
      user ← await (getUserByEmail_a email);
      match user with
      | None => fail 401 "Invalid credentials"
      | Some user =>
          isValidPassword ← comparePassword_a password (User.password user);
          if (isValidPassword : bool) then
            (now ← now_a;
             ok (BAuth (generateToken (payload_of user) now) (payload_of user)))
          else fail 401 "Invalid credentials"
      end
  end.

(** [document.createdBy.id !== req.user!.id && req.user!.role !== "admin"] *)
Definition may_edit (user : Payload) (d : DocumentWithDetails) : bool :=
  (User.id (dd_author d) === p_id user) || (p_role user === "admin").

(** Lines 129-150. *)
Definition putDocument (user : Payload) (id : Id) (body : json) : AS response :=
  document ← await (getDocument_a id);
  match document with
  | None => fail 404 "Document not found"
  | Some document =>
      if may_edit user document then
        match partialDocumentSchema_parse body with
        | inl errors => mret (mk_response 400 (BInvalid errors))
        | inr data =>
            updatedDocument ← await (updateDocument_a id data (p_id user));
            ok (BDocument updatedDocument)
        end
      else fail 403 "Permission denied"
  end.

(** Lines 152-173. *)
Definition deleteDocument_route (user : Payload) (id : Id) : AS response :=
  document ← await (getDocument_a id);
  match document with
  | None => fail 404 "Document not found"
  | Some document =>
      if may_edit user document then
        (success ← await (deleteDocument_a id);
         if (success : bool) then ok (BMessage "Document deleted successfully")
         else fail 500 "Failed to delete document")
      else fail 403 "Permission denied"
  end.

(** [!query || typeof query !== "string"] fails; [type] defaults to
    ["text"] (lines 186-206). *)
Definition search (ai : ai_oracle) (q type : option qparam) : AS response :=
  match q with
  | Some (QStr query) =>
      if str_truthy query then
        if bool_decide (type = Some (QStr "semantic")) then
          (allDocuments ← await getDocuments_a;
           results ← await (mret (performSemanticSearch ai query allDocuments));
           ok (BSemantic results))
        else
          (results ← await (searchDocuments_a query);
           ok (BDocuments results))
      else fail 400 "Query parameter required"
  | _ => fail 400 "Query parameter required"
  end.

(** [const { title, content } = req.body; if (!title || !content) ...]
    then the AI call (lines 209-237). *)
Definition ai_title_content {A} (body : json) (call : string -> string -> throws A)
    (answer : A -> rbody) (failure : string) : AS response :=
  let title := prop "title" body in
  let content := prop "content" body in
  if truthy title && truthy content then
    (r ← await (mret (call (default "" (js_to_string <$> title))
                           (default "" (js_to_string <$> content))));
     match r with inl _ => fail 500 failure | inr a => ok (answer a) end)
  else fail 400 "Title and content required".

(** Lines 239-253. *)
Definition qa (ai : ai_oracle) (body : json) : AS response :=
  let question := prop "question" body in
  if truthy question then
    (documents ← await getDocuments_a;
     r ← await (mret (answerQuestion ai (default "" (js_to_string <$> question)) documents));
     match r with inl _ => fail 500 "Failed to generate answer" | inr a => ok (BAnswer a) end)
  else fail 400 "Question required".

(** The routes behind [authenticateToken], given the request's user. *)
Definition protected_route (ai : ai_oracle) (r : route) (user : Payload) : AS response :=
  match r with
  | GetMe => ok (BUser user)
  | GetDocuments => documents ← await getDocuments_a; ok (BDocuments documents)
  | GetDocument id =>
      document ← await (getDocument_a id);
      match document with
      | None => fail 404 "Document not found"
      | Some d => ok (BDetails d)
      end
  | PostDocument body =>
      match insertDocumentSchema_parse body with
      | inl errors => mret (mk_response 400 (BInvalid errors))
      | inr data => document ← await (createDocument_a data (p_id user)); ok (BDocument (Some document))
      end
  | PutDocument id body => putDocument user id body
  | DeleteDocument id => deleteDocument_route user id
  | GetVersions id => versions ← await (getDocumentVersions_a id); ok (BVersions versions)
  | GetSearch q type => search ai q type
  | PostSummarize body => ai_title_content body (summarizeDocument ai) BSummary "Failed to generate summary"
  | PostTags body => ai_title_content body (generateTags ai) BTags "Failed to generate tags"
  | PostQa body => qa ai body
  | GetActivities => activities ← await (getRecentActivities_a 10); ok (BActivities activities)
  | PostRegister _ | PostLogin _ => fail 404 "Not found"
  end.

(** The request as Express dispatches it. *)
Definition handle (rq : request) : AS response :=
  match rq_route rq with
  | PostRegister body => register body
  | PostLogin body => login body
  | r =>
      now ← now_a;
      match authenticateToken (rq_authorization rq) now with
      | AuthReject c m => fail c m
      | AuthOk user => protected_route (rq_ai rq) r user
      end
  end.
End routes.
