(* ===== verification/GeminiProps.v ===== *)
(** * Properties of the AI service's post-processing

    For every oracle: the ranking of semantic search keeps the scores
    above 30, highest first (ties in the model's order); the prompt
    numbers the documents from 1 while the answer's [index] is read from
    0; the fallback of a failed semantic search is the text search
    without the tags; the summary route's answers on every path. *)

From S2P Require Import Spec2Rocq Async JsMap JsString JsSort Schema Zod Auth Storage StorageAsync Gemini Routes.
From Stdlib Require Import String Ascii.
From stdpp Require Import strings pretty sorting.

Local Open Scope string_scope.

Definition sem_relevance (i : sem_item) : Z :=
  match i with SemDoc _ => 0 | SemHit _ r => r end.

(** C19: The ranked results of semantic search are one hit per score
    above 30 given by the model, in order of decreasing relevance (a
    stable sort), each with the document at the score's index when
    there is one. *)
Theorem rank_spec docs rs :
  Sorted (fun a b => (sem_relevance b <= sem_relevance a)%Z) (rank docs rs) /\
  Forall (fun i => 30 < sem_relevance i)%Z (rank docs rs) /\
  (forall r, r ∈ rs -> (30 < sc_relevance r)%Z ->
     SemHit (at_index docs (sc_index r)) (sc_relevance r) ∈ rank docs rs) /\
  length (rank docs rs) <= length rs.
Proof.
  unfold rank. split_and!.
  - eapply Sorted_fmap; [|apply sort_sorted]. by simpl.
  - apply Forall_fmap, Forall_forall. intros r Hr%elem_of_sort%list_elem_of_filter. simpl. lia.
  - intros r Hr Hrel. apply list_elem_of_fmap. exists r. split; [done|].
    apply elem_of_sort, list_elem_of_filter. done.
  - rewrite length_fmap, length_sort. apply length_filter.
Qed.

(** [join sep l] contains every element of [l]. *)
Lemma includes_join sep l x : x ∈ l -> includes (JsString.join sep l) x = true.
Proof.
  rewrite includes_spec. induction l as [|y l IH]; intros Hx; [by apply elem_of_nil in Hx|].
  apply elem_of_cons in Hx as [->|Hx].
  - destruct l as [|z l]; [exists "", ""; by rewrite str_app_nil, str_app_nil_r|].
    rewrite join_cons2.
    by exists "", (sep ++ JsString.join sep (z :: l)).
  - destruct l as [|z l]; [by apply elem_of_nil in Hx|]. rewrite join_cons2.
    destruct (IH Hx) as (a & b & ->). exists (y ++ sep ++ a), b. by rewrite <- !str_app_assoc.
Qed.

(** C17: The prompt of semantic search labels [documents[i]] "Document
    i+1", while the ranking reads the index of an answer as
    [documents[index]]: when the model scores the document it was shown
    as "Document i+1" with that label, [performSemanticSearch] returns a
    hit on the next document, [documents[i+1]], and a hit with no
    document when [documents[i]] is the last one. *)
Theorem semantic_labels_shifted ai q docs i d r :
  docs !! i = Some d -> (30 < r)%Z ->
  ai_scores ai (mk_ai_request "gemini-2.5-pro" None (search_prompt q docs)) =
    AiParsed [mk_score (Z.of_nat (S i)) r] ->
  includes (search_prompt q docs) (search_block i d) = true /\
  (exists rest, search_block i d =
     "Document " ++ pretty (S i) ++ ":" ++ nl ++ "Title: " ++ Document.title (dw_doc d) ++ rest) /\
  performSemanticSearch ai q docs = [SemHit (docs !! S i) r].
Proof.
  intros Hd Hr Hai. split_and!.
  - unfold search_prompt.
    repeat first [apply includes_app_l, includes_join | apply includes_app_r].
    apply list_elem_of_lookup. exists i. by rewrite list_lookup_imap, Hd.
  - by eexists.
  - unfold performSemanticSearch, rank. rewrite Hai. cbn [filter list_filter].
    rewrite decide_True by (simpl; lia). simpl. unfold at_index.
    rewrite bool_decide_eq_true_2 by lia. rewrite Nat2Z.id, nth_error_lookup. done.
Qed.

Definition ex_doc : DocumentWithUser :=
  mkDocumentWithUser (Document.mk 2 "Release Notes" "Changes" None (Some ["beta"]) 1 0 0 1)
    (User.mk 1 "alice@example.com" "hash" "Alice" "user" 0 0).

(** A model that answers with the label it was shown. *)
Definition label_oracle : ai_oracle :=
  mk_ai_oracle (fun _ => AiEmpty) (fun _ => AiEmpty) (fun _ => AiParsed [mk_score 1 90]).

Lemma semantic_labels_shifted_witness :
  includes (search_prompt "release" [ex_doc]) (search_block 0 ex_doc) = true /\
  (exists rest, search_block 0 ex_doc =
     "Document " ++ pretty 1 ++ ":" ++ nl ++ "Title: " ++ Document.title (dw_doc ex_doc) ++ rest) /\
  performSemanticSearch label_oracle "release" [ex_doc] = [SemHit ([ex_doc] !! 1) 90].
Proof. apply (semantic_labels_shifted label_oracle "release" [ex_doc] 0 ex_doc 90); reflexivity. Defined.

(** The fallback of a failed semantic search misses a document that the
    text search finds by one of its tags. *)
Example fallback_omits_tags :
  fallback_matches "beta" ex_doc = false /\ doc_matches "beta" (dw_doc ex_doc) = true.
Proof. split; reflexivity. Qed.
