(* ===== verification/RoutesProps.v ===== *)
(** * What the route handlers do, run with no other request in between

    [runs m s a s'] (Async.v) says that the handler [m] started in the
    store [s] answers [a] and leaves [s'] when nothing else runs in
    between.  The theorems give the answer and the store of the
    document routes under the author-or-admin check, and of
    registration and login. *)

From S2P Require Import Spec2Rocq Async JsMap JsString Schema Zod Auth Storage StorageInv StorageAsync Gemini Routes.
From Stdlib Require Import String Ascii.
From stdpp Require Import strings.

Local Open Scope string_scope.

Section routes_props.
Context `{Jwt} `{Hasher} (is_email : string -> bool).

Lemma getDocument_found s id doc author :
  Map.get id (documents s) = Some doc -> getUser (Document.createdBy doc) s = Some author ->
  getDocument id s = Some (mkDocumentWithDetails doc author (getDocumentVersions id s)).
Proof. intros Hd Hu. unfold getDocument. rewrite Hd. simpl. by rewrite Hu. Qed.

Lemma runs_getDocument id s : runs (await (getDocument_a id)) s (getDocument id s) s.
Proof.
  apply runs_await. exact (runs_refines _ (fun s => (getDocument id s, s)) s (getDocument_refines id)).
Qed.

(** C11: A user who is neither the author of a document nor an admin is
    answered 403 "Permission denied" by [PUT] and [DELETE
    /api/documents/:id], and the store is left as it was. *)
Theorem permission_denied u id body s doc author :
  Map.get id (documents s) = Some doc -> getUser (Document.createdBy doc) s = Some author ->
  User.id author <> p_id u -> p_role u <> "admin" ->
  runs (putDocument u id body) s (mk_response 403 (BMessage "Permission denied")) s /\
  runs (deleteDocument_route u id) s (mk_response 403 (BMessage "Permission denied")) s.
Proof.
  intros Hd Hu Hid Hrole.
  assert (Hm : may_edit u (mkDocumentWithDetails doc author (getDocumentVersions id s)) = false).
  { unfold may_edit. simpl. by rewrite !bool_decide_eq_false_2. }
  split; (eapply runs_bind; [apply runs_getDocument|]);
    rewrite (getDocument_found s id doc author Hd Hu); simpl; rewrite Hm; apply runs_ret.
Qed.
Lemma runs_updateDocument id u by_ s :
  runs (await (updateDocument_a id u by_)) s (updateDocument id u by_ s).1 (updateDocument id u by_ s).2.
Proof. apply runs_await, runs_refines, updateDocument_refines. Qed.

(** C12: The author of a document, or an admin, who sends [PUT
    /api/documents/:id] gets 400 with the failing keys when the body
    does not parse, and the store is unchanged; otherwise the store is
    the one [updateDocument] leaves, and the answer is 200 with the
    document [updateDocument] returns. *)
Theorem put_allowed u id body s doc author :
  Map.get id (documents s) = Some doc -> getUser (Document.createdBy doc) s = Some author ->
  may_edit u (mkDocumentWithDetails doc author (getDocumentVersions id s)) = true ->
  match partialDocumentSchema_parse body with
  | inl errors => runs (putDocument u id body) s (mk_response 400 (BInvalid errors)) s
  | inr data =>
      runs (putDocument u id body) s
        (mk_response 200 (BDocument (updateDocument id data (p_id u) s).1))
        (updateDocument id data (p_id u) s).2
  end.
Proof.
  intros Hd Hu Hm.
  destruct (partialDocumentSchema_parse body) as [errors|data] eqn:Hp;
    (eapply runs_bind; [apply runs_getDocument|]);
    rewrite (getDocument_found s id doc author Hd Hu); simpl; rewrite Hm, Hp; [apply runs_ret|].
  eapply runs_bind; [apply runs_updateDocument|]. apply runs_ret.
Qed.
(** The user [register] creates from its parsed body, with the salt
    drawn in [s]. *)
Definition registered_user (data : User.insert) (s : St) : User.t :=
  User.mk (N.succ (seed s)) (User.ins_email data) (hashPassword (User.ins_password data) (seed s))
    (User.ins_name data) (role_or_user (User.ins_role data)) (clock s) (clock s).

Lemma runs_register body s data :
  registerSchema_parse body = inr data -> getUserByEmail (User.ins_email data) s = None ->
  let u := registered_user data s in
  runs (register body) s (mk_response 200 (BAuth (generateToken (payload_of u) (clock s)) (payload_of u)))
    (upd_users (Map.set (User.id u) u) (bump (bump s))).
Proof.
  intros Hp Hn. unfold register. rewrite Hp.
  eapply runs_bind; [apply runs_await, runs_lift|]. simpl. rewrite Hn.
  eapply runs_bind; [apply runs_await, runs_lift|]. simpl.
  eapply runs_bind; [apply runs_await, runs_lift|]. simpl.
  eapply runs_bind; [apply runs_lift|]. apply runs_ret.
Qed.

(** [find] meets the new user after every old one. *)
Lemma getUserByEmail_new s u :
  getUserByEmail (User.email u) s = None -> Map.get (User.id u) (users s) = None ->
  getUserByEmail (User.email u) (upd_users (Map.set (User.id u) u) s) = Some u.
Proof.
  unfold getUserByEmail. simpl. intros Hn Hk. rewrite Map.values_set_new by done.
  rewrite find_app_none by done. simpl. by rewrite bool_decide_eq_true_2.
Qed.
(** The answer of [login], by the code's cases. *)
Definition login_answer (body : json) (s : St) : response :=
  match loginSchema_parse is_email body with
  | inl errors => mk_response 400 (BInvalid errors)
  | inr (email, password) =>
      match getUserByEmail email s with
      | None => mk_response 401 (BMessage "Invalid credentials")
      | Some user =>
          if comparePassword password (User.password user)
          then mk_response 200 (BAuth (generateToken (payload_of user) (clock s)) (payload_of user))
          else mk_response 401 (BMessage "Invalid credentials")
      end
  end.

(** C16: Run alone, [POST /api/auth/login] answers 400 with the failing
    keys when the body does not parse, 401 "Invalid credentials" when no
    user has the address or the password does not match, and otherwise
    200 with a token for the user found; it never changes the store. *)
Theorem login_spec body s : runs (login is_email body) s (login_answer body s) s.
Proof.
  unfold login, login_answer. destruct (loginSchema_parse is_email body) as [errors|[email pw]];
    [apply runs_ret|].
  eapply runs_bind; [apply runs_await, runs_lift|]. simpl.
  destruct (getUserByEmail email s) as [u|]; [|apply runs_ret].
  eapply runs_bind; [apply runs_await, runs_ret|]. simpl.
  destruct (comparePassword pw (User.password u)); [|apply runs_ret].
  eapply runs_bind; [apply runs_lift|]. apply runs_ret.
Qed.

(** C15: Round trip of registration and login: after [register] with an
    unused address, [login] with that address and a password whose first
    72 characters are those registered (bcrypt ignores the rest) answers
    200 with a token for the new user, whose role is the one the body
    asked for ("user" when absent or empty). *)
Theorem register_then_login rbody lbody s data pw :
  coherent s -> registerSchema_parse rbody = inr data ->
  getUserByEmail (User.ins_email data) s = None ->
  loginSchema_parse is_email lbody = inr (User.ins_email data, pw) ->
  trunc72 pw = trunc72 (User.ins_password data) ->
  let u := registered_user data s in
  exists s1,
    runs (register rbody) s (mk_response 200 (BAuth (generateToken (payload_of u) (clock s)) (payload_of u))) s1 /\
    runs (login is_email lbody) s1
      (mk_response 200 (BAuth (generateToken (payload_of u) (clock s)) (payload_of u))) s1 /\
    User.role u = role_or_user (User.ins_role data).
Proof.
  intros Hc Hr Hn Hl Hpw u. eexists. split; [by apply runs_register|]. split; [|done].
  pose proof (login_spec lbody (upd_users (Map.set (User.id u) u) (bump (bump s)))) as Hlogin.
  unfold login_answer in Hlogin. rewrite Hl in Hlogin.
  change (User.ins_email data) with (User.email u) in Hlogin.
  rewrite (getUserByEmail_new (bump (bump s)) u) in Hlogin; [|done|].
  - simpl in Hlogin. unfold comparePassword, hashPassword in Hlogin. rewrite bcompare_spec in Hlogin.
    by rewrite bool_decide_eq_true_2 in Hlogin.
  - apply fresh_get_None. eapply fresh_below_mono; [apply (inv_fresh_users _ Hc)|]. simpl. lia.
Qed.
End routes_props.

(** ** Examples, with the reference instances of Auth.v *)

Definition ex_alice : User.insert := User.mk_insert "alice@example.com" "secret1" "Alice" None.
Definition ex_store : St :=
  exec_st (createDocument (Document.mk_insert "Notes" "v1" Absent Absent) 0)
          (exec_st (createUser ex_alice) (init 0)).
Definition ex_mallory : Payload := mkPayload 7 "mallory@example.com" "Mallory" "user".
Definition ex_author : Payload := mkPayload 0 "alice@example.com" "Alice" "user".

Lemma permission_denied_witness :
  runs (putDocument ex_mallory 1 (JObj [])) ex_store (mk_response 403 (BMessage "Permission denied")) ex_store /\
  runs (deleteDocument_route ex_mallory 1) ex_store (mk_response 403 (BMessage "Permission denied")) ex_store.
Proof. eapply permission_denied; [reflexivity|reflexivity|by vm_compute|by vm_compute]. Defined.

Lemma put_allowed_witness :
  runs (putDocument ex_author 1 (JObj [("title", JStr "Notes 2")])) ex_store
    (mk_response 200 (BDocument (updateDocument 1 (Document.mk_partial (Some "Notes 2") None Absent Absent) 0 ex_store).1))
    (updateDocument 1 (Document.mk_partial (Some "Notes 2") None Absent Absent) 0 ex_store).2.
Proof.
  pose proof (put_allowed ex_author 1 (JObj [("title", JStr "Notes 2")]) ex_store _ _
                eq_refl eq_refl eq_refl) as H.
  cbn -[runs putDocument updateDocument ex_store] in H. exact H.
Defined.

Definition ex_register : json :=
  JObj [("email", JStr "bob@example.com"); ("password", JStr "hunter22"); ("name", JStr "Bob");
        ("role", JStr "admin")].
Definition ex_login : json := JObj [("email", JStr "bob@example.com"); ("password", JStr "hunter22")].

Lemma register_then_login_witness :
  let u := registered_user (User.mk_insert "bob@example.com" "hunter22" "Bob" (Some "admin")) (init 0) in
  exists s1,
    runs (register ex_register) (init 0) (mk_response 200 (BAuth (generateToken (payload_of u) 0) (payload_of u))) s1 /\
    runs (login (fun e => has_char "@"%char e) ex_login) s1
      (mk_response 200 (BAuth (generateToken (payload_of u) 0) (payload_of u))) s1 /\
    User.role u = role_or_user (Some "admin").
Proof.
  exact (register_then_login (fun e => has_char "@"%char e) ex_register ex_login (init 0) _ "hunter22"
           (init_inv 0) eq_refl eq_refl eq_refl eq_refl).
Defined.
