(* ===== verification/Server.v ===== *)
(** * The server under concurrent requests

    Node runs one piece of one request at a time.  A [server] holds the
    store, the requests suspended at an [await] (with their number and
    continuation), the answers sent so far and the number of the next
    request.  A step either takes a new request and runs its handler up
    to its first [await] ([sstep_arrive]), resumes any suspended request
    up to its next [await] ([sstep_resume]), or lets time pass
    ([sstep_tick]).  Any suspended request may be resumed, so the steps
    cover every order in which the event loop can run the pieces, and
    more: Node's microtask queue is first in, first out.  [fifo_step] is
    that order (one callback's requests, then the queue from its head),
    and [fifo_reachable_sreachable] shows it is one of the interleavings,
    so the properties of all reachable states hold of it.

    [sreachable_inv] shows that the coherent part of the storage
    invariant (StorageInv.v) holds in every reachable state, whatever
    the interleaving: every handler keeps it at each of its [await]s
    (Async.v's [preserves]), and a suspended handler resumed in a
    coherent state keeps it again. *)

From S2P Require Import Spec2Rocq Async JsMap JsString Schema Zod Auth Storage StorageInv StorageProps StorageAsync Gemini Routes.
From Stdlib Require Import String.
From stdpp Require Import strings.

Notation Pending := (list (nat * (St -> Res St response))).

Record server := mkServer {
  sv_store : St;
  sv_pending : Pending;
  sv_log : list (nat * response);
  sv_next : nat;
}.

Definition server_init (t0 : Z) : server := mkServer (init t0) [] [] 0.

(** What a piece of request [n] leaves: its answer, or its suspension. *)
Definition deliver (n : nat) (r : Res St response) (pending : Pending)
    (log : list (nat * response)) (next : nat) : server :=
  match r with
  | Done resp s => mkServer s pending (log ++ [(n, resp)]) next
  | Paused s k => mkServer s (pending ++ [(n, k)]) log next
  end.

Inductive event :=
  | Arrive (rq : request)
  | Resume (i : nat)
  | Tick (dt : Z).

Section server.
Context `{Jwt} `{Hasher} (is_email : string -> bool).

Inductive sstep : server -> server -> Prop :=
  | sstep_arrive rq sv :
      sstep sv (deliver (sv_next sv) (handle is_email rq (sv_store sv)) (sv_pending sv)
                        (sv_log sv) (S (sv_next sv)))
  | sstep_resume sv i n k :
      sv_pending sv !! i = Some (n, k) ->
      sstep sv (deliver n (k (sv_store sv)) (delete i (sv_pending sv)) (sv_log sv) (sv_next sv))
  | sstep_tick dt sv :
      sstep sv (mkServer (tick dt (sv_store sv)) (sv_pending sv) (sv_log sv) (sv_next sv)).

Inductive sreachable : server -> Prop :=
  | sreachable_init t0 : sreachable (server_init t0)
  | sreachable_step sv sv' : sreachable sv -> sstep sv sv' -> sreachable sv'.

(** The same steps as a function, to run a given schedule. *)
Definition run_event (e : event) (sv : server) : option server :=
  match e with
  | Arrive rq =>
      Some (deliver (sv_next sv) (handle is_email rq (sv_store sv)) (sv_pending sv)
                    (sv_log sv) (S (sv_next sv)))
  | Resume i =>
      match sv_pending sv !! i with
      | Some (n, k) =>
          Some (deliver n (k (sv_store sv)) (delete i (sv_pending sv)) (sv_log sv) (sv_next sv))
      | None => None
      end
  | Tick dt => Some (mkServer (tick dt (sv_store sv)) (sv_pending sv) (sv_log sv) (sv_next sv))
  end.

Fixpoint run_schedule (es : list event) (sv : server) : option server :=
  match es with
  | [] => Some sv
  | e :: es' => run_event e sv ≫= run_schedule es'
  end.

Lemma run_event_sstep e sv sv' : run_event e sv = Some sv' -> sstep sv sv'.
Proof.
  destruct e as [rq|i|dt]; simpl.
  - intros [= <-]. constructor.
  - destruct (sv_pending sv !! i) as [[n k]|] eqn:E; [|done]. intros [= <-]. by constructor.
  - intros [= <-]. constructor.
Qed.

Lemma run_schedule_reachable es sv sv' :
  sreachable sv -> run_schedule es sv = Some sv' -> sreachable sv'.
Proof.
  revert sv. induction es as [|e es IH]; intros sv Hr; simpl; [by intros [= <-]|].
  destruct (run_event e sv) as [sv1|] eqn:E; [|done]. simpl.
  apply IH. eapply sreachable_step; [done|]. by eapply run_event_sstep.
Qed.

(** ** Every handler keeps the store coherent at each [await] *)

Lemma hashPassword_a_coherent pw : preserves coherent (hashPassword_a pw).
Proof.
  apply preserves_await, preserves_lift. intros s Hs. by apply bump_core.
Qed.

#[local] Hint Resolve hashPassword_a_coherent : coh.

Ltac route_chain :=
  repeat first
    [ eassumption
    | solve [eauto with coh]
    | apply preserves_bind; [|intros ?]
    | apply preserves_await | apply preserves_yield | apply preserves_ret
    | match goal with
      | |- preserves _ (match ?x with _ => _ end) => destruct x
      | |- preserves _ (if ?b then _ else _) => destruct b
      end
    | progress unfold ok, fail, now_a, comparePassword_a, register, login, putDocument,
        deleteDocument_route, search, ai_title_content, qa, protected_route, handle ].

Lemma handle_coherent rq : preserves coherent (handle is_email rq).
Proof. destruct rq as [r auth ai]. destruct r; route_chain. Qed.

(** ** The invariant of the server *)

Definition pending_safe (p : Pending) : Prop :=
  Forall (fun nk => forall s, coherent s -> safe coherent (nk.2 s)) p.

Record server_inv (sv : server) : Prop := {
  si_store : coherent (sv_store sv);
  si_pending : pending_safe (sv_pending sv);
}.

Lemma deliver_inv n r p log next :
  safe coherent r -> pending_safe p -> server_inv (deliver n r p log next).
Proof.
  intros Hr Hp. destruct Hr as [a s Hs|s k Hs Hk]; constructor; simpl; try done.
  apply Forall_app. split; [done|]. by repeat constructor.
Qed.

Lemma sstep_inv sv sv' : server_inv sv -> sstep sv sv' -> server_inv sv'.
Proof.
  intros [Hs Hp]. destruct 1 as [rq sv|sv i n k Hi|dt sv].
  - apply deliver_inv; [by apply handle_coherent|done].
  - pose proof (list.Forall_lookup_1 _ _ _ _ Hp Hi) as Hk. simpl in Hk.
    apply deliver_inv; [by apply Hk|]. by apply Forall_delete.
  - constructor; simpl; [by apply tick_core|done].
Qed.

Lemma sreachable_inv sv : sreachable sv -> server_inv sv.
Proof.
  induction 1 as [t0|sv sv' _ IH Hstep]; [|by eapply sstep_inv].
  constructor; [apply init_inv|constructor].
Qed.

(** C2: Under every interleaving of concurrent requests, each stored
    document's version list is numbered from its current version down to
    1 without a gap or a repeated number, and its first row is the
    document's current state: two concurrent updates of a document never
    both write version N+1. *)
Theorem server_versions_contiguous sv id d :
  sreachable sv -> Map.get id (documents (sv_store sv)) = Some d ->
  DocumentVersion.version <$> getDocumentVersions id (sv_store sv) = rev (seqZ 1 (Document.version d)) /\
  exists v rest, getDocumentVersions id (sv_store sv) = v :: rest /\ snapshot_ok d v.
Proof. intros Hr%sreachable_inv. apply coherent_versions, Hr. Qed.
(** ** Node's order

    The event loop of Node is one of the orders [sstep] allows: the
    requests that one I/O callback delivers start one after the other,
    each up to its first [await]; then the microtask queue runs first in,
    first out (the oldest suspended piece resumes and, if it suspends
    again, goes to the back) until it is empty, and only then does the
    next callback run.  The store's awaits are on settled promises, so no
    callback runs while a request of the store is suspended. *)

Definition arrive (sv : server) (rq : request) : server :=
  deliver (sv_next sv) (handle is_email rq (sv_store sv)) (sv_pending sv) (sv_log sv) (S (sv_next sv)).

Inductive fifo_step : server -> server -> Prop :=
  | fifo_turn rqs sv : sv_pending sv = [] -> fifo_step sv (foldl arrive sv rqs)
  | fifo_resume sv n k rest :
      sv_pending sv = (n, k) :: rest ->
      fifo_step sv (deliver n (k (sv_store sv)) rest (sv_log sv) (sv_next sv))
  | fifo_tick dt sv :
      fifo_step sv (mkServer (tick dt (sv_store sv)) (sv_pending sv) (sv_log sv) (sv_next sv)).

Inductive fifo_reachable : server -> Prop :=
  | fifo_reachable_init t0 : fifo_reachable (server_init t0)
  | fifo_reachable_step sv sv' : fifo_reachable sv -> fifo_step sv sv' -> fifo_reachable sv'.

(** The microtask queue run from its head, at most [fuel] pieces. *)
Fixpoint drain_queue (fuel : nat) (sv : server) : server :=
  match fuel, sv_pending sv with
  | S fuel', (n, k) :: rest => drain_queue fuel' (deliver n (k (sv_store sv)) rest (sv_log sv) (sv_next sv))
  | _, _ => sv
  end.

(** One callback delivering [rqs] to an idle server, then the queue. *)
Definition fifo_turn_run (fuel : nat) (rqs : list request) (sv : server) : server :=
  drain_queue fuel (foldl arrive sv rqs).

Lemma foldl_arrive_sreachable rqs sv : sreachable sv -> sreachable (foldl arrive sv rqs).
Proof.
  revert sv. induction rqs as [|rq rqs IH]; intros sv Hr; [done|].
  apply IH. eapply sreachable_step; [done|]. constructor.
Qed.

Lemma fifo_step_sstep sv sv' : sreachable sv -> fifo_step sv sv' -> sreachable sv'.
Proof.
  intros Hr Hs. destruct Hs as [rqs sv _|sv n k rest Hq|dt sv].
  - by apply foldl_arrive_sreachable.
  - eapply sreachable_step; [done|].
    replace rest with (delete 0 (sv_pending sv)) by (by rewrite Hq).
    apply sstep_resume. by rewrite Hq.
  - eapply sreachable_step; [done|]. constructor.
Qed.

(** Node's order is one of the interleavings: every theorem about all
    reachable states (as [server_versions_contiguous]) holds of it. *)
Lemma fifo_reachable_sreachable sv : fifo_reachable sv -> sreachable sv.
Proof. induction 1; [constructor|]. by eapply fifo_step_sstep. Qed.

Lemma drain_queue_reachable fuel sv : fifo_reachable sv -> fifo_reachable (drain_queue fuel sv).
Proof.
  revert sv. induction fuel as [|fuel IH]; intros sv Hr; [done|]. simpl.
  destruct (sv_pending sv) as [|[n k] rest] eqn:E; [done|].
  apply IH. eapply fifo_reachable_step; [done|]. by constructor.
Qed.

Lemma fifo_turn_run_reachable fuel rqs sv :
  fifo_reachable sv -> sv_pending sv = [] -> fifo_reachable (fifo_turn_run fuel rqs sv).
Proof.
  intros Hr He. apply drain_queue_reachable. eapply fifo_reachable_step; [done|]. by constructor.
Qed.
End server.
