(* ===== verification/Races.v ===== *)
(** * Races between concurrent requests

    Concrete schedules of the server of Server.v, run with the reference
    token and password instances of Auth.v and an AI that always fails.
    Each theorem exhibits a reachable state (the schedule is evaluated,
    and [run_schedule_reachable] makes it a run of [sstep]) in which a
    property that holds when requests run one at a time fails:
    - two concurrent registrations with one e-mail address both succeed
      ([register] checks for the address and creates the user on either
      side of [await hashPassword]);
    - an update resumed after a concurrent delete records an activity
      for a document that no longer exists and answers 200 with it;
    - an update whose document is deleted between its permission check
      and its write answers 200 with an empty body.
    The last two also happen in Node's own order ([fifo_run]: requests
    delivered together by one callback, then the microtask queue first
    in, first out); in that order a GET and a PUT delivered together do
    not tear the read. *)

From S2P Require Import Spec2Rocq Async JsMap JsString Schema Zod Auth Storage StorageInv StorageProps StorageAsync Gemini Routes Server.
From Stdlib Require Import String Ascii.
From stdpp Require Import strings.

Local Open Scope string_scope.

(** An AI whose every call fails. *)
Definition no_ai : ai_oracle := mk_ai_oracle (fun _ => AiError) (fun _ => AiError) (fun _ => AiError).

(** A zod e-mail check for the examples: an [@] in the string. *)
Definition has_at (s : string) : bool := has_char "@"%char s.

Definition request_of (r : route) (auth : option string) : request := mk_request r auth no_ai.

Definition register_body (email password name : string) : json :=
  JObj [("email", JStr email); ("password", JStr password); ("name", JStr name)].

Definition document_body (title content : string) : json :=
  JObj [("title", JStr title); ("content", JStr content)].

Definition bearer (p : Payload) (t : Z) : option string := Some ("Bearer " ++ generateToken p t).

Definition run (es : list event) : option server := run_schedule has_at es (server_init 0).

Lemma run_reachable es sv : run es = Some sv -> sreachable has_at sv.
Proof. apply run_schedule_reachable. constructor. Qed.

(** Alice registers, then creates document 2 ("Notes"), one request at a
    time; she has id 1 and her token was issued at time 0. *)
Definition alice : Payload := mkPayload 1 "alice@example.com" "Alice" "user".
Definition alice_auth : option string := bearer alice 0.

Definition setup : list event :=
  [Arrive (request_of (PostRegister (register_body "alice@example.com" "secret1" "Alice")) None);
   Resume 0; Resume 0; Resume 0;
   Arrive (request_of (PostDocument (document_body "Notes" "v1")) alice_auth);
   Resume 0; Resume 0; Resume 0].

Definition put_title (t : string) : event :=
  Arrive (request_of (PutDocument 2 (JObj [("title", JStr t)])) alice_auth).
Definition delete_doc : event := Arrive (request_of (DeleteDocument 2) alice_auth).


(** The answer to request [n], if it was sent. *)
Definition answer_of (n : nat) (sv : server) : option response :=
  snd <$> List.find (fun a => Nat.eqb a.1 n) (sv_log sv).

Definition status_of (n : nat) (sv : server) : option Z := status <$> answer_of n sv.

(** Runs a schedule, keeping its final state as the witness. *)
Ltac run_schedule_tac es :=
  let E := fresh "E" in
  destruct (run es) as [sv|] eqn:E; [|vm_compute in E; discriminate];
  exists sv; split; [by apply (run_reachable es)|]; vm_compute in E; injection E as <-.

(** ** Two registrations with one address *)

Definition register_race_schedule : list event :=
  [Arrive (request_of (PostRegister (register_body "alice@example.com" "secret1" "Alice")) None);
   Arrive (request_of (PostRegister (register_body "alice@example.com" "secret2" "Alice B")) None);
   Resume 0; Resume 0; Resume 0; Resume 0; Resume 0; Resume 0].

(** C6: Two registrations with the same e-mail address, interleaved at
    [await hashPassword], both succeed and leave two users with that
    address, although [users.email] is declared unique and [register]
    checks for an existing user first. *)
Theorem register_race :
  exists sv, sreachable has_at sv /\
    ¬ NoDup (User.email <$> Map.values (users (sv_store sv))) /\
    status_of 0 sv = Some 200%Z /\ status_of 1 sv = Some 200%Z.
Proof.
  run_schedule_tac register_race_schedule. split; [|by vm_compute].
  apply (bool_decide_unpack _). by vm_compute.
Qed.

(** The document of an answer to [PUT], and the document and version
    numbers of an answer to [GET /api/documents/:id]. *)
Definition put_answer (n : nat) (sv : server) : option (option Document.t) :=
  answer_of n sv ≫= fun r => match body r with BDocument d => Some d | _ => None end.

Definition get_answer (n : nat) (sv : server) : option (Z * list Z) :=
  answer_of n sv ≫= fun r =>
    match body r with
    | BDetails dd => Some (Document.version (dd_doc dd), DocumentVersion.version <$> dd_versions dd)
    | _ => None
    end.

(** ** An update and a delete of one document *)

Definition orphan_schedule : list event :=
  (setup ++ [put_title "Notes 2"; delete_doc; Resume 0; Resume 1; Resume 1; Resume 0; Resume 1;
             Resume 1; Resume 1; Resume 0; Resume 0; Resume 0])%list.

(** C7: An update that has written its version row when a concurrent
    delete of the same document runs records its "updated" activity
    after the delete: the activity references a document that no longer
    exists, and the update is answered 200 with the updated document.
    (Run one at a time, no activity references a missing document:
    [reachable_inv].) *)
Theorem update_delete_orphan :
  exists sv, sreachable has_at sv /\
    Map.get 2%N (documents (sv_store sv)) = None /\
    Activity.documentId <$> Map.values (activities (sv_store sv)) = [Some 2%N] /\
    status_of 3 sv = Some 200%Z /\
    (Document.title <$> mjoin (put_answer 2 sv)) = Some "Notes 2".
Proof. run_schedule_tac orphan_schedule. by vm_compute. Qed.

Definition vanished_schedule : list event :=
  (setup ++ [put_title "Notes 2"; delete_doc; Resume 0; Resume 1; Resume 0; Resume 1; Resume 1;
             Resume 1; Resume 0; Resume 0])%list.

(** C9: When the document is deleted between the permission check of
    [PUT /api/documents/:id] and its call to [updateDocument], the update
    is answered 200 with an empty body ([res.json(undefined)]) instead of
    404. *)
Theorem put_vanished_document :
  exists sv, sreachable has_at sv /\
    answer_of 2 sv = Some (mk_response 200 (BDocument None)) /\
    answer_of 3 sv = Some (mk_response 200 (BMessage "Document deleted successfully")).
Proof. run_schedule_tac vanished_schedule. by vm_compute. Qed.

(** ** Two updates of one document *)

Definition lost_update_schedule : list event :=
  (setup ++ [put_title "A"; put_title "B"] ++ repeat (Resume 0) 12)%list.

(** ** The same races in Node's order *)

(** Turns of the event loop from the initial server: each list of
    requests is delivered by one callback to an idle server, then the
    microtask queue runs until it is empty. *)
Fixpoint fifo_run_from (turns : list (list request)) (sv : server) : option server :=
  match turns with
  | [] => Some sv
  | rqs :: turns' =>
      match sv_pending sv with
      | [] => fifo_run_from turns' (fifo_turn_run has_at 100 rqs sv)
      | _ => None
      end
  end.

Definition fifo_run (turns : list (list request)) : option server := fifo_run_from turns (server_init 0).

Lemma fifo_run_reachable turns sv : fifo_run turns = Some sv -> fifo_reachable has_at sv.
Proof.
  unfold fifo_run. generalize (fifo_reachable_init has_at 0).
  generalize (server_init 0). induction turns as [|rqs turns IH]; intros sv0 Hr; simpl; [by intros [= <-]|].
  destruct (sv_pending sv0) eqn:E; [|done]. apply IH. by apply fifo_turn_run_reachable.
Qed.

Ltac fifo_run_tac turns :=
  let E := fresh "E" in
  destruct (fifo_run turns) as [sv|] eqn:E; [|vm_compute in E; discriminate];
  exists sv; split; [by apply (fifo_run_reachable turns)|]; vm_compute in E; injection E as <-.

Definition alice_register : request :=
  request_of (PostRegister (register_body "alice@example.com" "secret1" "Alice")) None.
Definition alice_notes : request := request_of (PostDocument (document_body "Notes" "v1")) alice_auth.
Definition put_req (t : string) : request := request_of (PutDocument 2 (JObj [("title", JStr t)])) alice_auth.
Definition delete_req : request := request_of (DeleteDocument 2) alice_auth.
Definition get_req : request := request_of (GetDocument 2) alice_auth.

(** C8: In Node's own order, a PUT and a DELETE of one document
    delivered in one callback (pipelined on one connection), the PUT
    first, leave an "updated" activity for the deleted document, and the
    PUT is answered 200 with the updated document. *)
Theorem update_delete_orphan_fifo :
  exists sv, fifo_reachable has_at sv /\
    Map.get 2%N (documents (sv_store sv)) = None /\
    Activity.documentId <$> Map.values (activities (sv_store sv)) = [Some 2%N] /\
    status_of 2 sv = Some 200%Z /\
    (Document.title <$> mjoin (put_answer 2 sv)) = Some "Notes 2".
Proof. fifo_run_tac [[alice_register]; [alice_notes]; [put_req "Notes 2"; delete_req]]. by vm_compute. Qed.

(** C10: In Node's own order, a DELETE and a PUT of one document
    delivered in one callback, the DELETE first, answer the PUT 200 with
    an empty body: the PUT's permission check still saw the document. *)
Theorem put_vanished_document_fifo :
  exists sv, fifo_reachable has_at sv /\
    answer_of 3 sv = Some (mk_response 200 (BDocument None)) /\
    answer_of 2 sv = Some (mk_response 200 (BMessage "Document deleted successfully")).
Proof. fifo_run_tac [[alice_register]; [alice_notes]; [delete_req; put_req "Notes 2"]]. by vm_compute. Qed.

(** Node's order does not tear a read: a GET delivered with a PUT in one
    callback, in either order, finishes before the PUT writes and answers
    version 1 with the rows of version 1. *)
Example fifo_get_consistent :
  (get_answer 2 <$> fifo_run [[alice_register]; [alice_notes]; [get_req; put_req "Notes 2"]]) =
    Some (Some (1%Z, [1%Z])) /\
  (get_answer 3 <$> fifo_run [[alice_register]; [alice_notes]; [put_req "Notes 2"; get_req]]) =
    Some (Some (1%Z, [1%Z])).
Proof. split; vm_compute; reflexivity. Qed.

Lemma server_versions_contiguous_witness :
  exists sv d, sreachable has_at sv /\ Map.get 2%N (documents (sv_store sv)) = Some d /\
    DocumentVersion.version <$> getDocumentVersions 2%N (sv_store sv) = rev (seqZ 1 (Document.version d)).
Proof.
  destruct (run lost_update_schedule) as [sv|] eqn:E; [|vm_compute in E; discriminate].
  pose proof (run_reachable _ _ E) as Hr.
  destruct (Map.get 2%N (documents (sv_store sv))) as [d|] eqn:Hd.
  - exists sv, d. split; [exact Hr|]. split; [exact Hd|].
    exact (proj1 (server_versions_contiguous has_at sv 2%N d Hr Hd)).
  - vm_compute in E. injection E as <-. vm_compute in Hd. discriminate.
Defined.
