(* ===== verification/Editor.v ===== *)
(** * The document editor (src/client/src/pages/document-editor.tsx)

    The page edits a form of four strings: title, content, summary and
    the tags written as one comma-separated string.  Loading a document
    fills the form ([form_of_document], lines 57-66: [summary || ""] and
    [tags?.join(", ") || ""]); saving sends the form with its tag string
    split on commas, trimmed and emptied of blanks ([parse_tags], line 73)
    as the body of a PUT when the URL names a document and of a POST
    otherwise ([save_route], lines 70-83).  The two AI buttons refuse a
    form whose title or content is empty before any request
    ([generateSummary_request], [generateTags_request], lines 102-145), and
    write the answer into the form (lines 115 and 147).

    The theorems: tags written by the editor come back unchanged from a
    save and a reload ([tags_roundtrip]); every body the editor sends is
    accepted by the server's schema ([save_body_accepted]); the AI
    requests it sends always pass the server's [!title || !content]
    guard; a save of an untouched form is not a no-op on the server
    ([untouched_save_changes]). *)

From S2P Require Import Spec2Rocq Async JsString Schema Zod Auth Storage StorageAsync Gemini Routes.
From Stdlib Require Import String Ascii.
From stdpp Require Import strings.

Local Open Scope string_scope.

(** [DocumentFormData]: [documentFormSchema] is [insertDocumentSchema]
    with [tags] a string (lines 18-22); the inputs are registered with
    the strings of [defaultValues]. *)
Record form := mk_form {
  f_title : string;
  f_content : string;
  f_summary : string;
  f_tags : string;
}.

(** [defaultValues] (lines 38-43). *)
Definition form_default : form := mk_form "" "" "" "".

(** [document.tags?.join(", ") || ""] (line 63). *)
Definition print_tags (tags : option (list string)) : string :=
  match tags with
  | Some l => let s := JsString.join ", " l in if str_truthy s then s else ""
  | None => ""
  end.

(** [form.reset] when the document has loaded (lines 57-66). *)
Definition form_of_document (d : Document.t) : form :=
  mk_form (Document.title d) (Document.content d)
    (match Document.summary d with Some s => if str_truthy s then s else "" | None => "" end)
    (print_tags (Document.tags d)).

(** [data.tags ? data.tags.split(",").map(tag => tag.trim()).filter(Boolean) : []]
    (line 73). *)
Definition parse_tags (tags : string) : list string :=
  if str_truthy tags then filter (fun t => str_truthy t = true) (map trim (JsString.split ","%char tags))
  else [].

(** [{ ...data, tags: ... }] (lines 71-74): the spread keeps the keys of
    the form in their order, [tags] replaced in place. *)
Definition save_body (f : form) : json :=
  JObj [("title", JStr (f_title f)); ("content", JStr (f_content f));
        ("summary", JStr (f_summary f)); ("tags", JArr (JStr <$> parse_tags (f_tags f)))].

(** [isEditing ? PUT /api/documents/:id : POST /api/documents] (lines 76-82);
    [isEditing] is [!!params?.id]. *)
Definition save_route (documentId : option Id) (f : form) : route :=
  match documentId with
  | Some id => PutDocument id (save_body f)
  | None => PostDocument (save_body f)
  end.

(** [{ title, content }] of the AI buttons. *)
Definition ai_body (f : form) : json :=
  JObj [("title", JStr (f_title f)); ("content", JStr (f_content f))].

(** [generateSummaryMutation.mutationFn] (lines 103-113): the error it
    throws, or the request it sends. *)
Definition generateSummary_request (f : form) : string + route :=
  if str_truthy (f_title f) && str_truthy (f_content f) then inr (PostSummarize (ai_body f))
  else inl "Please provide both title and content before generating summary".

(** [generateTagsMutation.mutationFn] (lines 135-145). *)
Definition generateTags_request (f : form) : string + route :=
  if str_truthy (f_title f) && str_truthy (f_content f) then inr (PostTags (ai_body f))
  else inl "Please provide both title and content before generating tags".

(** The [onSuccess] handlers: [form.setValue("summary", data.summary)]
    (line 115) and [form.setValue("tags", data.tags.join(", "))] (line 147). *)
Definition ai_success (f : form) (b : rbody) : form :=
  match b with
  | BSummary s => mk_form (f_title f) (f_content f) s (f_tags f)
  | BTags ts => mk_form (f_title f) (f_content f) (f_summary f) (JsString.join ", " ts)
  | _ => f
  end.

(** A tag the editor writes unchanged: trimmed, not empty, no comma. *)
Definition clean_tag (t : string) : bool :=
  (trim t === t) && str_truthy t && negb (has_char ","%char t).

(** ** Lemmas *)

Lemma str_truthy_app_l s t : str_truthy s = true -> str_truthy (s ++ t) = true.
Proof. by destruct s. Qed.

Lemma str_truthy_join sep t l : str_truthy t = true -> str_truthy (JsString.join sep (t :: l)) = true.
Proof. destruct l; [done|]. rewrite join_cons2. apply str_truthy_app_l. Qed.

Lemma clean_tag_spec t :
  clean_tag t = true <-> trim t = t /\ str_truthy t = true /\ has_char ","%char t = false.
Proof.
  unfold clean_tag. rewrite !andb_true_iff, negb_true_iff, bool_decide_eq_true. tauto.
Qed.

Lemma trim_space t : trim t = t -> trim (" " ++ t) = t.
Proof. intros Ht. rewrite str_app_cons, str_app_nil, trim_ws_cons; done. Qed.

(** The pieces of [join ", " ts] once trimmed are the tags. *)
Lemma parse_tags_join ts :
  Forall (fun t => clean_tag t = true) ts -> parse_tags (JsString.join ", " ts) = ts.
Proof.
  intros Hts. destruct ts as [|t ts]; [done|].
  pose proof Hts as [Ht _]%Forall_cons. apply clean_tag_spec in Ht as (Htr & Htt & Htc).
  unfold parse_tags. rewrite str_truthy_join by done.
  rewrite split_join; [|done| |done].
  2:{ eapply Forall_impl; [done|]. intros x ?%clean_tag_spec. tauto. }
  simpl. rewrite Htr, filter_cons_True by done. f_equal. apply Forall_cons in Hts as [_ Hts].
  induction Hts as [|x ts Hx _ IH]; [done|].
  apply clean_tag_spec in Hx as (Hxr & Hxt & _). simpl.
  rewrite trim_space, filter_cons_True by done. by f_equal.
Qed.

Lemma z_string_array_strs l : z_string_array (JArr (JStr <$> l)) = Some l.
Proof.
  unfold z_string_array. induction l as [|x l IH]; [done|].
  cbn [fmap list_fmap mapM]. cbn in IH. by rewrite IH.
Qed.

Lemma prop_save_body f :
  prop "title" (save_body f) = Some (JStr (f_title f)) /\
  prop "content" (save_body f) = Some (JStr (f_content f)) /\
  prop "summary" (save_body f) = Some (JStr (f_summary f)) /\
  prop "tags" (save_body f) = Some (JArr (JStr <$> parse_tags (f_tags f))).
Proof. done. Qed.

(** ** Properties *)

(** C22: Tags written by the editor survive a save and a reload: for a
    stored document whose tags are trimmed, non-empty and free of
    commas, the tag field the editor fills in ([join(", ")]) is parsed
    back by the save into exactly the same tags. *)
Theorem tags_roundtrip d ts :
  Document.tags d = Some ts -> Forall (fun t => clean_tag t = true) ts ->
  parse_tags (f_tags (form_of_document d)) = ts.
Proof.
  intros Hd Hts. simpl. rewrite Hd. simpl.
  destruct (str_truthy (JsString.join ", " ts)) eqn:E; [by apply parse_tags_join|].
  destruct ts as [|t ts]; [done|]. apply Forall_cons in Hts as [Ht _].
  apply clean_tag_spec in Ht as (_ & Ht & _). by rewrite str_truthy_join in E.
Qed.

(** C23: Every body the editor saves has the type the server expects:
    [insertDocumentSchema] (POST) and its [.partial()] (PUT) accept it,
    with the form's title and content, its summary as an explicit string
    and the parsed tags; the save never meets the 400 of a ZodError. *)
Theorem save_body_accepted f :
  insertDocumentSchema_parse (save_body f) =
    inr (Document.mk_insert (f_title f) (f_content f) (Val (f_summary f)) (Val (parse_tags (f_tags f)))) /\
  partialDocumentSchema_parse (save_body f) =
    inr (Document.mk_partial (Some (f_title f)) (Some (f_content f)) (Val (f_summary f))
                             (Val (parse_tags (f_tags f)))).
Proof.
  destruct (prop_save_body f) as (Ht & Hc & Hs & Hg).
  unfold insertDocumentSchema_parse, partialDocumentSchema_parse, z_object, save_body at 1 3.
  unfold z_req, z_opt, z_field. rewrite Ht, Hc, Hs, Hg. cbn -[z_string_array]. by rewrite z_string_array_strs.
Qed.

(** C25: The editor's AI buttons refine the server's guard: when the
    page sends a summary or tags request, the server's
    [!title || !content] test passes and the AI service is called with
    the form's own title and content, so the 400 answer is never reached. *)
Theorem ai_request_refines f r {A} (call : string -> string -> throws A) answer failure :
  (generateSummary_request f = inr r \/ generateTags_request f = inr r) ->
  exists body, (r = PostSummarize body \/ r = PostTags body) /\
    ai_title_content body call answer failure =
      (res ← await (mret (call (f_title f) (f_content f)));
       match res with inl _ => fail 500 failure | inr a => ok (answer a) end).
Proof.
  unfold generateSummary_request, generateTags_request.
  destruct (str_truthy (f_title f)) eqn:Ht, (str_truthy (f_content f)) eqn:Hc;
    simpl; intros [[= <-]|[= <-]]; eexists; (split; [by auto|]);
    unfold ai_title_content; simpl;
    by destruct (f_title f), (f_content f).
Qed.

(** C24: Saving an untouched form is not a no-op: the update the server
    applies keeps the title and content but turns a missing summary into
    the empty string and missing tags into an empty array (the form
    holds [""] for both), while the store adds a version. *)
Theorem untouched_save_changes d now v :
  exists u, partialDocumentSchema_parse (save_body (form_of_document d)) = inr u /\
    Document.title (merge_updates d u now v) = Document.title d /\
    Document.content (merge_updates d u now v) = Document.content d /\
    (Document.summary d = None -> Document.summary (merge_updates d u now v) = Some "") /\
    (Document.tags d = None -> Document.tags (merge_updates d u now v) = Some []).
Proof.
  eexists. split; [apply save_body_accepted|]. simpl.
  split_and!; [done|done| |]; intros ->; done.
Qed.

(** ** Instances *)

Definition ex_doc : Document.t :=
  Document.mk 1 "Release Notes" "Changes" None (Some ["beta"; "release"]) 0 0 0 1.

Definition ex_ai : ai_oracle := mk_ai_oracle (fun _ => AiEmpty) (fun _ => AiEmpty) (fun _ => AiEmpty).

Definition ex_form : form := mk_form "Release Notes" "Changes" "" "beta, release".

Lemma tags_roundtrip_witness :
  parse_tags (f_tags (form_of_document ex_doc)) = ["beta"; "release"].
Proof. apply (tags_roundtrip ex_doc); [reflexivity|]. repeat constructor. Defined.

Lemma ai_request_refines_witness :
  exists body, (PostSummarize (ai_body ex_form) = PostSummarize body \/
                PostSummarize (ai_body ex_form) = PostTags body) /\
    ai_title_content body (summarizeDocument ex_ai)
      BSummary "Failed to generate summary" =
      (res ← await (mret (summarizeDocument ex_ai
                            "Release Notes" "Changes"));
       match res with inl _ => fail 500 "Failed to generate summary" | inr a => ok (BSummary a) end).
Proof. apply (ai_request_refines ex_form). left. reflexivity. Defined.

(** A tag with a comma, as the AI service may produce ("ci, cd"), is cut
    in two by the next save of the editor. *)
Example comma_tag_split :
  parse_tags (f_tags (ai_success ex_form (BTags ["ci, cd"]))) = ["ci"; "cd"].
Proof. reflexivity. Qed.
