(* ===== verification/Pages.v ===== *)
(** * The search page, the Q&A page and the router of the client

    - [SearchPage] (src/client/src/pages/search.tsx): the query the page
      sends ([search_queryFn], lines 20-28: nothing when the trimmed query
      is blank, otherwise [?q=<query>&type=<searchType>] with the query as
      typed), the submit handler ([handleSearch], lines 30-36) and the
      card each result becomes ([card_of], lines 148-200); a card that
      reads a field of [undefined] throws, and React then renders nothing
      ([render_results]).
    - [QAPage] (src/client/src/pages/qa.tsx): the chat as a step relation
      [chat_step] on the page's state (question, messages, the question in
      flight): typing and sending are possible while nothing is in flight
      (the input and the button are disabled otherwise, lines 240-260),
      [handleSubmit] sends the trimmed question (lines 69-74), [onSuccess]
      appends the question and the answer and clears the input (lines
      42-59), [onError] keeps both, [clearChat] empties the messages.
    - [Router] and [AuthenticatedLayout] (src/client/src/App.tsx): the page
      shown for a path, by wouter's first matching [Route]. *)

From S2P Require Import Spec2Rocq Async JsString JsSort Schema Zod Auth Storage StorageAsync Gemini Routes.
From Stdlib Require Import String Ascii.
From stdpp Require Import strings pretty.

Local Open Scope string_scope.

(** ** The search page *)

Record search_page := mk_search_page {
  sp_query : string;
  sp_searchType : string;
  sp_hasSearched : bool;
}.

(** [useState("")], [useState("text")], [useState(false)] (lines 16-18). *)
Definition search_init : search_page := mk_search_page "" "text" false.

(** [queryFn] (lines 22-26): [[]] without a request for a blank query,
    otherwise [GET /api/search?q=encodeURIComponent(query)&type=searchType];
    Express decodes [q] back to the query as typed. *)
Definition search_queryFn (p : search_page) : option route :=
  if str_truthy (trim (sp_query p)) then
    Some (GetSearch (Some (QStr (sp_query p))) (Some (QStr (sp_searchType p))))
  else None.

(** [handleSearch] (lines 30-36): the new state and the request of
    [refetch()]. *)
Definition handleSearch (p : search_page) : search_page * option route :=
  if str_truthy (trim (sp_query p)) then
    (mk_search_page (sp_query p) (sp_searchType p) true, search_queryFn p)
  else (p, None).

(** What a result card shows (lines 148-200). *)
Record card := mk_card {
  c_title : string;
  c_relevance : option Z;
  c_snippet : string;
  c_tags : list string;
  c_author : string;
}.

(** [result.summary || result.content.substring(0, 200) + "..."] *)
Definition snippet (d : Document.t) : string :=
  match Document.summary d with
  | Some s => if str_truthy s then s else String.substring 0 200 (Document.content d) ++ "..."
  | None => String.substring 0 200 (Document.content d) ++ "..."
  end.

(** [result.tags?.slice(0, 4)] *)
Definition card_tags (d : Document.t) : list string :=
  match Document.tags d with Some ts => take 4 ts | None => [] end.

Definition doc_card (d : DocumentWithUser) (relevance : option Z) : card :=
  mk_card (Document.title (dw_doc d)) relevance (snippet (dw_doc d)) (card_tags (dw_doc d))
    (User.name (dw_author d)).

(** A result: a document of the text search or of the fallback, or
    [{ ...documents[index], relevance }]; [result.relevance && ...]
    shows no badge for 0.  A hit without its document reaches
    [result.content.substring] on [undefined] and throws (the title is
    passed through unread in semantic mode). *)
Definition card_of (r : sem_item) : option card :=
  match r with
  | SemDoc d => Some (doc_card d None)
  | SemHit (Some d) rel => Some (doc_card d (if bool_decide (rel = 0%Z) then None else Some rel))
  | SemHit None _ => None
  end.

(** [results.map(...)]: one throwing card and the page renders nothing. *)
Definition render_results (rs : list sem_item) : option (list card) := mapM card_of rs.

(** ** The Q&A page *)

Inductive msg_type := MUser | MAi.

#[export] Instance msg_type_eq_dec : EqDecision msg_type.
Proof. solve_decision. Defined.

(** [ChatMessage] (lines 13-19), without the unused [sources]. *)
Record message := mk_message {
  m_id : string;
  m_type : msg_type;
  m_content : string;
  m_timestamp : Z;
}.

Record chat := mk_chat {
  question : string;
  messages : list message;
  in_flight : option string;
}.

Definition chat_init : chat := mk_chat "" [] None.

(** [handleSubmit] (lines 69-74): the question [mutate] receives. *)
Definition handleSubmit (c : chat) : option string :=
  if str_truthy (trim (question c)) then Some (trim (question c)) else None.

(** [apiRequest("POST", "/api/ai/qa", { question })] (line 39). *)
Definition qa_request (q : string) : route := PostQa (JObj [("question", JStr q)]).

(** [onSuccess(data, question)] (lines 42-59) at time [now]. *)
Definition onSuccess (now : Z) (answer q : string) (c : chat) : chat :=
  mk_chat "" (messages c ++ [mk_message (pretty now ++ "-user") MUser q now;
                             mk_message (pretty now ++ "-ai") MAi answer now]) None.

Inductive chat_step : chat -> chat -> Prop :=
  | chat_type c s :
      in_flight c = None -> chat_step c (mk_chat s (messages c) None)
  | chat_submit c q :
      in_flight c = None -> handleSubmit c = Some q ->
      chat_step c (mk_chat (question c) (messages c) (Some q))
  | chat_success c q now answer :
      in_flight c = Some q -> chat_step c (onSuccess now answer q c)
  | chat_error c q :
      in_flight c = Some q -> chat_step c (mk_chat (question c) (messages c) None)
  | chat_clear c :
      chat_step c (mk_chat (question c) [] (in_flight c)).

Inductive chat_reachable : chat -> Prop :=
  | chat_reachable_init : chat_reachable chat_init
  | chat_reachable_step c c' : chat_reachable c -> chat_step c c' -> chat_reachable c'.

(** The chat is a list of exchanges: a question, not blank, then its answer. *)
Definition exchange_ok (ua : message * message) : Prop :=
  m_type ua.1 = MUser /\ m_type ua.2 = MAi /\ str_truthy (m_content ua.1) = true.

Definition chat_wf (c : chat) : Prop :=
  (exists xs, messages c = concat ((fun ua => [ua.1; ua.2]) <$> xs) /\ Forall exchange_ok xs) /\
  (forall q, in_flight c = Some q -> str_truthy q = true /\ trim q = q).

(** ** The router (App.tsx) *)

Inductive page :=
  | PLoading | PLogin | PRegister | PDashboard | PSearch | PEditorNew
  | PEditorEdit (id : string) | PQa | PSupport | PNotFound.

(** The [Switch] of [AuthenticatedLayout] (lines 23-32). *)
Definition layout_page (path : string) : page :=
  if (path === "/") || (path === "/dashboard") then PDashboard
  else if path === "/search" then PSearch
  else if path === "/document/new" then PEditorNew
  else if path === "/qa" then PQa
  else if path === "/support" then PSupport
  else match JsString.split "/"%char path with
       | [""; "document"; "edit"; id] => if str_truthy id then PEditorEdit id else PNotFound
       | _ => PNotFound
       end.

(** [Router] (lines 39-60). *)
Definition router (user : option Payload) (isLoading : bool) (path : string) : page :=
  if isLoading then PLoading
  else match user with
       | None => if path === "/register" then PRegister else PLogin
       | Some _ => layout_page path
       end.

(** ** Lemmas *)

Lemma str_truthy_trim s : str_truthy (trim s) = true -> str_truthy s = true.
Proof. by destruct s. Qed.

Lemma truthy_JStr s : truthy (Some (JStr s)) = str_truthy s.
Proof. by destruct s. Qed.

(** The steps of a handler whose answers are all checked by [Q]. *)
Ltac answers_chain :=
  repeat first
    [ apply answers_ret; simpl; congruence
    | apply answers_await
    | apply (answers_bind (fun _ => True)); [apply answers_any|intros ? _]
    | match goal with
      | |- answers _ (match ?x with _ => _ end) => destruct x
      | |- answers _ (if ?b then _ else _) => destruct b
      end
    | progress unfold ok, fail ].

(** ** Properties *)

(** C18: A semantic search result renders only when every score the
    model returns above 30 names a document: the page throws, and
    shows nothing, exactly when one of them has an index outside
    [documents]. *)
Theorem render_rank_fails docs results :
  render_results (rank docs results) = None <->
  exists r, r ∈ results /\ (30 < sc_relevance r)%Z /\ at_index docs (sc_index r) = None.
Proof.
  unfold render_results, rank. rewrite mapM_None_iff. split.
  - intros (x & (r & -> & Hr)%list_elem_of_fmap & Hn).
    apply elem_of_sort, list_elem_of_filter in Hr as [Hrel Hr].
    exists r. split_and!; [done|done|]. simpl in Hn. by destruct (at_index docs (sc_index r)).
  - intros (r & Hr & Hrel & Hn). exists (SemHit None (sc_relevance r)). split; [|done].
    apply list_elem_of_fmap. exists r. rewrite Hn. split; [done|].
    by apply elem_of_sort, list_elem_of_filter.
Qed.

(** C28: The search page refines the server's guard: every request it
    sends has a query that is not blank, and every answer the search
    route gives to it, whatever runs between its pieces, has status 200;
    the 400 of a missing query is unreachable from the page. *)
Theorem search_page_answers_200 p r ai user :
  search_queryFn p = Some r -> answers (fun resp => status resp = 200%Z) (protected_route ai r user).
Proof.
  unfold search_queryFn. destruct (str_truthy (trim (sp_query p))) eqn:Hq; [|done].
  intros [= <-]. simpl. unfold search. rewrite (str_truthy_trim _ Hq). answers_chain.
Qed.

(** C29: The Q&A page refines the server's guard: the question it
    sends is trimmed and not blank, so the Q&A route never answers 400
    to it (only 200, or 500 when the AI service fails). *)
Theorem qa_page_never_400 c q ai user :
  handleSubmit c = Some q -> answers (fun resp => status resp <> 400%Z) (protected_route ai (qa_request q) user).
Proof.
  unfold handleSubmit. destruct (str_truthy (trim (question c))) eqn:Hq; [|done].
  intros [= <-]. cbn [protected_route qa_request]. unfold qa. cbv zeta.
  change (prop "question" _) with (Some (JStr (trim (question c)))).
  rewrite truthy_JStr, Hq. answers_chain.
Qed.

Lemma handleSubmit_some c q : handleSubmit c = Some q -> str_truthy q = true /\ trim q = q.
Proof.
  unfold handleSubmit. destruct (str_truthy (trim (question c))) eqn:Hq; [|done].
  intros [= <-]. by rewrite trim_idem.
Qed.

Lemma chat_step_wf c c' : chat_wf c -> chat_step c c' -> chat_wf c'.
Proof.
  intros [(xs & Hm & Hxs) Hq]. destruct 1 as [c s Hn|c q Hn Hs|c q now a Hf|c q Hf|c]; simpl.
  - split; [by exists xs|done].
  - split; [by exists xs|]. intros q' [= <-]. by apply handleSubmit_some with c.
  - split; [|done]. destruct (Hq q Hf) as [Htq _].
    exists (app xs [(mk_message (pretty now ++ "-user") MUser q now, mk_message (pretty now ++ "-ai") MAi a now)]).
    simpl. rewrite Hm, fmap_app, concat_app. split; [done|]. apply Forall_app. split; [done|].
    repeat constructor. done.
  - split; [by exists xs|done].
  - split; [by exists []|done].
Qed.

(** C30: In every state the Q&A page can reach, its messages are a
    sequence of exchanges, each a user message with a non-blank question
    followed by the AI's answer, and the question in flight is trimmed
    and not blank. *)
Theorem chat_invariant c : chat_reachable c -> chat_wf c.
Proof.
  induction 1 as [|c c' _ IH Hs]; [|by eapply chat_step_wf].
  split; [by exists []|done].
Qed.

(** The links of the client open the editor: the path the
    dashboard navigates to for editing a document
    ([/document/edit/${id}]) shows the editor on that id, for every id
    that is not empty and has no slash, and [/document/new] the editor
    of a new document. *)
Theorem editor_links id :
  str_truthy id = true -> has_char "/"%char id = false ->
  layout_page ("/document/edit/" ++ id) = PEditorEdit id /\ layout_page "/document/new" = PEditorNew.
Proof.
  intros Hid Hs. split; [|reflexivity].
  assert (E : "/document/edit/" ++ id = "" ++ String "/" ("document" ++ String "/" ("edit" ++ String "/" id)))
    by reflexivity.
  unfold layout_page. rewrite E. cbn -[JsString.split append].
  rewrite !split_app_sep, split_no_sep by done. by rewrite Hid.
Qed.

(** ** Instances *)

Definition ex_oracle : ai_oracle := mk_ai_oracle (fun _ => AiEmpty) (fun _ => AiEmpty) (fun _ => AiEmpty).

Lemma search_page_answers_200_witness :
  answers (fun resp => status resp = 200%Z)
    (protected_route ex_oracle (GetSearch (Some (QStr "release")) (Some (QStr "semantic"))) alice).
Proof. apply (search_page_answers_200 (mk_search_page "release" "semantic" false)). reflexivity. Defined.

Lemma qa_page_never_400_witness :
  answers (fun resp => status resp <> 400%Z) (protected_route ex_oracle (qa_request "How do we release?") alice).
Proof. apply (qa_page_never_400 (mk_chat "  How do we release? " [] None)). reflexivity. Defined.

Definition ex_asking : chat := mk_chat "  How do we release? " [] (Some "How do we release?").

Lemma chat_invariant_witness : chat_wf (onSuccess 5 "Follow the checklist." "How do we release?" ex_asking).
Proof.
  apply chat_invariant. eapply chat_reachable_step; [|by apply chat_success].
  apply (chat_reachable_step (mk_chat "  How do we release? " [] None)).
  - eapply chat_reachable_step; [apply chat_reachable_init|]. exact (chat_type chat_init "  How do we release? " eq_refl).
  - exact (chat_submit (mk_chat "  How do we release? " [] None) "How do we release?" eq_refl eq_refl).
Defined.

Lemma editor_links_witness :
  layout_page ("/document/edit/" ++ "doc-1") = PEditorEdit "doc-1" /\ layout_page "/document/new" = PEditorNew.
Proof. apply editor_links; reflexivity. Defined.
