(* ===== verification/Dashboard.v ===== *)
(** * The dashboard and the document card (src/unnamed/part_001, part_002)

    - [Dashboard] (part_001): the tags offered as filters ([allTags],
      line 65: the tags of all documents in a [Set], so in order of first
      appearance), the documents shown ([filteredDocuments], lines 68-83:
      those with one of the selected tags, or all when none is selected,
      sorted by title, author or last update), the statistics ([stats],
      lines 85-90) and [toggleFilter] (lines 92-98).  [localeCompare] is
      the browser's collation, a parameter of the section.
    - [DocumentCard] (part_002, lines 344-446): whether the card offers
      editing and deletion ([canEdit], line 351), the summary and tags it
      writes into the query cache after its AI buttons succeed (lines
      361-370 and 395-404), and its relative date ([formatDate], lines
      437-446).

    The theorems: the default view shows the server's list unchanged;
    [toggleFilter] keeps the selection free of duplicates and undoes
    itself; the statistics are bounded by the number of documents; the
    card offers editing exactly to the users the server lets edit; a date
    less than a day away reads "1 day ago" whatever its distance. *)

From S2P Require Import Spec2Rocq Async JsMap JsString JsSort Schema Auth Storage StorageInv StorageProps StorageAsync Routes RoutesProps.
From Stdlib Require Import String.
From stdpp Require Import strings pretty.

Local Open Scope string_scope.

(** [Array.from(new Set(xs))]: the distinct elements in order of first
    appearance. *)
Fixpoint set_add_all {A} `{EqDecision A} (seen xs : list A) : list A :=
  match xs with
  | [] => seen
  | x :: xs' => set_add_all (if bool_decide (x ∈ seen) then seen else seen ++ [x]) xs'
  end.

Definition set_from {A} `{EqDecision A} (xs : list A) : list A := set_add_all [] xs.

(** [doc.tags || []] *)
Definition doc_tags (d : DocumentWithUser) : list string := default [] (Document.tags (dw_doc d)).

(** [allTags] (line 65). *)
Definition allTags (documents : list DocumentWithUser) : list string :=
  set_from (concat (doc_tags <$> documents)).

(** The filter of lines 69-72: [selectedFilters.some(filter => doc.tags?.includes(filter))]. *)
Definition tag_filter (selectedFilters : list string) (d : DocumentWithUser) : bool :=
  match selectedFilters with
  | [] => true
  | _ => existsb (fun f => match Document.tags (dw_doc d) with
                           | Some ts => bool_decide (f ∈ ts)
                           | None => false
                           end) selectedFilters
  end.

(** [toggleFilter] (lines 92-98). *)
Definition toggleFilter (tag : string) (prev : list string) : list string :=
  if bool_decide (tag ∈ prev) then filter (fun t => t <> tag) prev else prev ++ [tag].

(** [handleDelete(id)] (lines 100-104): the request [deleteMutation]
    sends (lines 43-47) when the user confirms; [onSuccess] (lines 48-54)
    invalidates ["/api/documents"], so the list is fetched again. *)
Definition handleDelete (confirmed : bool) (id : Id) : option route :=
  if confirmed then Some (DeleteDocument id) else None.

(** The chips offered (lines 214-216): the tags not selected, five at most. *)
Definition available_filters (selectedFilters : list string) (documents : list DocumentWithUser) : list string :=
  take 5 (filter (fun t => t ∉ selectedFilters) (allTags documents)).

(** [doc.summary] as a condition. *)
Definition has_summary (d : DocumentWithUser) : bool :=
  match Document.summary (dw_doc d) with Some s => str_truthy s | None => false end.

Record stats := mk_stats { totalDocs : nat; aiSummaries : nat; tagsGenerated : nat; teamMembers : nat }.

(** [stats] (lines 85-90). *)
Definition dashboard_stats (documents : list DocumentWithUser) : stats :=
  mk_stats (length documents) (length (filter (fun d => has_summary d = true) documents))
    (length (allTags documents)) (length (set_from ((fun d => User.id (dw_author d)) <$> documents))).

(** [canEdit] of the card (part_002 line 351). *)
Definition canEdit (document : DocumentWithUser) (currentUser : Payload) : bool :=
  (User.id (dw_author document) === p_id currentUser) || (p_role currentUser === "admin").

(** [queryClient.setQueryData(["/api/documents"], old => old?.map(...))]
    after the card's AI summary (lines 363-370) or tags (lines 397-404):
    the cached list only, nothing is sent to the server. *)
Definition cache_set_summary (id : Id) (summary : string) (old : list DocumentWithUser) : list DocumentWithUser :=
  (fun d => if bool_decide (Document.id (dw_doc d) = id) then
              let x := dw_doc d in
              mkDocumentWithUser (Document.mk (Document.id x) (Document.title x) (Document.content x)
                (Some summary) (Document.tags x) (Document.createdBy x) (Document.createdAt x)
                (Document.updatedAt x) (Document.version x)) (dw_author d)
            else d) <$> old.

Section dates.
Local Open Scope Z_scope.

Definition day_ms : Z := 1000 * 60 * 60 * 24.

(** [formatDate] (part_002 lines 437-446): the relative text, or the
    date itself ([toLocaleDateString]) from 30 days on. *)
Definition formatDate (now date : Z) : string + Z :=
  let diffTime := Z.abs (now - date) in
  let diffDays := (diffTime + day_ms - 1) / day_ms in
  if bool_decide (diffDays = 1) then inl "1 day ago"
  else if bool_decide (diffDays < 7) then inl (pretty diffDays ++ " days ago")
  else if bool_decide (diffDays < 30) then
    inl (pretty (diffDays / 7) ++ " week" ++ (if bool_decide (1 < diffDays / 7) then "s" else "") ++ " ago")
  else inr date.
End dates.

Section dashboard.
Context (localeCompare : string -> string -> Z).

(** The comparator of lines 73-83. *)
Definition compare_docs (sortBy : string) (a b : DocumentWithUser) : Z :=
  if sortBy === "title" then localeCompare (Document.title (dw_doc a)) (Document.title (dw_doc b))
  else if sortBy === "author" then localeCompare (User.name (dw_author a)) (User.name (dw_author b))
  else desc_by (fun d => Document.updatedAt (dw_doc d)) a b.

(** [filteredDocuments] (lines 68-83). *)
Definition filteredDocuments (selectedFilters : list string) (sortBy : string)
    (documents : list DocumentWithUser) : list DocumentWithUser :=
  sort (compare_docs sortBy) (filter (fun d => tag_filter selectedFilters d = true) documents).
End dashboard.

(** ** Lemmas *)

Section set_from.
Context {A : Type} `{EqDecision A}.
Implicit Types (seen xs : list A).

Lemma set_add_all_NoDup seen xs : NoDup seen -> NoDup (set_add_all seen xs).
Proof.
  revert seen. induction xs as [|x xs IH]; intros seen Hs; simpl; [done|]. apply IH.
  case_bool_decide; [done|]. apply NoDup_app. split_and!; [done| |by apply NoDup_singleton].
  intros y Hy ->%list_elem_of_singleton. done.
Qed.

Lemma elem_of_set_add_all seen xs x : x ∈ set_add_all seen xs <-> x ∈ seen \/ x ∈ xs.
Proof.
  revert seen. induction xs as [|y xs IH]; intros seen; simpl.
  - split; [by left|]. intros [?|?%elem_of_nil]; done.
  - rewrite IH, elem_of_cons. case_bool_decide; [|rewrite elem_of_app, list_elem_of_singleton];
      naive_solver.
Qed.

Lemma length_set_add_all seen xs : length (set_add_all seen xs) <= length seen + length xs.
Proof.
  revert seen. induction xs as [|x xs IH]; intros seen; simpl; [lia|].
  etrans; [apply IH|]. case_bool_decide; [lia|]. rewrite length_app. simpl. lia.
Qed.

Lemma set_from_spec xs :
  NoDup (set_from xs) /\ (forall x, x ∈ set_from xs <-> x ∈ xs) /\ length (set_from xs) <= length xs.
Proof.
  unfold set_from. split_and!.
  - apply set_add_all_NoDup, NoDup_nil_2.
  - intros x. rewrite elem_of_set_add_all. split; [|by right]. intros [?%elem_of_nil|?]; done.
  - apply length_set_add_all.
Qed.
End set_from.

(** [l] is its element [x] followed by the others. *)
Lemma perm_filter_out (x : string) l :
  NoDup l -> x ∈ l -> l ≡ₚ x :: filter (fun t => t <> x) l.
Proof.
  intros Hl Hx. apply list_elem_of_split in Hx as (l1 & l2 & ->).
  apply NoDup_app in Hl as (H1 & H12 & H2). apply NoDup_cons in H2 as [Hx2 H2].
  rewrite filter_app, filter_cons_False by (intros H; by apply H).
  rewrite !filter_all; [by rewrite Permutation_middle| |].
  - apply Forall_forall. intros y Hy ->. done.
  - apply Forall_forall. intros y Hy ->. by apply (H12 x); [|apply elem_of_cons; left].
Qed.

(** A document of [getDocuments] is stored under its id, with an author
    that resolves. *)
Lemma getDocuments_stored s dw :
  coherent s -> dw ∈ getDocuments s ->
  Map.get (Document.id (dw_doc dw)) (documents s) = Some (dw_doc dw) /\
  getUser (Document.createdBy (dw_doc dw)) s = Some (dw_author dw).
Proof.
  intros Hc Hdw. unfold getDocuments in Hdw.
  apply elem_of_sort, list_elem_of_omap in Hdw as (doc & Hdoc & Hw).
  unfold with_author in Hw. destruct (getUser (Document.createdBy doc) s) as [u|] eqn:Hu; [|done].
  injection Hw as <-. cbn [dw_doc dw_author].
  apply list_elem_of_fmap in Hdoc as ([k doc'] & Hd & Hin). cbn [snd] in Hd. subst doc'.
  pose proof (Map.In_get_Some _ _ _ (inv_wf_documents _ Hc) Hin) as Hk.
  by rewrite (inv_doc_id _ Hc _ _ Hk).
Qed.

(** ... so [getDocument] joins the same author. *)
Lemma getDocuments_getDocument s dw dd :
  coherent s -> dw ∈ getDocuments s -> getDocument (Document.id (dw_doc dw)) s = Some dd ->
  dd_author dd = dw_author dw.
Proof.
  intros Hc Hdw Hdd. destruct (getDocuments_stored s dw Hc Hdw) as [Hk Hu].
  unfold getDocument in Hdd. rewrite Hk in Hdd. simpl in Hdd. rewrite Hu in Hdd.
  by injection Hdd as <-.
Qed.

Lemma ceil_days d k : ((k - 1) * day_ms < d <= k * day_ms)%Z -> ((d + day_ms - 1) / day_ms)%Z = k.
Proof.
  intros Hd. symmetry. apply (Z.div_unique_pos _ _ _ (d + day_ms - 1 - k * day_ms)); unfold day_ms in *; lia.
Qed.

(** ** Properties *)

(** C33: The dashboard's default view (no filter, most recent first)
    shows the list of [GET /api/documents] exactly as the server sends
    it: the client's sort agrees with the store's, ties included. *)
Theorem dashboard_default_view localeCompare s :
  filteredDocuments localeCompare [] "recent" (getDocuments s) = getDocuments s.
Proof.
  unfold filteredDocuments. rewrite filter_all by (apply Forall_forall; done).
  change (compare_docs localeCompare "recent") with (desc_by (fun d => Document.updatedAt (dw_doc d))).
  apply sort_idem.
Qed.

(** [toggleFilter] keeps the selected tags free of duplicates, and
    a second click on the same tag gives back the same selection (in
    another order when the tag was selected before). *)
Theorem toggleFilter_involutive tag l :
  NoDup l -> NoDup (toggleFilter tag l) /\ toggleFilter tag (toggleFilter tag l) ≡ₚ l.
Proof.
  intros Hl. unfold toggleFilter. case_bool_decide as Ht.
  - assert (Hn : tag ∉ filter (fun t => t <> tag) l) by (intros [? _]%list_elem_of_filter; done).
    split; [by apply NoDup_filter|]. rewrite bool_decide_eq_false_2 by done.
    rewrite Permutation_app_comm. symmetry. by apply perm_filter_out.
  - split; [apply NoDup_app; split_and!; [done| |by apply NoDup_singleton]|].
    + intros y Hy ->%list_elem_of_singleton. done.
    + rewrite bool_decide_eq_true_2 by (apply elem_of_app; right; by left).
      rewrite filter_app, filter_all, filter_cons_False by (try (intros H; by apply H);
        apply Forall_forall; intros y Hy ->; done).
      by rewrite app_nil_r.
Qed.

(** The statistics of the dashboard are bounded by the number of
    documents: the documents with a summary and the distinct authors are
    at most as many as the documents, and the tag count is the number of
    distinct tags of the documents. *)
Theorem stats_bounds docs :
  aiSummaries (dashboard_stats docs) <= totalDocs (dashboard_stats docs) /\
  teamMembers (dashboard_stats docs) <= totalDocs (dashboard_stats docs) /\
  NoDup (allTags docs) /\
  (forall t, t ∈ allTags docs <-> exists d, d ∈ docs /\ t ∈ doc_tags d).
Proof.
  unfold dashboard_stats, allTags. simpl. split_and!.
  - apply length_filter.
  - destruct (set_from_spec ((fun d => User.id (dw_author d)) <$> docs)) as (_ & _ & ->).
    by rewrite length_fmap.
  - apply set_from_spec.
  - intros t. rewrite (proj1 (proj2 (set_from_spec _))), list_elem_of_In, in_concat.
    setoid_rewrite <- list_elem_of_In. setoid_rewrite list_elem_of_fmap. naive_solver.
Qed.

(** C20: The card offers editing and deletion exactly to the users the
    server lets edit and delete: for a document of the dashboard's list,
    [canEdit] of the card equals the permission test of the PUT and
    DELETE routes on the document [getDocument] returns for its id. *)
Theorem card_matches_server s dw dd u :
  coherent s -> dw ∈ getDocuments s -> getDocument (Document.id (dw_doc dw)) s = Some dd ->
  canEdit dw u = may_edit u dd.
Proof.
  intros Hc Hdw Hdd. unfold canEdit, may_edit.
  by rewrite (getDocuments_getDocument s dw dd).
Qed.

(** C39: A card dates a document by the ceiling of its distance in days:
    anything changed within the last 24 hours, even a millisecond ago,
    reads "1 day ago", and a distance of more than [k - 1] and at most
    [k] days (for [2 <= k < 7]) reads "k days ago". *)
Theorem formatDate_days now date k :
  (1 <= k < 7)%Z -> ((k - 1) * day_ms < Z.abs (now - date) <= k * day_ms)%Z ->
  formatDate now date = inl (if bool_decide (k = 1%Z) then "1 day ago" else pretty k ++ " days ago").
Proof.
  intros Hk Hd. unfold formatDate. cbv zeta. rewrite (ceil_days _ k Hd).
  case_bool_decide; [done|]. by rewrite bool_decide_eq_true_2 by lia.
Qed.

(** C21: Deleting from the dashboard: when the author or an admin
    confirms, the request sent is answered 200 "Document deleted
    successfully" (run alone) and the list fetched again no longer
    holds the document; without confirmation nothing is sent. *)
Theorem dashboard_delete s id doc author u ai :
  coherent s -> Map.get id (documents s) = Some doc -> getUser (Document.createdBy doc) s = Some author ->
  may_edit u (mkDocumentWithDetails doc author (getDocumentVersions id s)) = true ->
  handleDelete false id = None /\
  exists r s', handleDelete true id = Some r /\
    runs (protected_route ai r u) s (mk_response 200 (BMessage "Document deleted successfully")) s' /\
    Forall (fun dw => Document.id (dw_doc dw) <> id) (getDocuments s').
Proof.
  intros Hc Hd Hu Hm. split; [done|]. pose proof (deleteDocument_run id s doc Hd) as Hdel.
  exists (DeleteDocument id), (delete_cascade id s). split; [done|]. split.
  - simpl. unfold deleteDocument_route. eapply runs_bind; [apply runs_getDocument|].
    rewrite (getDocument_found s id doc author Hd Hu). simpl. rewrite Hm.
    pose proof (runs_lift (deleteDocument id) s) as Hl. rewrite Hdel in Hl.
    eapply runs_bind; [apply runs_await, Hl|]. simpl. apply runs_ret.
  - apply Forall_forall. intros dw Hdw Hid.
    assert (Hc' : coherent (delete_cascade id s)).
    { pose proof (deleteDocument_coherent id s Hc) as H. unfold exec_st in H. by rewrite Hdel in H. }
    destruct (getDocuments_stored _ dw Hc' Hdw) as [Hk _]. rewrite Hid in Hk.
    simpl in Hk. by rewrite Map.get_delete_eq in Hk.
Qed.

(** ** Instances *)

Definition ex_author : User.t := User.mk 1 "alice@example.com" "hash" "Alice" "user" 0 0.

Definition bob : Payload := mkPayload 5 "bob@example.com" "Bob" "user".

Definition ex_listed : DocumentWithUser := Eval vm_compute in
  match getDocuments s_one with dw :: _ => dw | [] => mkDocumentWithUser (Document.mk 0 "" "" None None 0 0 0 0) ex_author end.

Definition ex_details : DocumentWithDetails := Eval vm_compute in
  default (mkDocumentWithDetails (dw_doc ex_listed) ex_author []) (getDocument 1 s_one).

Lemma card_matches_server_witness : canEdit ex_listed bob = may_edit bob ex_details.
Proof.
  apply (card_matches_server s_one).
  - apply inv_core, reachable_inv, s_one_reachable.
  - replace (getDocuments s_one) with [ex_listed] by (vm_compute; reflexivity).
    by apply list_elem_of_singleton.
  - vm_compute. reflexivity.
Defined.

Lemma formatDate_days_witness : formatDate 5 4 = inl "1 day ago".
Proof. rewrite (formatDate_days 5 4 1) by (unfold day_ms; lia). reflexivity. Defined.

Definition ex_stored : Document.t := Eval vm_compute in
  default (dw_doc ex_listed) (Map.get 1%N (documents s_one)).

Definition ex_owner : User.t := Eval vm_compute in
  default ex_author (getUser (Document.createdBy ex_stored) s_one).

Definition no_oracle : Gemini.ai_oracle :=
  Gemini.mk_ai_oracle (fun _ => Gemini.AiEmpty) (fun _ => Gemini.AiEmpty) (fun _ => Gemini.AiEmpty).

Lemma dashboard_delete_witness :
  handleDelete false 1 = None /\
  exists r s', handleDelete true 1 = Some r /\
    runs (protected_route no_oracle r (payload_of ex_owner)) s_one
      (mk_response 200 (BMessage "Document deleted successfully")) s' /\
    Forall (fun dw => Document.id (dw_doc dw) <> 1%N) (getDocuments s').
Proof.
  apply (dashboard_delete s_one 1 ex_stored ex_owner).
  - apply inv_core, reachable_inv, s_one_reachable.
  - vm_compute. reflexivity.
  - vm_compute. reflexivity.
  - vm_compute. reflexivity.
Defined.
