(* ===== verification/Components.v ===== *)
(** * The shared client components (src/unnamed/part_002)

    - [Sidebar] (lines 21-177): the navigation item shown as active for
      the current location ([isActive], lines 38-42), the team activity
      feed (lines 117-136: the first five activities of
      [GET /api/activities], one line each) and the user's initials.
    - [VersionHistoryModal] (lines 195-311): one row per element of the
      JSON array [GET /api/documents/:id/versions] answers.  The row reads
      [version.createdBy?.name], but a version's [createdBy] is the
      author's id, a string; [version_json] is the JSON the route sends
      ([JSON.stringify] of the stored row, [toISOString] of its date a
      parameter), so the model reads the property where the code does.
    - [DocumentCard] (lines 344-560): what the card shows
      ([card_view]), the requests its AI buttons send without any check
      of the title and content (lines 353-360 and 387-394), and the tags
      they write into the cache (lines 395-404).
    - [getInitials] (lines 34-36; the same function is written again in
      lines 216-218 and 433-435). *)

From S2P Require Import Spec2Rocq Async JsMap JsString JsSort Schema Zod Auth Storage StorageInv StorageAsync Gemini Routes Pages Dashboard.
From Stdlib Require Import String Ascii.
From stdpp Require Import strings pretty.

Local Open Scope string_scope.

(** [n[0]]: the first character of a word, [undefined] for the empty
    word, which [join] writes as nothing. *)
Definition first_char (s : string) : string :=
  match s with EmptyString => "" | String c _ => String c "" end.

(** [name.split(" ").map(n => n[0]).join("").toUpperCase()] *)
Definition getInitials (name : string) : string :=
  toUpperCase (JsString.join "" (first_char <$> JsString.split " "%char name)).

(** ** Sidebar *)

(** [isActive(path)] at [location] (lines 38-42). *)
Definition isActive (location path : string) : bool :=
  if (path === "/") && (location === "/") then true
  else if negb (path === "/") && String.prefix path location then true
  else false.

(** The navigation items (lines 61-109): their paths and the page each
    links to. *)
Definition nav_items : list (string * page) :=
  [("/", PDashboard); ("/search", PSearch); ("/document/new", PEditorNew);
   ("/qa", PQa); ("/support", PSupport)].

(** [{activity.user.name} {activity.type} "{activity.document?.title || 'a document'}"] *)
Definition activity_line (a : ActivityWithUser) : string :=
  User.name (aw_user a) ++ " " ++ Activity.type (aw_activity a) ++ " " ++ quote ++
  (match aw_document a with
   | Some d => if str_truthy (Document.title d) then Document.title d else "a document"
   | None => "a document"
   end) ++ quote.

(** The feed (lines 117-136): the initials and line of the first five
    activities, or the text shown when there are none. *)
Definition activity_feed (activities : option (list ActivityWithUser)) : list (string * string) + string :=
  match activities with
  | Some (_ :: _ as l) => inl ((fun a => (getInitials (User.name (aw_user a)), activity_line a)) <$> take 5 l)
  | _ => inr "No recent activity"
  end.

(** [user ? getInitials(user.name) : "?"] (line 156). *)
Definition user_initials (user : option Payload) : string :=
  match user with Some u => getInitials (p_name u) | None => "?" end.

(** ** VersionHistoryModal *)

Section modal.
Context (toISOString : Z -> string).

Definition id_json (id : Id) : json := JStr (pretty id).

Definition opt_str_json (s : option string) : json :=
  match s with Some x => JStr x | None => JNull end.

(** The stored row as [res.json] sends it: the keys of
    [createDocumentVersion] (part_004 lines 203-210), the ids strings, the
    date an ISO string. *)
Definition version_json (v : DocumentVersion.t) : json :=
  JObj [("documentId", id_json (DocumentVersion.documentId v));
        ("title", JStr (DocumentVersion.title v));
        ("content", JStr (DocumentVersion.content v));
        ("summary", opt_str_json (DocumentVersion.summary v));
        ("tags", match DocumentVersion.tags v with Some ts => JArr (JStr <$> ts) | None => JNull end);
        ("version", JNum (DocumentVersion.version v));
        ("createdBy", id_json (DocumentVersion.createdBy v));
        ("changeDescription", opt_str_json (DocumentVersion.changeDescription v));
        ("id", id_json (DocumentVersion.id v));
        ("createdAt", JStr (toISOString (DocumentVersion.createdAt v)))].
End modal.

(** [x || d] on a JSON property read as text. *)
Definition or_text (v : option json) (d : string) : string :=
  if truthy v then default "" (js_to_string <$> v) else d.

(** [x?.k] *)
Definition opt_prop (k : string) (v : option json) : option json := v ≫= prop k.

Record version_row := mk_version_row {
  vr_label : string;
  vr_description : string;
  vr_initials : string;
  vr_author : string;
}.

(** One row of the modal (lines 261-298). *)
Definition row_of (version : json) : version_row :=
  let n := or_text (prop "version" version) "" in
  mk_version_row ("v" ++ n)
    (or_text (prop "changeDescription" version) ("Version " ++ n))
    (getInitials (or_text (opt_prop "name" (prop "createdBy" version)) "U"))
    (or_text (opt_prop "name" (prop "createdBy" version)) "Unknown").

(** The body of the modal: skeletons while loading, then the rows, or
    the text for an empty history (lines 247-306). *)
Definition modal_rows (isLoading : bool) (versions : list json) : option (list version_row + string) :=
  if isLoading then None
  else match versions with
       | [] => Some (inr "No version history available")
       | _ => Some (inl (row_of <$> versions))
       end.

(** [handleRestore] (lines 230-233) only logs: the state is unchanged. *)
Definition handleRestore {S} (versionId : Id) (s : S) : S := s.

(** ** DocumentCard *)



(** The bodies of the card's AI requests: the document's title and
    content as they are (lines 355-358 and 389-392). *)
Definition card_ai_body (document : DocumentWithUser) : json :=
  JObj [("title", JStr (Document.title (dw_doc document)));
        ("content", JStr (Document.content (dw_doc document)))].

Definition card_summary_request (document : DocumentWithUser) : route := PostSummarize (card_ai_body document).
Definition card_tags_request (document : DocumentWithUser) : route := PostTags (card_ai_body document).

(** [setQueryData] after the tags (lines 397-404). *)
Definition cache_set_tags (id : Id) (tags : list string) (old : list DocumentWithUser) : list DocumentWithUser :=
  (fun d => if bool_decide (Document.id (dw_doc d) = id) then
              let x := dw_doc d in
              mkDocumentWithUser (Document.mk (Document.id x) (Document.title x) (Document.content x)
                (Document.summary x) (Some tags) (Document.createdBy x) (Document.createdAt x)
                (Document.updatedAt x) (Document.version x)) (dw_author d)
            else d) <$> old.

(** ** Lemmas *)

Lemma row_of_version_json toISOString v :
  vr_author (row_of (version_json toISOString v)) = "Unknown" /\
  vr_initials (row_of (version_json toISOString v)) = "U".
Proof. split; reflexivity. Qed.

Lemma card_ai_body_props d :
  prop "title" (card_ai_body d) = Some (JStr (Document.title (dw_doc d))) /\
  prop "content" (card_ai_body d) = Some (JStr (Document.content (dw_doc d))).
Proof. done. Qed.

(** The AI routes on the card's body: the guard of [ai_title_content]
    decides on the document's title and content. *)
Lemma ai_title_content_card {A} d (call : string -> string -> throws A) answer failure :
  ai_title_content (card_ai_body d) call answer failure =
  if str_truthy (Document.title (dw_doc d)) && str_truthy (Document.content (dw_doc d)) then
    (r ← await (mret (call (Document.title (dw_doc d)) (Document.content (dw_doc d))));
     match r with inl _ => fail 500 failure | inr a => ok (answer a) end)
  else fail 400 "Title and content required".
Proof.
  unfold ai_title_content. destruct (card_ai_body_props d) as [-> ->].
  rewrite !truthy_JStr. by destruct (Document.title (dw_doc d)), (Document.content (dw_doc d)).
Qed.

(** ** Properties *)

(** C31: The version history never names an author: for every answer of
    [GET /api/documents/:id/versions], each row of the modal reads
    [createdBy?.name] from a [createdBy] that is the author's id (a
    string), so it shows "Unknown" with the initials "U". *)
Theorem version_modal_unknown_author toISOString ai user id :
  answers (fun resp => match body resp with
                       | BVersions vs =>
                           Forall (fun v => vr_author (row_of (version_json toISOString v)) = "Unknown" /\
                                            vr_initials (row_of (version_json toISOString v)) = "U") vs
                       | _ => False
                       end)
    (protected_route ai (GetVersions id) user).
Proof.
  simpl. apply (answers_bind (fun _ => True)); [apply answers_any|]. intros vs _.
  apply answers_ret. simpl. apply Forall_forall. intros v _. apply (row_of_version_json toISOString v).
Qed.

(** C32: The card's AI buttons send the document without the editor's
    check: the server answers 400 "Title and content required" to every
    summary or tags request of a card whose title or content is empty,
    and never answers 400 to the others. *)
Theorem card_ai_requests ai user d :
  (str_truthy (Document.title (dw_doc d)) && str_truthy (Document.content (dw_doc d)) = false ->
   answers (fun resp => resp = mk_response 400 (BMessage "Title and content required"))
     (protected_route ai (card_summary_request d) user) /\
   answers (fun resp => resp = mk_response 400 (BMessage "Title and content required"))
     (protected_route ai (card_tags_request d) user)) /\
  (str_truthy (Document.title (dw_doc d)) && str_truthy (Document.content (dw_doc d)) = true ->
   answers (fun resp => status resp <> 400%Z) (protected_route ai (card_summary_request d) user) /\
   answers (fun resp => status resp <> 400%Z) (protected_route ai (card_tags_request d) user)).
Proof.
  simpl. rewrite !ai_title_content_card. split; intros ->; split; answers_chain.
Qed.


(** ** Instances *)

Definition untitled : DocumentWithUser :=
  mkDocumentWithUser (Document.mk 2 "" "Changes" None None 1 0 0 1)
    (User.mk 1 "alice@example.com" "hash" "Alice" "user" 0 0).

Lemma card_ai_requests_witness :
  answers (fun resp => resp = mk_response 400 (BMessage "Title and content required"))
    (protected_route no_oracle (card_summary_request untitled) alice) /\
  answers (fun resp => resp = mk_response 400 (BMessage "Title and content required"))
    (protected_route no_oracle (card_tags_request untitled) alice).
Proof. apply (proj1 (card_ai_requests no_oracle alice untitled)). reflexivity. Defined.
