(* ===== verification/EditorPage.v ===== *)
(** * The editor page as a state machine (src/client/src/pages/document-editor.tsx)

    [Editor.v] holds what the page computes from its form; this file
    holds what the page remembers between events and how events change
    it.  The state ([editor]) is the form, the two flags
    [isGeneratingSummary] and [isGeneratingTags] (lines 30-31), the three
    mutations in flight ([saveMutation], [generateSummaryMutation],
    [generateTagsMutation], lines 69-163) with the request each sent or
    the error its [mutationFn] threw, the location and the toasts shown.
    [editor_step] has one rule per event the page reacts to: the document
    query resolving (lines 57-66), typing, the submit button (disabled
    while a save is pending, line 343), the AI buttons (disabled while
    their flag is set, lines 297 and 314), the back and cancel buttons, and
    the success or failure of each mutation with its [onSettled].  After
    [navigate("/")] the page is gone, but the mutations in flight still
    settle: their callbacks belong to the mutation, not to the page. *)

From S2P Require Import Spec2Rocq JsString Schema Zod Storage Routes Editor.
From Stdlib Require Import String.
From stdpp Require Import strings relations.

Local Open Scope string_scope.

(** [toast({ title, description, variant })]. *)
Record toast := mk_toast { toast_title : string; toast_description : string; destructive : bool }.

Record editor := mk_editor {
  e_form : form;
  isGeneratingSummary : bool;
  isGeneratingTags : bool;
  summary_call : option (string + route);
  tags_call : option (string + route);
  save_call : option route;
  e_location : string;
  toasts : list toast;
}.

Section page.
(** [params?.id] of [/document/edit/:id] and the page's own path. *)
Context (documentId : option Id) (here : string).

(** [isEditing = !!params?.id] (line 33). *)
Definition isEditing : bool := bool_decide (is_Some documentId).

Definition editor_init : editor := mk_editor form_default false false None None None here [].

(** The header (lines 213-218) and the save button (line 347). *)
Definition header_title : string := if isEditing then "Edit Document" else "Create New Document".
Definition header_subtitle : string :=
  if isEditing then "Update your document" else "Add knowledge to your team's repository".
Definition save_label (e : editor) : string :=
  if bool_decide (is_Some (save_call e)) then "Saving..."
  else if isEditing then "Update Document" else "Create Document".

(** [form.reset(...)] when [document] changes (lines 57-66). *)
Definition load (d : Document.t) (e : editor) : editor :=
  mk_editor (form_of_document d) (isGeneratingSummary e) (isGeneratingTags e)
    (summary_call e) (tags_call e) (save_call e) (e_location e) (toasts e).

(** An input registered with [form.register] changing. *)
Definition type_form (f : form) (e : editor) : editor :=
  mk_editor f (isGeneratingSummary e) (isGeneratingTags e)
    (summary_call e) (tags_call e) (save_call e) (e_location e) (toasts e).

(** [onSubmit] (lines 165-167): [saveMutation.mutate(data)]. *)
Definition onSubmit (e : editor) : editor :=
  mk_editor (e_form e) (isGeneratingSummary e) (isGeneratingTags e)
    (summary_call e) (tags_call e) (Some (save_route documentId (e_form e))) (e_location e) (toasts e).

(** [saveMutation.onSuccess] (lines 84-91). *)
Definition save_onSuccess (e : editor) : editor :=
  mk_editor (e_form e) (isGeneratingSummary e) (isGeneratingTags e)
    (summary_call e) (tags_call e) None "/"
    (app (toasts e) [if isEditing
       then mk_toast "Document updated" "Your document has been successfully updated." false
       else mk_toast "Document created" "Your document has been successfully created." false]).

(** [saveMutation.onError] (lines 92-98). *)
Definition save_onError (m : string) (e : editor) : editor :=
  mk_editor (e_form e) (isGeneratingSummary e) (isGeneratingTags e)
    (summary_call e) (tags_call e) None (e_location e)
    (app (toasts e) [mk_toast "Save failed" m true]).

(** [handleGenerateSummary] (lines 169-172): the flag, then [mutate()],
    whose [mutationFn] reads the form now (lines 104-111). *)
Definition handleGenerateSummary (e : editor) : editor :=
  mk_editor (e_form e) true (isGeneratingTags e)
    (Some (generateSummary_request (e_form e))) (tags_call e) (save_call e) (e_location e) (toasts e).

(** [handleGenerateTags] (lines 174-177). *)
Definition handleGenerateTags (e : editor) : editor :=
  mk_editor (e_form e) (isGeneratingSummary e) true
    (summary_call e) (Some (generateTags_request (e_form e))) (save_call e) (e_location e) (toasts e).

(** [generateSummaryMutation.onSuccess] then [onSettled] (lines 114-130):
    the answer goes into the form as it is when it arrives. *)
Definition summary_onSuccess (s : string) (e : editor) : editor :=
  mk_editor (ai_success (e_form e) (BSummary s)) false (isGeneratingTags e)
    None (tags_call e) (save_call e) (e_location e)
    (app (toasts e) [mk_toast "Summary generated" "AI summary has been generated successfully." false]).

(** [generateSummaryMutation.onError] then [onSettled] (lines 121-130). *)
Definition summary_onError (m : string) (e : editor) : editor :=
  mk_editor (e_form e) false (isGeneratingTags e)
    None (tags_call e) (save_call e) (e_location e)
    (app (toasts e) [mk_toast "Failed to generate summary" m true]).

(** [generateTagsMutation.onSuccess] then [onSettled] (lines 146-162). *)
Definition tags_onSuccess (ts : list string) (e : editor) : editor :=
  mk_editor (ai_success (e_form e) (BTags ts)) (isGeneratingSummary e) false
    (summary_call e) None (save_call e) (e_location e)
    (app (toasts e) [mk_toast "Tags generated" "AI tags have been generated successfully." false]).

(** [generateTagsMutation.onError] then [onSettled] (lines 153-162). *)
Definition tags_onError (m : string) (e : editor) : editor :=
  mk_editor (e_form e) (isGeneratingSummary e) false
    (summary_call e) None (save_call e) (e_location e)
    (app (toasts e) [mk_toast "Failed to generate tags" m true]).

(** The back and cancel buttons: [navigate("/")] (lines 207 and 334). *)
Definition navigate_home (e : editor) : editor :=
  mk_editor (e_form e) (isGeneratingSummary e) (isGeneratingTags e)
    (summary_call e) (tags_call e) (save_call e) "/" (toasts e).

(** The message of a failed AI mutation: the one [mutationFn] threw
    before sending, or any message of a failed request. *)
Definition thrown_message (x : string + route) (m : string) : Prop :=
  match x with inl m' => m = m' | inr _ => True end.

Inductive editor_step : editor -> editor -> Prop :=
  | st_load e d : e_location e = here -> documentId = Some (Document.id d) -> editor_step e (load d e)
  | st_type e f : e_location e = here -> editor_step e (type_form f e)
  | st_submit e : e_location e = here -> save_call e = None -> editor_step e (onSubmit e)
  | st_save_ok e r : save_call e = Some r -> editor_step e (save_onSuccess e)
  | st_save_err e r m : save_call e = Some r -> editor_step e (save_onError m e)
  | st_click_summary e : e_location e = here -> isGeneratingSummary e = false ->
      editor_step e (handleGenerateSummary e)
  | st_summary_ok e r s : summary_call e = Some (inr r) -> editor_step e (summary_onSuccess s e)
  | st_summary_err e x m : summary_call e = Some x -> thrown_message x m ->
      editor_step e (summary_onError m e)
  | st_click_tags e : e_location e = here -> isGeneratingTags e = false ->
      editor_step e (handleGenerateTags e)
  | st_tags_ok e r ts : tags_call e = Some (inr r) -> editor_step e (tags_onSuccess ts e)
  | st_tags_err e x m : tags_call e = Some x -> thrown_message x m -> editor_step e (tags_onError m e)
  | st_back e : e_location e = here -> editor_step e (navigate_home e).

Definition editor_reachable (e : editor) : Prop := rtc editor_step editor_init e.

(** What the page keeps true: a flag is set exactly while its mutation
    is in flight, and what is in flight was built from some form. *)
Definition editor_wf (e : editor) : Prop :=
  isGeneratingSummary e = bool_decide (is_Some (summary_call e)) /\
  isGeneratingTags e = bool_decide (is_Some (tags_call e)) /\
  (forall x, summary_call e = Some x -> exists f, x = generateSummary_request f) /\
  (forall x, tags_call e = Some x -> exists f, x = generateTags_request f) /\
  (forall r, save_call e = Some r -> exists f, r = save_route documentId f).

(** Settling whatever is in flight by its failure. *)
Definition failure_message (x : string + route) : string :=
  match x with inl m => m | inr _ => "" end.

Definition settle (e : editor) : editor :=
  let e1 := match save_call e with Some _ => save_onError "" e | None => e end in
  let e2 := match summary_call e1 with Some x => summary_onError (failure_message x) e1 | None => e1 end in
  match tags_call e2 with Some x => tags_onError (failure_message x) e2 | None => e2 end.


(** ** Lemmas *)

Lemma generateSummary_request_inr f r :
  generateSummary_request f = inr r ->
  r = PostSummarize (ai_body f) /\ str_truthy (f_title f) = true /\ str_truthy (f_content f) = true.
Proof.
  unfold generateSummary_request. destruct (str_truthy (f_title f)), (str_truthy (f_content f)); naive_solver.
Qed.

Lemma generateTags_request_inr f r :
  generateTags_request f = inr r ->
  r = PostTags (ai_body f) /\ str_truthy (f_title f) = true /\ str_truthy (f_content f) = true.
Proof.
  unfold generateTags_request. destruct (str_truthy (f_title f)), (str_truthy (f_content f)); naive_solver.
Qed.

(** One goal of [editor_wf] after a step: a field kept, a call set to
    what the form gives, or a call cleared. *)
Ltac wf_field :=
  first [done | by intros ? [= <-]; eauto | by intros ? [=]].

Lemma editor_init_wf : editor_wf editor_init.
Proof. unfold editor_wf; simpl; split_and!; wf_field. Qed.

Lemma editor_step_wf e e' : editor_wf e -> editor_step e e' -> editor_wf e'.
Proof.
  intros (Hs & Ht & Hsx & Htx & Hsv) Hstep.
  destruct Hstep; unfold editor_wf; simpl; split_and!; wf_field.
Qed.

Lemma editor_steps_wf e e' : editor_wf e -> rtc editor_step e e' -> editor_wf e'.
Proof. intros He Hr. induction Hr; eauto using editor_step_wf. Qed.

Lemma editor_reachable_wf e : editor_reachable e -> editor_wf e.
Proof. apply editor_steps_wf, editor_init_wf. Qed.

Lemma thrown_failure_message x : thrown_message x (failure_message x).
Proof. by destruct x. Qed.

(** [settle] fails the save, then the summary, then the tags in flight. *)
Lemma settle_steps e : rtc editor_step e (settle e).
Proof.
  unfold settle.
  destruct (save_call e) as [r|] eqn:Hsv; [eapply rtc_l; [by eapply st_save_err|]|]; simpl;
  (destruct (summary_call e) as [x|] eqn:Hsx; [eapply rtc_l; [eapply st_summary_err; [done|apply thrown_failure_message]|]|]);
  simpl; rewrite ?Hsx; simpl;
  (destruct (tags_call e) as [y|] eqn:Htx; [eapply rtc_l; [eapply st_tags_err; [done|apply thrown_failure_message]|]|]);
  simpl; rewrite ?Htx; done.
Qed.

(** ** Properties *)

(** C26: In every state the editor page reaches, the spinner of an AI
    button is on exactly while its request is in flight; every AI request
    it has sent carries the form's title and content, both non-empty, so
    the server's [!title || !content] guard passes; and the save in
    flight is the PUT or POST of some form. *)
Theorem editor_invariant e :
  editor_reachable e ->
  isGeneratingSummary e = bool_decide (is_Some (summary_call e)) /\
  isGeneratingTags e = bool_decide (is_Some (tags_call e)) /\
  (forall r, summary_call e = Some (inr r) -> exists f,
     r = PostSummarize (ai_body f) /\ str_truthy (f_title f) = true /\ str_truthy (f_content f) = true) /\
  (forall r, tags_call e = Some (inr r) -> exists f,
     r = PostTags (ai_body f) /\ str_truthy (f_title f) = true /\ str_truthy (f_content f) = true) /\
  (forall r, save_call e = Some r -> exists f, r = save_route documentId f).
Proof.
  intros (Hs & Ht & Hsx & Htx & Hsv)%editor_reachable_wf. split_and!; [done|done| | |done].
  - intros r (f & Hf)%Hsx. exists f. by apply generateSummary_request_inr.
  - intros r (f & Hf)%Htx. exists f. by apply generateTags_request_inr.
Qed.

(** C27: No spinner stays on and no save stays pending: from every state
    the page reaches, the mutations in flight can all settle, leaving both
    AI buttons enabled, no save pending and the form as the user left it. *)
Theorem editor_settles e :
  editor_reachable e ->
  exists e', rtc editor_step e e' /\ e_form e' = e_form e /\
    isGeneratingSummary e' = false /\ isGeneratingTags e' = false /\ save_call e' = None.
Proof.
  intros (Hs & Ht & _)%editor_reachable_wf. exists (settle e). split; [apply settle_steps|].
  unfold settle, save_onError, summary_onError, tags_onError. simpl.
  destruct (save_call e) eqn:Hv, (summary_call e), (tags_call e); simpl in *; rewrite ?Hs, ?Ht; done.
Qed.

End page.

(** ** Instances *)

Definition ex_notes : form := mk_form "Notes" "Body" "" "".

Lemma editor_invariant_witness :
  isGeneratingTags (handleGenerateTags (editor_init "/document/new")) = true /\
  isGeneratingSummary (handleGenerateTags (editor_init "/document/new")) =
    bool_decide (is_Some (summary_call (handleGenerateTags (editor_init "/document/new")))).
Proof.
  split; [reflexivity|].
  apply (editor_invariant None "/document/new"). apply rtc_once. by apply st_click_tags.
Defined.

Lemma editor_settles_witness :
  exists e', rtc (editor_step None "/document/new")
    (handleGenerateTags (editor_init "/document/new")) e' /\
    e_form e' = form_default /\ isGeneratingSummary e' = false /\ isGeneratingTags e' = false /\
    save_call e' = None.
Proof.
  apply (editor_settles None "/document/new"). apply rtc_once. by apply st_click_tags.
Defined.

(** A save submitted while tags are being generated sends the form
    without them; the tags arrive after the page has left, are written
    into the form of a page no longer shown, and the toast still says
    they were generated. *)
Example save_before_tags :
  let e0 := type_form ex_notes (editor_init "/document/new") in
  let e1 := onSubmit None (handleGenerateTags e0) in
  let e2 := save_onSuccess None e1 in
  let e3 := tags_onSuccess ["notes"] e2 in
  rtc (editor_step None "/document/new") (editor_init "/document/new") e3 /\
  save_call e1 = Some (PostDocument (save_body ex_notes)) /\
  parse_tags (f_tags ex_notes) = [] /\
  e_location e3 = "/" /\ f_tags (e_form e3) = "notes" /\
  map toast_title (toasts e3) = ["Document created"; "Tags generated"].
Proof.
  simpl. split_and!; try reflexivity.
  eapply rtc_l; [apply (st_type _ _ _ ex_notes); reflexivity|]. eapply rtc_l; [by apply st_click_tags|].
  eapply rtc_l; [by apply st_submit|]. eapply rtc_l; [by eapply st_save_ok|].
  eapply rtc_l; [eapply st_tags_ok; reflexivity|]. done.
Qed.
